(** * SQLExecute of the MonetDB ODBC driver: a shallow embedding

    Source: [sql/src/odbc/driver/SQLExecute.c].  The file holds three
    functions, [convert], [next_result] and [SQLExecute], and the table
    [sql_types].  Each is translated below under its own name; the loops
    inside [SQLExecute] get a name that says which lines they are.

    Conventions.
    - A C string ([char *]) is the list of its characters before the
      terminating NUL.
    - [int] is [Z]; [size_t] counters and array indices are [nat].
      Arithmetic on them is exact: the model covers the executions in
      which no [int] overflows.
    - A function returns [None] where the C program has no defined result:
      a read or a write outside an allocated block, a read of an
      uninitialised variable, a failed [assert].
    - The stream library ([stream_readInt], [bs_read_next],
      [bstream_read], [stream_write]) and the headers ([ODBCStmt.h],
      [ODBCGlobal.h]) live in other files.  The wire model below stands
      for the former; the constants of the latter are the members of the
      class [Protocol].

    The module [Stethoscope] further down holds a second source,
    [clients/src/mapiclient/stethoscope.c]: the counter table,
    [setCounter], and the argument handling of [main] and [doProfile]. *)

From Stdlib Require Import ZArith Ascii String Lia.
From Equations Require Import Equations.
From stdpp Require Import base option list gmap strings.

Local Open Scope Z_scope.
Local Open Scope list_scope.

(** ** Characters and C strings *)

Abbreviation cstring := (list ascii).

Definition str (s : string) : cstring := list_ascii_of_string s.
Coercion str : string >-> list.

Definition NUL : ascii := "000"%char.
Definition QUOTE : ascii := "'"%char.
Definition DQUOTE : ascii := "034"%char.
Definition BACKSLASH : ascii := "\"%char.
Definition QMARK : ascii := "?"%char.
Definition COMMA : ascii := ","%char.
Definition TAB : ascii := "009"%char.
Definition NL : ascii := "010"%char.

(** The C string that starts at a pointer into [l]: everything before
    the first NUL. *)
Fixpoint cstr (l : list ascii) : cstring :=
  match l with
  | [] => []
  | c :: l' => if Ascii.eqb c NUL then [] else c :: cstr l'
  end.

Definition strlen (s : cstring) : nat := length s.

Definition strcmp_eq (a b : cstring) : bool := bool_decide (a = b).

(** [strchr]-like scan: the bytes before the first [c] and the bytes
    after it, or [None] when [c] does not occur (the scan reaches the end
    of the string, or [ec]). *)
Fixpoint scan_for (p : ascii -> bool) (l : list ascii)
  : option (list ascii * list ascii) :=
  match l with
  | [] => None
  | c :: l' =>
      if p c then Some ([], l')
      else match scan_for p l' with
           | Some (f, r) => Some (c :: f, r)
           | None => None
           end
  end.

Definition is_char (c : ascii) : ascii -> bool := Ascii.eqb c.

Definition inspect {A} (a : A) : {b | a = b} := exist _ a eq_refl.

(** ** Constants of the headers

    [BLOCK] and the result tags [Q_END], [Q_RESULT], [Q_TABLE],
    [Q_UPDATE] come from the headers; the functions below take them as
    they are, whatever their values. *)
Class Protocol := {
  BLOCK : nat;
  Q_END : Z;
  Q_RESULT : Z;
  Q_TABLE : Z;
  Q_UPDATE : Z;
}.

(** Return codes and C type identifiers of the ODBC headers
    ([sql.h], [sqlext.h]). *)
Definition SQLRETURN := Z.
Definition SQL_SUCCESS : SQLRETURN := 0.
Definition SQL_ERROR : SQLRETURN := -1.
Definition SQL_INVALID_HANDLE : SQLRETURN := -2.

Definition SQL_C_CHAR : Z := 1.
Definition SQL_C_BIT : Z := -7.
Definition SQL_C_UTINYINT : Z := -28.
Definition SQL_C_SSHORT : Z := -15.
Definition SQL_C_SLONG : Z := -16.
Definition SQL_C_SBIGINT : Z := -25.
Definition SQL_C_FLOAT : Z := 7.
Definition SQL_C_DOUBLE : Z := 8.
Definition SQL_C_TYPE_DATE : Z := 91.
Definition SQL_C_TYPE_TIME : Z := 92.
Definition SQL_C_TYPE_TIMESTAMP : Z := 93.

(** ** The wire

    Modelled from the spec: the read side of the transport ("each server
    message begins with two integers", an error payload "length-delimited
    by repeated reads until a terminal marker", payload bytes "arriving in
    arbitrary-sized chunks").  The stream is the sequence of what is
    still to come: integers, blocks of an error payload, chunks of
    payload bytes. *)
Inductive wire_item :=
| WInt (z : Z)
| WBlock (bytes : list ascii) (last : bool)
| WData (bytes : list ascii).

Abbreviation stream := (list wire_item).

(** Modelled from the spec: [stream_readInt] yields the next integer, and
    fails (returns 0, here [None]) when the stream does not continue with
    one. *)
Definition stream_readInt (rs : stream) : option Z * stream :=
  match rs with
  | WInt z :: rs' => (Some z, rs')
  | _ => (None, rs)
  end.

(** Modelled from the spec: [bs_read_next] takes one block of the error
    payload and reports whether it carried the terminal marker.  Where no
    block is left there is nothing more to read, which it reports as
    [last]. *)
Definition bs_read_next (rs : stream) : bool * stream :=
  match rs with
  | WBlock _ last :: rs' => (last, rs')
  | _ => (true, rs)
  end.

(** Modelled from the spec: one read of the transport, of at most [n]
    bytes.  It delivers bytes of the chunk at the head of the stream and
    nothing (end of stream) where the stream does not continue with
    payload bytes; it does not run into the integers of a frame that
    follows. *)
Definition stream_read (rs : stream) (n : nat) : list ascii * stream :=
  match rs with
  | WData bytes :: rs' =>
      if bool_decide (length bytes <= n)%nat then (bytes, rs')
      else (take n bytes, WData (drop n bytes) :: rs')
  | _ => ([], rs)
  end.

(** Modelled from the spec: the Stream Cursor's refill.  It stands for
    [[
      bs->pos = s - bs->buf;
      eof = (bstream_read(bs, bs->size - (bs->len - bs->pos)) == 0);
      sc = bs->buf + bs->pos;
      ec = bs->buf + bs->len;
    ]]
    The buffered window from [sc] to [ec] is the list of its bytes;
    [unread] is the window from [s] on.  The unread bytes are kept, in
    order, and what one read delivers is put behind them; the buffer
    holds [BLOCK] bytes. *)
Definition bstream_refill `{Protocol} (unread : list ascii) (rs : stream)
  : bool * list ascii * stream :=
  let '(new, rs') := stream_read rs (BLOCK - length unread) in
  (bool_decide (length new = 0%nat), unread ++ new, rs').

(** Modelled from the spec: the buffer of the Stream Cursor ("buffer,
    readPos <= writePos <= capacity"; on a refill the unread remainder
    is "shifted to the buffer start"; section 9 names the "in-place
    remainder shifting").  The bytes of [bs->buf] are kept in three
    pieces: [pre], the bytes before [sc]; [win], the window from [sc] to
    [ec]; [post], the bytes from [ec] on, as far as they have been
    written.  A pointer into the buffer is an offset from [bs->buf]: a
    pointer to the first byte of the window is [length pre].

    A refill moves the unread bytes to the start of the buffer, puts
    what one read delivers behind them and a NUL behind that (the end
    marker of the buffered bytes; the buffer has one byte more than
    [BLOCK] for it).  The bytes of the buffer behind that NUL are as
    they were.  [refill_post old win] is what lies behind the new window
    [win] in a buffer that held the bytes [old] before the refill. *)
Definition refill_post (old win : list ascii) : list ascii :=
  NUL :: drop (length win + 1) old.

(** [strdup (s)] for a pointer at offset [s] of the buffer [buf]: the
    bytes from there to the next NUL. *)
Definition strdup_at (buf : list ascii) (s : nat) : cstring :=
  cstr (drop s buf).

(** Modelled from the spec: the write side of the transport ("blocking
    write/read/flush/close").  The stream is what has been handed to
    [stream_write] and [stream_flush], in order. *)
Inductive wire_event :=
| Written (bytes : list ascii)
| Flushed.

Abbreviation wstream := (list wire_event).

Definition stream_write (ws : wstream) (buf : cstring) : wstream :=
  ws ++ [Written buf].

Definition stream_flush (ws : wstream) : wstream := ws ++ [Flushed].

(** ** Statements *)

(** [ColumnHeader], with the members [SQLExecute] assigns.  A [char *]
    member is [None] while it is NULL. *)
Record ColumnHeader := {
  nSQL_DESC_TYPE : Z;
  pszSQL_DESC_BASE_COLUMN_NAME : option cstring;
  pszSQL_DESC_BASE_TABLE_NAME : option cstring;
  pszSQL_DESC_TYPE_NAME : option cstring;
  pszSQL_DESC_LOCAL_TYPE_NAME : option cstring;
  pszSQL_DESC_LABEL : option cstring;
  pszSQL_DESC_CATALOG_NAME : option cstring;
  pszSQL_DESC_LITERAL_PREFIX : option cstring;
  pszSQL_DESC_LITERAL_SUFFIX : option cstring;
  pszSQL_DESC_NAME : option cstring;
  pszSQL_DESC_SCHEMA_NAME : option cstring;
  pszSQL_DESC_TABLE_NAME : option cstring;
  nSQL_DESC_DISPLAY_SIZE : Z;
}.

(** A [ColumnHeader] after [memset (..., 0, ...)]. *)
Definition zero_ColumnHeader : ColumnHeader :=
  {| nSQL_DESC_TYPE := 0;
     pszSQL_DESC_BASE_COLUMN_NAME := None;
     pszSQL_DESC_BASE_TABLE_NAME := None;
     pszSQL_DESC_TYPE_NAME := None;
     pszSQL_DESC_LOCAL_TYPE_NAME := None;
     pszSQL_DESC_LABEL := None;
     pszSQL_DESC_CATALOG_NAME := None;
     pszSQL_DESC_LITERAL_PREFIX := None;
     pszSQL_DESC_LITERAL_SUFFIX := None;
     pszSQL_DESC_NAME := None;
     pszSQL_DESC_SCHEMA_NAME := None;
     pszSQL_DESC_TABLE_NAME := None;
     nSQL_DESC_DISPLAY_SIZE := 0 |}.

(** [hstmt->State]; [SQLExecute] names two of its values. *)
Inductive StatementState :=
| PREPARED
| EXECUTED
| OtherState (n : nat).

#[global] Instance StatementState_eq_dec : EqDecision StatementState.
Proof. solve_decision. Defined.

(** [hstmt->bindParams]: [array[i]] is NULL ([None]) or the bound
    parameter, of which [SQLExecute] reads [ParameterValuePtr]. *)
Record OdbcInArray := {
  array : list (option cstring);
  size : nat;
}.

Record ODBCDbc := {
  Mrs : stream;
  Mws : wstream;
}.

(** One entry of the statement's error list, as [addStmtError] gets it. *)
Record ODBCError := {
  sqlState : cstring;
  errMsg : option cstring;
  nativeErr : Z;
}.

Record ODBCStmt := {
  isValidStmt : bool;
  Error : list ODBCError;
  State : StatementState;
  Dbc : ODBCDbc;
  Query : option cstring;
  bindParams : OdbcInArray;
  nrCols : Z;
  nrRows : Z;
  currentRow : Z;
  ResultCols : option (list ColumnHeader);
  ResultRows : option (gmap Z cstring);
}.

(** [ResultRows] is the array of row fields.  The map holds the slots
    [SQLExecute] has assigned; a slot outside it is as the allocation
    left it. *)

Definition set_Error (e : list ODBCError) (h : ODBCStmt) : ODBCStmt :=
  {| isValidStmt := isValidStmt h; Error := e; State := State h;
     Dbc := Dbc h; Query := Query h; bindParams := bindParams h;
     nrCols := nrCols h; nrRows := nrRows h; currentRow := currentRow h;
     ResultCols := ResultCols h; ResultRows := ResultRows h |}.

Definition set_State (s : StatementState) (h : ODBCStmt) : ODBCStmt :=
  {| isValidStmt := isValidStmt h; Error := Error h; State := s;
     Dbc := Dbc h; Query := Query h; bindParams := bindParams h;
     nrCols := nrCols h; nrRows := nrRows h; currentRow := currentRow h;
     ResultCols := ResultCols h; ResultRows := ResultRows h |}.

Definition set_Mrs (rs : stream) (h : ODBCStmt) : ODBCStmt :=
  {| isValidStmt := isValidStmt h; Error := Error h; State := State h;
     Dbc := {| Mrs := rs; Mws := Mws (Dbc h) |};
     Query := Query h; bindParams := bindParams h;
     nrCols := nrCols h; nrRows := nrRows h; currentRow := currentRow h;
     ResultCols := ResultCols h; ResultRows := ResultRows h |}.

Definition set_Mws (ws : wstream) (h : ODBCStmt) : ODBCStmt :=
  {| isValidStmt := isValidStmt h; Error := Error h; State := State h;
     Dbc := {| Mrs := Mrs (Dbc h); Mws := ws |};
     Query := Query h; bindParams := bindParams h;
     nrCols := nrCols h; nrRows := nrRows h; currentRow := currentRow h;
     ResultCols := ResultCols h; ResultRows := ResultRows h |}.

Definition set_nrCols (n : Z) (h : ODBCStmt) : ODBCStmt :=
  {| isValidStmt := isValidStmt h; Error := Error h; State := State h;
     Dbc := Dbc h; Query := Query h; bindParams := bindParams h;
     nrCols := n; nrRows := nrRows h; currentRow := currentRow h;
     ResultCols := ResultCols h; ResultRows := ResultRows h |}.

Definition set_nrRows (n : Z) (h : ODBCStmt) : ODBCStmt :=
  {| isValidStmt := isValidStmt h; Error := Error h; State := State h;
     Dbc := Dbc h; Query := Query h; bindParams := bindParams h;
     nrCols := nrCols h; nrRows := n; currentRow := currentRow h;
     ResultCols := ResultCols h; ResultRows := ResultRows h |}.

Definition set_currentRow (n : Z) (h : ODBCStmt) : ODBCStmt :=
  {| isValidStmt := isValidStmt h; Error := Error h; State := State h;
     Dbc := Dbc h; Query := Query h; bindParams := bindParams h;
     nrCols := nrCols h; nrRows := nrRows h; currentRow := n;
     ResultCols := ResultCols h; ResultRows := ResultRows h |}.

Definition set_ResultCols (c : option (list ColumnHeader)) (h : ODBCStmt)
  : ODBCStmt :=
  {| isValidStmt := isValidStmt h; Error := Error h; State := State h;
     Dbc := Dbc h; Query := Query h; bindParams := bindParams h;
     nrCols := nrCols h; nrRows := nrRows h; currentRow := currentRow h;
     ResultCols := c; ResultRows := ResultRows h |}.

Definition set_ResultRows (r : option (gmap Z cstring)) (h : ODBCStmt)
  : ODBCStmt :=
  {| isValidStmt := isValidStmt h; Error := Error h; State := State h;
     Dbc := Dbc h; Query := Query h; bindParams := bindParams h;
     nrCols := nrCols h; nrRows := nrRows h; currentRow := currentRow h;
     ResultCols := ResultCols h; ResultRows := r |}.

(** Modelled from the spec: the statement's errors ("a structured error
    value carrying a kind tag plus contextual detail").  [clearStmtErrors]
    and [addStmtError] of [ODBCStmt.c] empty the list and append to it;
    [isValidStmt] is the member of that name. *)
Definition clearStmtErrors (h : ODBCStmt) : ODBCStmt := set_Error [] h.

Definition addStmtError (h : ODBCStmt) (state : cstring)
    (msg : option cstring) (native : Z) : ODBCStmt :=
  set_Error (Error h ++ [{| sqlState := state; errMsg := msg;
                            nativeErr := native |}]) h.

(** ** [convert]

    [res] is the block [malloc] returns: [len] bytes, none of them
    initialised ([None]).  [poke] is an assignment [res[i] = c]; outside
    the block it has no defined effect. *)
Definition poke (res : list (option ascii)) (i : nat) (c : ascii)
  : option (list (option ascii)) :=
  if bool_decide (i < length res)%nat then Some (<[i := Some c]> res)
  else None.

(** The first loop: [for (len = 1, i = 0; str[i]; i++, len++)]. *)
Fixpoint convert_len (str : cstring) (len : nat) : nat :=
  match str with
  | [] => len
  | c :: str' =>
      convert_len str' (S (if Ascii.eqb c QUOTE then S len else len))
  end.

(** The second loop: [for (len = 0, i = 0; str[i]; i++)]. *)
Fixpoint convert_fill (str : cstring) (res : list (option ascii))
    (len : nat) : option (list (option ascii) * nat) :=
  match str with
  | [] => Some (res, len)
  | c :: str' =>
      if Ascii.eqb c QUOTE then
        match poke res len BACKSLASH with      (* res[len++] = '\\'; *)
        | None => None
        | Some res1 =>                         (* len++; *)
            match poke res1 (len + 2) c with   (* res[len++] = str[i]; *)
            | None => None
            | Some res2 => convert_fill str' res2 (len + 3)
            end
        end
      else
        match poke res len c with
        | None => None
        | Some res1 => convert_fill str' res1 (S len)
        end
  end.

(** The C string a block holds; undefined where an uninitialised byte, or
    the end of the block, comes before a NUL. *)
Fixpoint block_cstr (res : list (option ascii)) : option cstring :=
  match res with
  | Some c :: res' =>
      if Ascii.eqb c NUL then Some []
      else match block_cstr res' with
           | Some s => Some (c :: s)
           | None => None
           end
  | _ => None
  end.

Definition convert (str : cstring) : option cstring :=
  let len := convert_len str 1 in
  match convert_fill str (replicate len None) 0 with
  | None => None
  | Some (res, len') =>
      match poke res len' NUL with             (* res[len] = '\0'; *)
      | None => None
      | Some res' => block_cstr res'
      end
  end.

(** ** [SQLExecute], lines 132-177: the bound parameters *)

(** [for (i = 1; i <= hstmt->bindParams.size; i++)]: [n] iterations are
    left, [strings] is the [calloc]-ed array of [size] pointers (a slot
    outside the map is NULL). *)
Fixpoint bind_strings (n : nat) (i : nat) (bp : OdbcInArray)
    (strings : gmap nat cstring) (queryLen : nat)
  : option (gmap nat cstring * nat) :=
  match n with
  | O => Some (strings, queryLen)
  | S n' =>
      match array bp !! i with
      | None => None                              (* past the array *)
      | Some None => Some (strings, queryLen)     (* break *)
      | Some (Some v) =>
          match convert v with
          | None => None
          | Some s =>
              if bool_decide (i < size bp)%nat then
                bind_strings n' (S i) bp (<[i := s]> strings)
                             (queryLen + (2 + strlen s))
              else None                 (* strings[size] is past the block *)
          end
      end
  end.

(** [i += snprintf (Query + i, queryLen - i, ...)] where the text to
    print is [t] and [Query] holds [i] characters.  When [t] and its NUL
    do not fit, [snprintf] cuts the text but returns its whole length,
    and the assignment [Query[i] = '\0'] that follows lies outside the
    block. *)
Definition snprintf_at (queryLen : nat) (Query : cstring) (t : cstring)
  : option cstring :=
  if bool_decide (length Query + length t < queryLen)%nat
  then Some (Query ++ t) else None.

(** [while (query && *query)], lines 151-169.  [query] is the rest of
    the template, [Query] the text printed so far, [params] the number
    of the next marker. *)
Equations? substitute (bp : OdbcInArray) (strings : gmap nat cstring)
    (queryLen : nat) (query : cstring) (Query : cstring) (params : nat)
  : option cstring by wf (length query) lt :=
  substitute bp strings queryLen [] Query params := Some Query;
  substitute bp strings queryLen (c :: q) Query params
    with inspect (scan_for (is_char QMARK) (c :: q)) := {
    | exist _ None _ =>
        (* strchr gives NULL: old is the whole rest, the loop ends *)
        snprintf_at queryLen Query (c :: q)
    | exist _ (Some (old, rest)) _ with array bp !! params := {
      | None => None                              (* past the array *)
      | Some None => Some Query                   (* break *)
      | Some (Some _) with strings !! params := {
        | None => None                            (* "%s" of NULL *)
        | Some sp with snprintf_at queryLen Query
                         (old ++ QUOTE :: sp ++ [QUOTE]) := {
          | None => None
          | Some Query1 with rest := {
            | [] => Some Query1
            | r :: rest' with snprintf_at queryLen Query1 (r :: rest') := {
              | None => None
              | Some Query2 =>
                  substitute bp strings queryLen (r :: rest') Query2
                             (S params)
              }
            }
          }
        }
      }
    }.
Proof.
  clear - e. revert e.
  generalize (is_char QMARK) (c :: q) (r :: rest'). clear.
  intros p l; revert old; induction l as [|x l IH]; intros old k e.
  - discriminate.
  - simpl in e. destruct (p x).
    + inversion e; subst. simpl. lia.
    + destruct (scan_for p l) as [[f r]|] eqn:E; [|discriminate].
      inversion e; subst. specialize (IH _ _ eq_refl). simpl in *. lia.
Qed.

(** Lines 130-177: the text that is sent. *)
Definition build_query (bp : OdbcInArray) (q : cstring) : option cstring :=
  if bool_decide (size bp = 0%nat) then Some q
  else
    match bind_strings (size bp) 1 bp ∅ (strlen q + 1) with
    | None => None
    | Some (strings, queryLen) => substitute bp strings queryLen q [] 1
    end.

(** ** [next_result] *)

(** Lines 62-66: [bs_read_next] once, then [while (!last)]. *)
Equations? skip_blocks (rs : stream) (last : bool) : stream
  by wf (length rs + (if last then 0 else 1))%nat lt :=
  skip_blocks rs true := rs;
  skip_blocks rs false with inspect (bs_read_next rs) := {
    | exist _ (last', rs') _ => skip_blocks rs' last'
    }.
Proof.
  destruct rs as [|[z|b l|b] rs0]; simpl in e; inversion e; subst;
    try destruct last'; simpl; lia.
Qed.

(** The result is the returned [int], [*type], the statement and the
    stream.  [status] has no initial value: where the second
    [stream_readInt] fails and [status] is read all the same, there is no
    defined result. *)
Definition next_result `{Protocol} (rs : stream) (hstmt : ODBCStmt)
    (type : Z) : option (Z * Z * ODBCStmt * stream) :=
  match stream_readInt rs with
  | (None, rs1) =>
      Some (SQL_ERROR, type, addStmtError hstmt "08S01" None 0, rs1)
  | (Some type, rs1) =>
      if bool_decide (type = Q_END) then
        Some (SQL_ERROR, type, addStmtError hstmt "08S01" None 0, rs1)
      else
        let '(status, rs2) := stream_readInt rs1 in
        let drain :=
          let '(last, rs3) := bs_read_next rs2 in
          Some (SQL_ERROR, type,
                addStmtError hstmt "HY000"
                  (Some (str "No result available (status < 0)")) 0,
                skip_blocks rs3 last) in
        if bool_decide (type < 0) then drain
        else match status with
             | None => None
             | Some status =>
                 if bool_decide (status < 0) then drain
                 else Some (status, type, hstmt, rs2)
             end
  end.

(** ** [sql_types] *)

Definition sql_types : list (cstring * Z) :=
  [ (str "bit", SQL_C_BIT);
    (str "uchr", SQL_C_UTINYINT);
    (str "char", SQL_C_CHAR);
    (str "sht", SQL_C_SSHORT);
    (str "int", SQL_C_SLONG);
    (str "lng", SQL_C_SBIGINT);
    (str "flt", SQL_C_FLOAT);
    (str "dbl", SQL_C_DOUBLE);
    (str "date", SQL_C_TYPE_DATE);
    (str "time", SQL_C_TYPE_TIME);
    (str "timestamp", SQL_C_TYPE_TIMESTAMP) ].

(** Lines 261-266: [for (p = sql_types; p->name; p++)], from [p] on. *)
Fixpoint find_sql_type (p : list (cstring * Z)) (type : cstring)
  : option Z :=
  match p with
  | [] => None
  | (name, t) :: p' =>
      if strcmp_eq name type then Some t else find_sql_type p' type
  end.

(** ** [SQLExecute], lines 195-286: the header *)

(** Lines 261-278: the assignments to [*pCol]. *)
Definition fill_column (c : ColumnHeader) (name type : cstring)
  : ColumnHeader :=
  {| nSQL_DESC_TYPE :=
       match find_sql_type sql_types type with
       | Some t => t
       | None => nSQL_DESC_TYPE c
       end;
     pszSQL_DESC_BASE_COLUMN_NAME := Some name;
     pszSQL_DESC_BASE_TABLE_NAME := Some (str "tablename");
     pszSQL_DESC_TYPE_NAME := Some type;
     pszSQL_DESC_LOCAL_TYPE_NAME := Some (str "Mtype");
     pszSQL_DESC_LABEL := Some name;
     pszSQL_DESC_CATALOG_NAME := Some (str "catalog");
     pszSQL_DESC_LITERAL_PREFIX := Some (str "pre");
     pszSQL_DESC_LITERAL_SUFFIX := Some (str "suf");
     pszSQL_DESC_NAME := Some name;
     pszSQL_DESC_SCHEMA_NAME := Some (str "schema");
     pszSQL_DESC_TABLE_NAME := Some (str "table");
     nSQL_DESC_DISPLAY_SIZE := Z.of_nat (strlen name) + 2 |}.

(** [pCol] is an index into [hstmt->ResultCols]; an assignment through
    it past the end of the array has no defined effect. *)
Definition store_column (cols : list ColumnHeader) (pCol : nat)
    (name type : cstring) : option (list ColumnHeader) :=
  match cols !! pCol with
  | None => None
  | Some c => Some (<[pCol := fill_column c name type]> cols)
  end.

(** Payload bytes the stream still holds. *)
Fixpoint wire_bytes (rs : stream) : nat :=
  match rs with
  | [] => 0
  | WData b :: rs' => length b + wire_bytes rs'
  | _ :: rs' => wire_bytes rs'
  end.

Ltac scan_shorter_proof :=
  let p := fresh "p" in
  let l := fresh "l" in
  let IH := fresh "IH" in
  let f := fresh "f" in
  let r := fresh "r" in
  let E := fresh "E" in
  intros p l; induction l as [|? l IH]; intros f r E;
  [ discriminate
  | simpl in E;
    match type of E with
    | (if ?b then _ else _) = _ => destruct b
    end;
    [ inversion E; subst; simpl; lia
    | match type of E with
      | match ?s with _ => _ end = _ =>
          destruct s as [[? ?]|]; [|discriminate]
      end;
      inversion E; subst;
      specialize (IH _ _ eq_refl); simpl in *; lia ] ].

Ltac scan_shorter H :=
  match type of H with
  | scan_for ?p ?l = Some (?f, ?r) =>
      let F := fresh "Hshort" in
      assert (F : forall p0 l0 f0 r0,
                 scan_for p0 l0 = Some (f0, r0) ->
                 (length r0 < length l0)%nat) by scan_shorter_proof;
      apply F in H
  end.

Ltac refill_bytes H :=
  match type of H with
  | bstream_refill ?u ?rs = (?e, ?w, ?rs') =>
      let F := fresh "Hfill" in
      assert (F : (2 * wire_bytes rs' + length w + (if e then 0 else 1)
                   < 2 * wire_bytes rs + length u + 1)%nat);
      [ clear - H; unfold bstream_refill, stream_read in H;
        destruct rs as [|[?|? ?|?b] ?]; simpl in H;
        try (inversion H; subst; simpl; rewrite ?length_app; simpl; lia);
        case_bool_decide; inversion H; subst; simpl;
        rewrite ?length_app, ?length_take, ?length_drop;
        repeat case_bool_decide; simpl in *; lia
      | ]
  end.

(** [while (sc < ec)], lines 216-280.  [pre], [win] and [post] are the
    buffer; [win] is the window from [sc] to [ec].  At the scan for the
    newline [eof] is known to be 0 (the branch [else if (eof)] before it
    has left the loop otherwise), so of
    [if (sc >= ec && !eof) ... else if (eof)] the test on [sc] remains.

    [name = strdup (s)] and, where no refill lies between [s = sc] and
    it, [type = strdup (s)] read the field [s] points to, which
    [*sc = 0] has just ended: its bytes up to the first NUL.  The refill
    at lines 242-245 sets [sc] and [ec] anew and leaves [s] as it is:
    [type = strdup (s)] then reads the refilled buffer at the offset
    [s] had in the buffer before the refill. *)
Equations? header_loop `{Protocol} (pre win post : list ascii) (eof : bool)
    (rs : stream) (pCol : nat) (cols : list ColumnHeader)
  : option (list ColumnHeader * stream)
  by wf (2 * wire_bytes rs + length win + (if eof then 0 else 1))%nat lt :=
  header_loop pre [] post eof rs pCol cols := Some (cols, rs);
  header_loop pre (c :: w) post eof rs pCol cols
    with inspect (scan_for (is_char COMMA) (c :: w)) := {
    | exist _ None _ with eof := {
      | false with inspect (bstream_refill (c :: w) rs) := {
        | exist _ (eof', win', rs') _ =>
            header_loop [] win' (refill_post (pre ++ (c :: w) ++ post) win')
                        eof' rs' pCol cols             (* continue *)
        }
      | true => Some (cols, rs)                        (* break *)
      }
    | exist _ (Some (name, win1)) _ with eof := {
      | true => Some (cols, rs)                        (* break *)
      | false with inspect (scan_for (is_char NL) win1) := {
        | exist _ (Some (type, win3)) _
            with store_column cols pCol (cstr name) (cstr type) := {
          | None => None
          | Some cols' =>
              header_loop (pre ++ name ++ NUL :: type ++ [NUL]) win3 post
                          false rs (S pCol) cols'
          }
        | exist _ None _ with inspect (bstream_refill win1 rs) := {
          | exist _ (eof', win2, rs') _
              with inspect (scan_for (is_char NL) win2) := {
            | exist _ None _ => Some (cols, rs')       (* break *)
            | exist _ (Some (type, win3)) _
                with store_column cols pCol (cstr name)
                       (strdup_at
                          (type ++ NUL :: win3
                             ++ refill_post
                                  ((pre ++ name ++ [NUL]) ++ win1 ++ post)
                                  win2)
                          (length (pre ++ name ++ [NUL]))) := {
              | None => None
              | Some cols' =>
                  header_loop (type ++ [NUL]) win3
                    (refill_post ((pre ++ name ++ [NUL]) ++ win1 ++ post)
                                 win2)
                    eof' rs' (S pCol) cols'
              }
            }
          }
        }
      }
    }.
Proof.
  all: repeat match goal with
       | E : scan_for _ _ = Some _ |- _ => scan_shorter E
       | E : bstream_refill _ _ = _ |- _ => refill_bytes E; clear E
       end.
  all: simpl in *; lia.
Qed.

(** ** [SQLExecute], lines 287-340: the rows *)

Definition is_delim (c : ascii) : bool := Ascii.eqb c TAB || Ascii.eqb c NL.

(** Lines 327-334, for one quote character [q], where [s] points to the
    first byte of the field: the field is the bytes [f] from [s] up to
    [sc], where a NUL has just been written.
    [[
      if ( *s == q && *(sc - 1) == q) { s++; *(sc - 1) = '\0'; }
    ]]
    The result is the bytes from the new [s] up to [sc]. *)
Definition unquote (q : ascii) (f : list ascii) : list ascii :=
  match f with
  | [] => []
  | c :: f' =>
      if Ascii.eqb c q && bool_decide (last f = Some q) then
        match f' with
        | [] => []
        | _ :: _ => removelast f' ++ [NUL]
        end
      else f
  end.

(** [strdup (s)] after both tests, where [s] pointed to the first byte
    of the field [f]: what [store_field] below stores for a field that
    no refill has moved. *)
Definition field_text (f : list ascii) : cstring :=
  cstr (unquote QUOTE (unquote DQUOTE f)).

(** What the row loops work on: the buffer in its three pieces, with the
    window [r_win] from [sc] to [ec]; [eof], the stream under [bs], and
    [hstmt->ResultRows]. *)
Record row_state := {
  r_pre : list ascii;
  r_win : list ascii;
  r_post : list ascii;
  r_eof : bool;
  r_rs : stream;
  r_rows : gmap Z cstring;
}.

(** Lines 327-330 and 331-334 on the buffer [buf], for one quote
    character [q], with the pointers [s] and [sc] as offsets:
    [[
      if ( *s == q && *(sc - 1) == q) { s++; *(sc - 1) = '\0'; }
    ]]
    The result is the buffer and [s].  A byte that has not been written
    and the byte before the buffer are not read with a defined
    result. *)
Definition unquote_at (q : ascii) (buf : list ascii) (s sc : nat)
  : option (list ascii * nat) :=
  match buf !! s with
  | None => None
  | Some c =>
      if Ascii.eqb c q then
        match sc with
        | O => None
        | S p =>
            match buf !! p with
            | None => None
            | Some c' =>
                if Ascii.eqb c' q then Some (<[p := NUL]> buf, S s)
                else Some (buf, s)
            end
        end
      else Some (buf, s)
  end.

(** Lines 326-336.  [sc] has stopped behind the bytes [f] of the window,
    with [pre] before them and [rest] behind the delimiter; [s] is the
    offset [s] holds.  [*sc = '\0'], the two tests, then
    [ResultRows[slot] = strdup (s)], and [sc] steps over the delimiter,
    to [rest].  The writes lie before [rest]. *)
Definition store_field (slot : Z) (s : nat) (pre f rest post : list ascii)
    (eof : bool) (rs : stream) (rows : gmap Z cstring)
  : option row_state :=
  let sc := length (pre ++ f) in
  let buf := pre ++ f ++ NUL :: rest ++ post in
  match unquote_at DQUOTE buf s sc with
  | None => None
  | Some (buf, s) =>
      match unquote_at QUOTE buf s sc with
      | None => None
      | Some (buf, s) =>
          Some {| r_pre := take (S sc) buf; r_win := rest; r_post := post;
                  r_eof := eof; r_rs := rs;
                  r_rows := <[slot := strdup_at buf s]> rows |}
      end
  end.

(** Lines 307-336, the body of the inner loop.  [inl]: the loop goes
    on; [inr]: [return SQL_ERROR]; [None]: no defined result.  [s] is
    set at line 307 and not again: after the refill of lines 312-315 it
    is the offset the field had in the buffer before the refill.  Where
    [eof] is set and no delimiter is in the window the field is all
    that is left, and [sc] steps past [ec]. *)
Definition row_field `{Protocol} (slot : Z) (st : row_state)
  : option (row_state + row_state) :=
  let s := length (r_pre st) in
  match scan_for is_delim (r_win st) with
  | Some (f, rest) =>
      inl <$> store_field slot s (r_pre st) f rest (r_post st)
                          (r_eof st) (r_rs st) (r_rows st)
  | None =>
      if negb (r_eof st) then
        let '(eof, win, rs) := bstream_refill (r_win st) (r_rs st) in
        let post := refill_post (r_pre st ++ r_win st ++ r_post st) win in
        match scan_for is_delim win with
        | None =>
            Some (inr {| r_pre := win; r_win := []; r_post := post;
                         r_eof := eof; r_rs := rs; r_rows := r_rows st |})
        | Some (f, rest) =>
            inl <$> store_field slot s [] f rest post eof rs (r_rows st)
        end
      else
        inl <$> store_field slot s (r_pre st) (r_win st) []
                            (tail (r_post st)) (r_eof st) (r_rs st)
                            (r_rows st)
  end.

(** [for (nCol = 1; nCol <= nCols && !eof; nCol++)], with [k]
    iterations left before [nCol] exceeds [nCols]. *)
Fixpoint cols_loop `{Protocol} (k : nat) (nRow nCol nCols : Z)
    (st : row_state) : option (row_state + row_state) :=
  match k with
  | O => Some (inl st)
  | S k' =>
      if r_eof st then Some (inl st)
      else match row_field (nRow * nCols + nCol) st with
           | None => None
           | Some (inr st') => Some (inr st')
           | Some (inl st') => cols_loop k' nRow (nCol + 1) nCols st'
           end
  end.

(** [for (nRow = 1; nRow <= nRows && !eof; nRow++)]. *)
Fixpoint rows_loop `{Protocol} (k : nat) (nRow nCols : Z)
    (st : row_state) : option (row_state + row_state) :=
  match k with
  | O => Some (inl st)
  | S k' =>
      if r_eof st then Some (inl st)
      else match cols_loop (Z.to_nat nCols) nRow 1 nCols st with
           | None => None
           | Some (inr st') => Some (inr st')
           | Some (inl st') => rows_loop k' (nRow + 1) nCols st'
           end
  end.

(** ** [SQLExecute] *)

(** Lines 197-281, from [bstream_create] to [bstream_destroy]: the
    header payload is decoded into the zeroed array of [nCols + 1]
    column headers, from [pCol = hstmt->ResultCols + 1] on. *)
Definition read_header `{Protocol} (nCols : Z) (rs : stream)
  : option (list ColumnHeader * stream) :=
  let cols := replicate (Z.to_nat (nCols + 1)) zero_ColumnHeader in
  let '(eof, win, rs) := bstream_refill [] rs in
  header_loop [] win (refill_post [] win) eof rs 1 cols.

(** Lines 289-340: the row payload.  [inr]: [return SQL_ERROR]. *)
Definition read_rows `{Protocol} (nRows nCols : Z) (rs : stream)
  : option (row_state + row_state) :=
  let '(eof, win, rs) := bstream_refill [] rs in
  rows_loop (Z.to_nat nRows) 1 nCols
            {| r_pre := []; r_win := win; r_post := refill_post [] win;
               r_eof := eof; r_rs := rs; r_rows := ∅ |}.

(** Lines 195-286.  [inl]: execution goes on with [status], [type],
    [nCols]; [inr]: [SQLExecute] returns. *)
Definition result_header `{Protocol} (hstmt : ODBCStmt) (rs : stream)
    (status type : Z)
  : option ((Z * Z * Z * ODBCStmt * stream) + (SQLRETURN * ODBCStmt)) :=
  if bool_decide (type = Q_RESULT) && bool_decide (status > 0) then
    let '(_, rs) := stream_readInt rs in              (* id *)
    let nCols := status in
    let hstmt := set_nrCols nCols hstmt in
    match read_header nCols rs with
    | None => None
    | Some (cols, rs) =>
        let hstmt := set_ResultCols (Some cols) hstmt in
        match next_result rs hstmt type with
        | None => None
        | Some (status, type, hstmt, rs) =>
            if bool_decide (status = SQL_ERROR)
            then Some (inr (status, set_Mrs rs hstmt))
            else Some (inl (status, type, nCols, hstmt, rs))
        end
    end
  else Some (inl (status, type, 0, hstmt, rs)).

(** Lines 287-347. *)
Definition result_rows `{Protocol} (hstmt : ODBCStmt) (rs : stream)
    (status type nCols : Z) : option (SQLRETURN * ODBCStmt) :=
  if bool_decide (type = Q_TABLE) && bool_decide (status > 0) then
    let nRows := status in
    let hstmt := set_nrRows nRows hstmt in
    match read_rows nRows nCols rs with
    | None => None
    | Some (inr st) =>
        Some (SQL_ERROR,
              set_Mrs (r_rs st) (set_ResultRows (Some (r_rows st)) hstmt))
    | Some (inl st) =>
        Some (SQL_SUCCESS,
              set_State EXECUTED
                (set_Mrs (r_rs st)
                   (set_ResultRows (Some (r_rows st)) hstmt)))
    end
  else
    let hstmt :=
      if bool_decide (Q_UPDATE = 0) then hstmt     (* else if (Q_UPDATE) *)
      else set_ResultRows None (set_nrRows 0 hstmt) in
    Some (SQL_SUCCESS, set_State EXECUTED (set_Mrs rs hstmt)).

Definition SQLExecute `{Protocol} (hstmt : ODBCStmt)
  : option (SQLRETURN * ODBCStmt) :=
  if negb (isValidStmt hstmt) then Some (SQL_INVALID_HANDLE, hstmt)
  else
    let hstmt := clearStmtErrors hstmt in
    if negb (bool_decide (State hstmt = PREPARED)) then
      Some (SQL_ERROR, addStmtError hstmt "24000" None 0)
    else
      match Query hstmt, ResultCols hstmt, ResultRows hstmt with
      | Some q, None, None =>
          match build_query (bindParams hstmt) q with
          | None => None
          | Some query =>
              let ws := stream_write (Mws (Dbc hstmt)) query in
              let ws := stream_write ws [";"%char; NL] in
              let ws := stream_flush ws in
              let hstmt := set_Mws ws hstmt in
              let hstmt :=
                set_currentRow 0 (set_nrRows 0 (set_nrCols 0 hstmt)) in
              match next_result (Mrs (Dbc hstmt)) hstmt 0 with
              | None => None
              | Some (status, type, hstmt, rs) =>
                  if bool_decide (status = SQL_ERROR)
                  then Some (status, set_Mrs rs hstmt)
                  else
                    match result_header hstmt rs status type with
                    | None => None
                    | Some (inr ret) => Some ret
                    | Some (inl (status, type, nCols, hstmt, rs)) =>
                        result_rows hstmt rs status type nCols
                    end
              end
          end
      | _, _, _ => None                              (* assert *)
      end.

(** ** Notions the statements below use *)

(** An error payload on the wire: blocks without the terminal marker,
    then the block that carries it. *)
Definition error_payload (blocks : list (list ascii)) (final : list ascii)
  : stream :=
  map (fun b => WBlock b false) blocks ++ [WBlock final true].

(** The payload bytes at the head of the stream: what reads deliver
    before the end of stream (or the next frame) is met. *)
Fixpoint stream_payload (rs : stream) : list ascii :=
  match rs with
  | WData b :: rs' => b ++ stream_payload rs'
  | _ => []
  end.

(** A statement that [SQLExecute] runs on: the handle is valid, the
    query is prepared, and the asserts of lines 121-123 hold. *)
Definition ready (hstmt : ODBCStmt) (q : cstring) : Prop :=
  isValidStmt hstmt = true /\ State hstmt = PREPARED /\
  Query hstmt = Some q /\ ResultCols hstmt = None /\
  ResultRows hstmt = None.

(** The tags of a header frame and of a table frame are read as such by
    [next_result]: they are not Q_END and not negative. *)
Definition frame_tags_ok `{Protocol} : Prop :=
  Q_RESULT <> Q_END /\ 0 <= Q_RESULT /\ Q_TABLE <> Q_END /\ 0 <= Q_TABLE.

(** The reply to a query: a header frame of [nCols] columns with the
    payload at the head of [rs_h]; what follows the header payload is a
    table frame of [nRows] rows with the stream [rs] behind it. *)
Definition header_then_table `{Protocol} (mrs : stream) (nCols nRows : Z)
    (rs : stream) : Prop :=
  exists id rs_h cols,
    mrs = WInt Q_RESULT :: WInt nCols :: WInt id :: rs_h /\
    read_header nCols rs_h = Some (cols, WInt Q_TABLE :: WInt nRows :: rs).

(** The first read of a payload delivers nothing:
    [eof = (bstream_read (...) == 0)] sets [eof]. *)
Definition at_end_of_stream `{Protocol} (rs : stream) : bool :=
  (bstream_refill [] rs).1.1.

(** Field terminators among some bytes. *)
Definition count_delims (l : list ascii) : nat := length (filter is_delim l).

(** The slots of the grid: [nRow * nCols + nCol] for a row and a column
    counted from 1. *)
Definition grid_slot (nRows nCols : Z) (i : Z) : Prop :=
  exists nRow nCol,
    1 <= nRow <= nRows /\ 1 <= nCol <= nCols /\ i = nRow * nCols + nCol.

(** Field terminators still to come: in the window and behind it. *)
Definition delims_left (st : row_state) : nat :=
  count_delims (r_win st ++ stream_payload (r_rs st)).



(** Values for the constants of the headers and a prepared statement,
    for the worked executions. *)
Definition example_protocol : Protocol :=
  {| BLOCK := 8 * 1024 - 2; Q_END := 0; Q_RESULT := 1; Q_TABLE := 2; Q_UPDATE := 3 |}.

Definition example_stmt (state : StatementState) (q : cstring)
    (bp : OdbcInArray) (rs : stream) : ODBCStmt :=
  {| isValidStmt := true; Error := []; State := state;
     Dbc := {| Mrs := rs; Mws := [] |};
     Query := Some q; bindParams := bp;
     nrCols := 0; nrRows := 0; currentRow := 0;
     ResultCols := None; ResultRows := None |}.

Definition no_params : OdbcInArray := {| array := []; size := 0 |}.

Definition header_payload : cstring := "id,int" ++ NL :: "name,char" ++ [NL].

(** The column header [SQLExecute] makes of a name and a type, with the
    tag and the display size given. *)
Definition column (name type : cstring) (tag width : Z) : ColumnHeader :=
  {| nSQL_DESC_TYPE := tag;
     pszSQL_DESC_BASE_COLUMN_NAME := Some name;
     pszSQL_DESC_BASE_TABLE_NAME := Some (str "tablename");
     pszSQL_DESC_TYPE_NAME := Some type;
     pszSQL_DESC_LOCAL_TYPE_NAME := Some (str "Mtype");
     pszSQL_DESC_LABEL := Some name;
     pszSQL_DESC_CATALOG_NAME := Some (str "catalog");
     pszSQL_DESC_LITERAL_PREFIX := Some (str "pre");
     pszSQL_DESC_LITERAL_SUFFIX := Some (str "suf");
     pszSQL_DESC_NAME := Some name;
     pszSQL_DESC_SCHEMA_NAME := Some (str "schema");
     pszSQL_DESC_TABLE_NAME := Some (str "table");
     nSQL_DESC_DISPLAY_SIZE := width |}.

Definition rows_payload : cstring :=
  "1" ++ TAB :: "Alice" ++ NL :: "2" ++ TAB :: DQUOTE :: "Bob, Jr"
      ++ [DQUOTE; NL].

(** Markers of a template, and parameters bound in the array. *)
Definition count_markers (q : cstring) : nat :=
  length (filter (is_char QMARK) q).

Definition count_bound (bp : OdbcInArray) : nat :=
  length (filter (fun p : option cstring => is_Some p) (array bp)).

(** The errors [next_result] records. *)
Definition frame_error (e : ODBCError) : Prop :=
  sqlState e = str "08S01" \/ sqlState e = str "HY000".

Definition error_24000 : ODBCError :=
  {| sqlState := str "24000"; errMsg := None; nativeErr := 0 |}.

(** Tactics: rewrite with the equations of a branch of the header
    loop; evaluate an assignment to a column. *)
Ltac rewrite_branch :=
  repeat match goal with
    | E : scan_for _ _ = _ |- _ => progress rewrite E
    | E : bstream_refill _ _ = _ |- _ => progress rewrite E
    | E : store_column _ _ _ _ = _ |- _ => progress rewrite E
    end.

Ltac eval_store :=
  match goal with
  | |- context [store_column ?cols ?pCol ?name ?type] =>
      let v := eval vm_compute in (store_column cols pCol name type) in
      change (store_column cols pCol name type) with v
  end;
  cbv beta iota.

(** ** Further notions

    Quote characters of a bound value. *)
Definition count_quotes (s : cstring) : nat :=
  length (filter (is_char QUOTE) s).

(** Closes a decidable goal by evaluation. *)
Ltac by_compute := apply (bool_decide_unpack _); vm_compute; exact I.

(** The parameter array holds the values [vs] in its slots 1, 2, ...,
    the slot behind them is NULL, and they are fewer than [size]. *)
Definition binds (bp : OdbcInArray) (vs : list cstring) : Prop :=
  (exists a0 rest, array bp = a0 :: map Some vs ++ None :: rest) /\
  (length vs < size bp)%nat.

(** A value [convert] copies: a C string without a quote. *)
Definition plain (v : cstring) : Prop := (NUL ∉ v) /\ (QUOTE ∉ v).

(** What the first loop adds to [queryLen] for the values [vs]. *)
Definition params_len (vs : list cstring) : nat :=
  foldr (fun v n => (2 + strlen v + n)%nat) 0%nat vs.


(** A parameter array with the value [v] bound at marker 1, and one with
    [v] and [w] bound. *)
Definition one_param (v : cstring) : OdbcInArray :=
  {| array := [None; Some v; None]; size := 2 |}.

Definition two_params (v w : cstring) : OdbcInArray :=
  {| array := [None; Some v; Some w; None]; size := 3 |}.

Ltac len_lia :=
  unfold params_len in *; cbn [foldr] in *; unfold strlen in *;
  repeat (rewrite ?length_app; cbn [length]); lia.

(** One record of a header payload, [name,type\n], and a payload of
    records. *)
Definition header_record (r : cstring * cstring) : list ascii :=
  r.1 ++ COMMA :: r.2 ++ [NL].

Definition encode_header (recs : list (cstring * cstring)) : list ascii :=
  concat (map header_record recs).

(** The name holds no comma and the type no newline. *)
Definition record_ok (r : cstring * cstring) : Prop :=
  (COMMA ∉ r.1) /\ (NL ∉ r.2).

(** The column header the loop makes of a record. *)
Definition column_of (r : cstring * cstring) : ColumnHeader :=
  fill_column zero_ColumnHeader (cstr r.1) (cstr r.2).

(** The bytes a record leaves in the buffer once it is decoded: the
    comma and the newline are overwritten by NUL. *)
Definition record_written (r : cstring * cstring) : list ascii :=
  r.1 ++ NUL :: r.2 ++ [NUL].

Definition header_written (recs : list (cstring * cstring)) : list ascii :=
  concat (map record_written recs).

(** The assignments of the loop for the records [recs], from [pCol]
    on. *)
Fixpoint store_columns (cols : list ColumnHeader) (pCol : nat)
    (recs : list (cstring * cstring)) : option (list ColumnHeader) :=
  match recs with
  | [] => Some cols
  | r :: recs' =>
      match store_column cols pCol (cstr r.1) (cstr r.2) with
      | None => None
      | Some cols' => store_columns cols' (S pCol) recs'
      end
  end.

(** One record cut in two inside its name: the first piece is not empty
    and the second holds the rest of the name, the comma, the type and
    the newline. *)
Definition cut_name (r : cstring * cstring) (p1 p2 : list ascii) : Prop :=
  exists n2, p1 <> [] /\ r.1 = p1 ++ n2 /\ p2 = n2 ++ COMMA :: r.2 ++ [NL].

(** A field of a row payload with the delimiter that ends it, and a
    payload of fields. *)
Definition row_field_bytes (fd : list ascii * ascii) : list ascii :=
  fd.1 ++ [fd.2].

Definition encode_rows (fs : list (list ascii * ascii)) : list ascii :=
  concat (map row_field_bytes fs).

(** The field holds no tab and no newline, and is ended by one. *)
Definition field_ok (fd : list ascii * ascii) : Prop :=
  filter is_delim fd.1 = [] /\ is_delim fd.2 = true.

(** The assignments of the row loops for the fields [fs], from [slot]
    on. *)
Fixpoint store_fields (slot : Z) (fs : list (list ascii * ascii))
    (rows : gmap Z cstring) : gmap Z cstring :=
  match fs with
  | [] => rows
  | fd :: fs' => store_fields (slot + 1) fs' (<[slot := field_text fd.1]> rows)
  end.

(** What no step of [SQLExecute] assigns: the handle's validity, the
    query, the parameters. *)
Definition same_query (h h' : ODBCStmt) : Prop :=
  isValidStmt h' = isValidStmt h /\ Query h' = Query h /\
  bindParams h' = bindParams h.

(** * The profiler client: [clients/src/mapiclient/stethoscope.c]

    The counter table with [setCounter], the filter arguments as
    [doProfile] reads them (lines 341-365), and what [main] hands to
    [doProfile] once [getopt_long] is done (lines 479-523).  [optind] and
    the argument vector as [getopt_long] leaves them are inputs; the
    queries are those [doQ] issues as long as none of them fails. *)
Module Stethoscope.

Definition DOT : ascii := "."%char.
Definition PLUS : ascii := "+"%char.

(** An element of [profileCounter].  [ptag] and [name] are NULL in the
    element that ends the table. *)
Record counter := {
  tag : ascii;
  ptag : option cstring;
  name : option cstring;
  status : Z;
}.

Definition set_status (k : Z) (c : counter) : counter :=
  {| tag := tag c; ptag := ptag c; name := name c; status := k |}.

Definition entry (t : ascii) (p n : string) (s : Z) : counter :=
  {| tag := t; ptag := Some (str p); name := Some (str n); status := s |}.

Definition profileCounter : list counter :=
  [ entry "a" "aggregate" "total count" 0;
    entry "a" "aggregate" "total ticks" 0;
    entry "e" "event" "event id" 0;
    entry "f" "pc" "function" 0;
    entry "f" "pc" "pc" 0;
    entry "o" "operation" "operation" 0;
    entry "T" "time" "time stamp" 0;
    entry "t" "ticks" "usec ticks" 1;
    entry "c" "cpu" "utime" 0;
    entry "c" "cpu" "cutime" 0;
    entry "c" "cpu" "stime" 0;
    entry "c" "cpu" "cstime" 0;
    entry "m" "memory" "arena" 0;
    entry "m" "memory" "ordblks" 0;
    entry "m" "memory" "smblks" 0;
    entry "m" "memory" "hblkhd" 0;
    entry "m" "memory" "hblks" 0;
    entry "m" "memory" "fsmblks" 0;
    entry "m" "memory" "uordblks" 0;
    entry "r" "reads" "blk reads" 0;
    entry "w" "writes" "blk writes" 0;
    entry "b" "rbytes" "rbytes" 0;
    entry "b" "wbytes" "wbytes" 0;
    entry "s" "stmt" "stmt" 2;
    entry "p" "process" "pg reclaim" 0;
    entry "p" "process" "pg faults" 0;
    entry "p" "process" "swaps" 0;
    entry "p" "process" "ctxt switch" 0;
    entry "p" "process" "inv switch" 0;
    entry "i" "thread" "thread" 0;
    entry "u" "user" "user" 0;
    entry "S" "start" "start" 0;
    entry "y" "type" "type" 0;
    {| tag := NUL; ptag := None; name := None; status := 0 |} ].

(** [for (i = 0; profileCounter[i].tag; i++) profileCounter[i].status = 0;]
    A table without an element of tag 0 lets [i] leave the array. *)
Fixpoint reset_status (t : list counter) : option (list counter) :=
  match t with
  | [] => None
  | c :: t' =>
      if Ascii.eqb (tag c) NUL then Some t
      else cons (set_status 0 c) <$> reset_status t'
  end.

(** The inner loop of the second [for], for the character [*nme]:
    [if (profileCounter[i].tag == *nme) profileCounter[i].status = k++;] *)
Fixpoint mark_tag (ch : ascii) (t : list counter) (k : Z)
  : option (list counter * Z) :=
  match t with
  | [] => None
  | c :: t' =>
      if Ascii.eqb (tag c) NUL then Some (t, k)
      else if Ascii.eqb (tag c) ch then
        (fun r : list counter * Z => (set_status k c :: r.1, r.2))
          <$> mark_tag ch t' (k + 1)
      else
        (fun r : list counter * Z => (c :: r.1, r.2)) <$> mark_tag ch t' k
  end.

(** [for (; *nme; nme++)]. *)
Fixpoint mark_tags (nme : cstring) (t : list counter) (k : Z)
  : option (list counter * Z) :=
  match nme with
  | [] => Some (t, k)
  | ch :: nme' =>
      match mark_tag ch t k with
      | None => None
      | Some (t', k') => mark_tags nme' t' k'
      end
  end.

(** [setCounter], on the table [t]. *)
Definition setCounter (nme : cstring) (t : list counter)
  : option (list counter) :=
  match reset_status t with
  | None => None
  | Some t0 => fst <$> mark_tags nme t0 1
  end.

(** Lines 349-359: the module and the function of a filter argument,
    and the argument as [*c = 0] leaves it. *)
Definition parse_filter (arg : cstring) : cstring * cstring * cstring :=
  match scan_for (is_char DOT) arg with
  | Some (before, after) =>
      let md := if bool_decide (before = []) then str "*" else before in
      let fcn := if bool_decide (after = []) then str "*" else after in
      (md, fcn, before)
  | None => (str "*", arg, arg)
  end.

(** [snprintf (buf, size, ...)] of a text: what [buf] holds. *)
Definition snprintf (size : nat) (text : cstring) : cstring :=
  take (size - 1) text.

(** The format of line 360 with its two arguments. *)
Definition setFilter_text (md fcn : cstring) : cstring :=
  "profiler.setFilter(" ++ DQUOTE :: md ++ DQUOTE :: "," ++ DQUOTE :: fcn
    ++ DQUOTE :: ");".

(** The query of one filter argument. *)
Definition filter_query (BUFSIZ : nat) (arg : cstring) : cstring :=
  let '(md, fcn, _) := parse_filter arg in
  snprintf BUFSIZ (setFilter_text md fcn).

(** Lines 347-363, [for (a = 0; a < wthr->argc; a++)]: the queries and
    the arguments as the loop leaves them.  [argv] is the vector from
    [wthr->argv] on; an index behind its end has no defined result. *)
Fixpoint set_filters (BUFSIZ : nat) (argc : nat) (argv : list cstring)
  : option (list cstring * list cstring) :=
  match argc with
  | O => Some ([], argv)
  | S n =>
      match argv with
      | [] => None
      | arg :: argv' =>
          match set_filters BUFSIZ n argv' with
          | None => None
          | Some (qs, rest) =>
              Some (filter_query BUFSIZ arg :: qs,
                    (parse_filter arg).2 :: rest)
          end
      end
  end.

(** Lines 341-365: the queries from [profiler.setNone] to
    [profiler.start]. *)
Definition filter_queries (BUFSIZ : nat) (argc : nat) (argv : list cstring)
  : option (list cstring * list cstring) :=
  if bool_decide (argc = 0%nat) then
    Some ([str "profiler.setNone();"; str "profiler.setAll();";
           str "profiler.start();"], argv)
  else
    match set_filters BUFSIZ argc argv with
    | None => None
    | Some (qs, argv') =>
        Some (str "profiler.setNone();" :: qs ++ [str "profiler.start();"],
              argv')
    end.

(** Lines 479-484 of [main]: the counters are set from the argument at
    [optind] where it starts with [+], and from [TtiesS] otherwise.  The
    result is [a] and the table. *)
Definition select_counters (argv : list cstring) (optind : nat)
    (t : list counter) : option (nat * list counter) :=
  let argc := length argv in
  match argv !! optind with
  | Some (c :: sel) =>
      if bool_decide (1 < argc)%nat && Ascii.eqb c PLUS
      then pair (S optind) <$> setCounter sel t
      else pair optind <$> setCounter "TtiesS" t
  | _ => pair optind <$> setCounter "TtiesS" t
  end.

(** Lines 522-523: [walk->argc = argc - a; walk->argv = &argv[a - 1];].
    [a] is [optind] or one more; [&argv[-1]] is no pointer into the
    vector, and an [a] behind [argc] makes a count that leaves it. *)
Definition walk_args (argv : list cstring) (a : nat)
  : option (nat * list cstring) :=
  match a with
  | O => None
  | S a' =>
      if bool_decide (a <= length argv)%nat
      then Some ((length argv - a)%nat, drop a' argv)
      else None
  end.

(** [main] from line 479 on, with [-u] and [-P] given and a single
    server: the table, and the filter queries of [doProfile]. *)
Definition main_filters (BUFSIZ : nat) (argv : list cstring) (optind : nat)
    (t : list counter) : option (list counter * list cstring) :=
  match select_counters argv optind t with
  | None => None
  | Some (a, t') =>
      match walk_args argv a with
      | None => None
      | Some (argc', argv') =>
          match filter_queries BUFSIZ argc' argv' with
          | None => None
          | Some (qs, _) => Some (t', qs)
          end
      end
  end.

(** Notions for the statements: an element that differs from another
    in its status at most; the elements before the one that ends the
    table; the statuses that are set. *)
Definition same_entry (c c' : counter) : Prop :=
  tag c' = tag c /\ ptag c' = ptag c /\ name c' = name c.

Definition live (body : list counter) : Prop :=
  Forall (fun c => tag c <> NUL) body.

Definition nz_statuses (l : list counter) : list Z :=
  filter (fun z => z <> 0) (map status l).

(** One run of the inner loop. *)
Definition marked (ch : ascii) (k k' : Z) (c c' : counter) : Prop :=
  same_entry c c' /\
  ((tag c <> ch /\ status c' = status c) \/
   (tag c = ch /\ k <= status c' < k')).

(** The outer loop. *)
Definition marked_any (nme : cstring) (k k' : Z) (c c' : counter) : Prop :=
  same_entry c c' /\
  (((tag c ∉ nme) /\ status c' = status c) \/
   (tag c ∈ nme /\ k <= status c' < k')).

End Stethoscope.

(** * Properties *)

(** ** The statement state (C8) *)

(** C8.  For every (valid) statement whose state is not PREPARED,
    [SQLExecute] returns SQL_ERROR with SQLSTATE 24000 as its only error
    and touches nothing else: the read stream and the write stream are
    as before, and so are the state and the result fields. *)
Theorem SQLExecute_not_prepared `{Protocol} (hstmt : ODBCStmt) :
  isValidStmt hstmt = true ->
  State hstmt <> PREPARED ->
  exists hstmt',
    SQLExecute hstmt = Some (SQL_ERROR, hstmt') /\
    Error hstmt' = [error_24000] /\
    Mrs (Dbc hstmt') = Mrs (Dbc hstmt) /\
    Mws (Dbc hstmt') = Mws (Dbc hstmt) /\
    State hstmt' = State hstmt /\
    nrCols hstmt' = nrCols hstmt /\
    nrRows hstmt' = nrRows hstmt /\
    currentRow hstmt' = currentRow hstmt /\
    ResultCols hstmt' = ResultCols hstmt /\
    ResultRows hstmt' = ResultRows hstmt.
Proof.
  intros Hvalid Hstate. unfold SQLExecute. rewrite Hvalid. simpl.
  rewrite bool_decide_eq_false_2 by exact Hstate. simpl.
  eexists. split; [reflexivity|]. repeat split.
Qed.

Lemma SQLExecute_not_prepared_witness :
  let hstmt := example_stmt EXECUTED "select 1" no_params [WInt 2; WInt 1] in
  isValidStmt hstmt = true /\
  State hstmt <> PREPARED /\
  exists hstmt',
    @SQLExecute example_protocol hstmt = Some (SQL_ERROR, hstmt') /\
    Error hstmt' = [error_24000] /\
    Mrs (Dbc hstmt') = Mrs (Dbc hstmt) /\
    Mws (Dbc hstmt') = Mws (Dbc hstmt) /\
    State hstmt' = State hstmt /\
    nrCols hstmt' = nrCols hstmt /\
    nrRows hstmt' = nrRows hstmt /\
    currentRow hstmt' = currentRow hstmt /\
    ResultCols hstmt' = ResultCols hstmt /\
    ResultRows hstmt' = ResultRows hstmt.
Proof.
  intros hstmt.
  split; [reflexivity|]. split; [discriminate|].
  apply (@SQLExecute_not_prepared example_protocol hstmt);
    [reflexivity | discriminate].
Defined.

(** ** The frame reader (C10, C4) *)

(** C10.  Where the read of the type fails, or the type read is Q_END,
    [next_result] records SQLSTATE 08S01 and returns SQL_ERROR; the stream
    is as that one [stream_readInt] left it, so neither the status nor
    any payload has been read. *)
Theorem next_result_link_failure `{Protocol} (rs : stream)
    (hstmt : ODBCStmt) (type : Z) :
  (stream_readInt rs).1 = None \/ (stream_readInt rs).1 = Some Q_END ->
  next_result rs hstmt type =
    Some (SQL_ERROR, default type (stream_readInt rs).1,
          addStmtError hstmt "08S01" None 0, (stream_readInt rs).2).
Proof.
  unfold next_result. destruct (stream_readInt rs) as [[t|] rs1]; simpl.
  - intros [Hn|Ht]; [discriminate|]. inversion Ht; subst.
    rewrite bool_decide_eq_true_2 by reflexivity. reflexivity.
  - reflexivity.
Qed.

Lemma next_result_link_failure_witness :
  let hstmt := example_stmt PREPARED "select 1" no_params [] in
  let rs := [WInt 0; WInt 5; WData "abc"] in
  ((stream_readInt rs).1 = None \/
   (stream_readInt rs).1 = Some (@Q_END example_protocol)) /\
  @next_result example_protocol rs hstmt 7 =
    Some (SQL_ERROR, 0, addStmtError hstmt "08S01" None 0,
          [WInt 5; WData "abc"]).
Proof.
  intros hstmt rs. split; [right; reflexivity|].
  apply (@next_result_link_failure example_protocol rs hstmt 7).
  right; reflexivity.
Defined.

Lemma skip_blocks_false (rs : stream) :
  skip_blocks rs false = skip_blocks (bs_read_next rs).2 (bs_read_next rs).1.
Proof.
  simp skip_blocks. unfold inspect. simpl.
  destruct (bs_read_next rs). reflexivity.
Qed.

Lemma skip_blocks_error_payload (blocks : list (list ascii))
    (final : list ascii) (rs : stream) :
  skip_blocks (error_payload blocks final ++ rs) false = rs.
Proof.
  unfold error_payload. induction blocks as [|b blocks IH];
    rewrite skip_blocks_false; simpl.
  - apply skip_blocks_equation_1.
  - exact IH.
Qed.

Lemma first_block_error_payload (blocks : list (list ascii))
    (final : list ascii) (rs : stream) :
  skip_blocks (bs_read_next (error_payload blocks final ++ rs)).2
              (bs_read_next (error_payload blocks final ++ rs)).1 = rs.
Proof.
  rewrite <- skip_blocks_false. apply skip_blocks_error_payload.
Qed.

(** C4, as amended.  For every frame whose type is negative or whose
    status is negative (the type read and not Q_END), [next_result] reads
    the whole error payload, up to and with the block that carries the
    terminal marker, records SQLSTATE HY000 and returns SQL_ERROR; the
    stream is then at the start of the next frame, and a well-formed
    frame that follows is read as such. *)
Theorem next_result_drains_error_payload `{Protocol} (hstmt : ODBCStmt)
    (type0 t s : Z) (blocks : list (list ascii)) (final : list ascii)
    (rs : stream) :
  t <> Q_END ->
  t < 0 \/ s < 0 ->
  let hstmt' :=
    addStmtError hstmt "HY000"
      (Some (str "No result available (status < 0)")) 0 in
  next_result (WInt t :: WInt s :: error_payload blocks final ++ rs)
              hstmt type0
    = Some (SQL_ERROR, t, hstmt', rs) /\
  forall t2 s2 rest,
    rs = WInt t2 :: WInt s2 :: rest ->
    t2 <> Q_END -> 0 <= t2 -> 0 <= s2 ->
    next_result rs hstmt' t = Some (s2, t2, hstmt', rest).
Proof.
  intros Hend Hneg hstmt'. split.
  - unfold next_result. simpl.
    rewrite bool_decide_eq_false_2 by exact Hend.
    pose proof (first_block_error_payload blocks final rs) as Hskip.
    destruct (bs_read_next (error_payload blocks final ++ rs))
      as [last rs3] eqn:E. simpl in Hskip. rewrite Hskip.
    destruct (bool_decide (t < 0)) eqn:Ht; [reflexivity|].
    apply bool_decide_eq_false in Ht.
    rewrite bool_decide_eq_true_2 by lia. reflexivity.
  - intros t2 s2 rest -> Ht2 Hp Hs. unfold next_result. simpl.
    rewrite bool_decide_eq_false_2 by exact Ht2.
    rewrite bool_decide_eq_false_2 by lia.
    rewrite bool_decide_eq_false_2 by lia. reflexivity.
Qed.

Lemma next_result_drains_error_payload_witness :
  let hstmt := example_stmt PREPARED "select 1" no_params [] in
  let hstmt' :=
    addStmtError hstmt "HY000"
      (Some (str "No result available (status < 0)")) 0 in
  let rs := [WInt 2; WInt 1; WData "7"] in
  (2 <> @Q_END example_protocol) /\
  (2 < 0 \/ -1 < 0) /\
  @next_result example_protocol
    (WInt 2 :: WInt (-1) :: error_payload [str "syntax "; str "error"] "!"
       ++ rs) hstmt 0
    = Some (SQL_ERROR, 2, hstmt', rs) /\
  forall t2 s2 rest,
    rs = WInt t2 :: WInt s2 :: rest ->
    t2 <> @Q_END example_protocol -> 0 <= t2 -> 0 <= s2 ->
    @next_result example_protocol rs hstmt' 2 = Some (s2, t2, hstmt', rest).
Proof.
  intros hstmt hstmt' rs.
  split; [discriminate|]. split; [right; reflexivity|].
  apply (@next_result_drains_error_payload example_protocol hstmt 0 2 (-1)
           [str "syntax "; str "error"] (str "!") rs);
    [discriminate | right; reflexivity].
Defined.

(** C4 as stated fails: a frame whose type tag is none of the known
    ones, but not negative, and whose status is not negative is returned
    as a result; the payload behind it is left on the stream. *)
Lemma next_result_unrecognized_type_not_drained :
  let hstmt := example_stmt PREPARED "select 1" no_params [] in
  let next := [WInt 2; WInt 1; WData "7"] in
  let rs := WInt 99 :: WInt 3 :: error_payload [str "no such "] "tag" ++ next in
  99 <> @Q_END example_protocol /\
  99 <> @Q_RESULT example_protocol /\
  99 <> @Q_TABLE example_protocol /\
  99 <> @Q_UPDATE example_protocol /\
  @next_result example_protocol rs hstmt 0
    = Some (3, 99, hstmt, error_payload [str "no such "] "tag" ++ next) /\
  ~ (exists r t h, @next_result example_protocol rs hstmt 0
                    = Some (r, t, h, next)).
Proof.
  intros hstmt next rs.
  repeat (split; [discriminate|]).
  split; [reflexivity|].
  intros (r & t & h & E). vm_compute in E. discriminate E.
Qed.

(** ** The header decoder (C5, C6, C7) *)

(** The loop, one iteration unfolded. *)
Lemma header_loop_eq `{Protocol} (pre win post : list ascii) (eof : bool)
    (rs : stream) (pCol : nat) (cols : list ColumnHeader) :
  header_loop pre win post eof rs pCol cols =
  match win with
  | [] => Some (cols, rs)
  | _ :: _ =>
      match scan_for (is_char COMMA) win with
      | None =>
          if eof then Some (cols, rs)
          else let '(eof', win', rs') := bstream_refill win rs in
               header_loop [] win' (refill_post (pre ++ win ++ post) win')
                           eof' rs' pCol cols
      | Some (name, win1) =>
          if eof then Some (cols, rs)
          else
            match scan_for (is_char NL) win1 with
            | Some (type, win3) =>
                match store_column cols pCol (cstr name) (cstr type) with
                | None => None
                | Some cols' =>
                    header_loop (pre ++ name ++ NUL :: type ++ [NUL]) win3
                                post false rs (S pCol) cols'
                end
            | None =>
                let '(eof', win2, rs') := bstream_refill win1 rs in
                let post2 :=
                  refill_post ((pre ++ name ++ [NUL]) ++ win1 ++ post)
                              win2 in
                match scan_for (is_char NL) win2 with
                | None => Some (cols, rs')
                | Some (type, win3) =>
                    match store_column cols pCol (cstr name)
                            (strdup_at (type ++ NUL :: win3 ++ post2)
                                       (length (pre ++ name ++ [NUL])))
                    with
                    | None => None
                    | Some cols' =>
                        header_loop (type ++ [NUL]) win3 post2 eof' rs'
                                    (S pCol) cols'
                    end
                end
            end
      end
  end.
Proof.
  funelim (header_loop pre win post eof rs pCol cols); rewrite_branch;
    reflexivity.
Qed.

(** One read of a chunk that fits the buffer delivers the chunk. *)
Lemma bstream_refill_chunk `{Protocol} (bytes : list ascii) (rs : stream) :
  (0 < length bytes <= BLOCK)%nat ->
  bstream_refill [] (WData bytes :: rs) = (false, bytes, rs).
Proof.
  intros [Hpos Hfit]. unfold bstream_refill, stream_read. simpl.
  rewrite Nat.sub_0_r. rewrite bool_decide_eq_true_2 by exact Hfit.
  rewrite bool_decide_eq_false_2 by lia. reflexivity.
Qed.

(** C5.  The header payload [id,int\nname,char\n], delivered in one read
    (it fits the buffer), with nCols = 2: the array holds, behind the
    slot 0 that is not used, the column [id] of raw type [int] with tag
    SQL_C_SLONG and display size 4, then the column [name] of raw type
    [char] with tag SQL_C_CHAR and display size 6; the stream is at what
    follows the payload. *)
Theorem read_header_id_name `{Protocol} (rs : stream) :
  (length header_payload <= BLOCK)%nat ->
  read_header 2 (WData header_payload :: rs) =
    Some ([ zero_ColumnHeader;
            column "id" "int" SQL_C_SLONG 4;
            column "name" "char" SQL_C_CHAR 6 ], rs).
Proof.
  intros Hfit. unfold read_header.
  rewrite bstream_refill_chunk by (split; [simpl; lia | exact Hfit]).
  do 2 (rewrite header_loop_eq; cbn; try eval_store).
  rewrite header_loop_eq. reflexivity.
Qed.

Lemma read_header_id_name_witness :
  (length header_payload <= @BLOCK example_protocol)%nat /\
  @read_header example_protocol 2
     [WData header_payload; WInt 2; WInt 1; WData "7"] =
    Some ([ zero_ColumnHeader;
            column "id" "int" SQL_C_SLONG 4;
            column "name" "char" SQL_C_CHAR 6 ],
          [WInt 2; WInt 1; WData "7"]).
Proof.
  split; [vm_compute; lia|].
  apply (@read_header_id_name example_protocol [WInt 2; WInt 1; WData "7"]).
  vm_compute; lia.
Defined.

(** C6 fails on the code.  The payload [id,int\nname,char\n] decoded
    from one chunk gives both columns; delivered in two reads that meet
    at the end of the first record it gives the first column only, since
    [while (sc < ec)] ends where the window is used up and no refill is
    tried.  The same happens with one chunk and a buffer of the size of
    the first record. *)
Theorem read_header_split_at_record_end :
  let whole := [WData header_payload] in
  let split := [WData (take 7 header_payload);
                WData (drop 7 header_payload)] in
  let small := {| BLOCK := 7; Q_END := 0; Q_RESULT := 1; Q_TABLE := 2;
                  Q_UPDATE := 3 |} in
  stream_payload whole = stream_payload split /\
  @read_header example_protocol 2 whole =
    Some ([ zero_ColumnHeader;
            column "id" "int" SQL_C_SLONG 4;
            column "name" "char" SQL_C_CHAR 6 ], []) /\
  @read_header example_protocol 2 split =
    Some ([ zero_ColumnHeader;
            column "id" "int" SQL_C_SLONG 4;
            zero_ColumnHeader ],
          [WData (drop 7 header_payload)]) /\
  @read_header small 2 whole =
    Some ([ zero_ColumnHeader;
            column "id" "int" SQL_C_SLONG 4;
            zero_ColumnHeader ],
          [WData (drop 7 header_payload)]).
Proof.
  repeat split; vm_compute; reflexivity.
Qed.







(** ** The row decoder (C1, C9) *)

Lemma scan_for_Some (p : ascii -> bool) (l f r : list ascii) :
  scan_for p l = Some (f, r) ->
  exists c, l = f ++ c :: r /\ p c = true /\ filter p f = [].
Proof.
  revert f r. induction l as [|x l IH]; intros f r E; [discriminate|].
  simpl in E. destruct (p x) eqn:Px.
  - inversion E; subst. exists x. auto.
  - destruct (scan_for p l) as [[f' r']|]; [|discriminate].
    inversion E; subst. destruct (IH _ _ eq_refl) as (c & -> & Pc & Hf).
    exists c. split; [reflexivity|]. split; [exact Pc|].
    rewrite filter_cons, Px. simpl.
    destruct (decide (false)) as [[]|]. exact Hf.
Qed.

Lemma count_delims_app (a b : list ascii) :
  count_delims (a ++ b) = (count_delims a + count_delims b)%nat.
Proof. unfold count_delims. rewrite filter_app, length_app. reflexivity. Qed.

Lemma count_delims_scan (l f r : list ascii) :
  scan_for is_delim l = Some (f, r) ->
  count_delims l = S (count_delims r).
Proof.
  intros E. destruct (scan_for_Some _ _ _ _ E) as (c & -> & Pc & Hf).
  rewrite count_delims_app. unfold count_delims at 1. rewrite Hf.
  unfold count_delims. rewrite filter_cons, Pc. simpl.
  destruct (decide (true)) as [|n]; [reflexivity|].
  exfalso. apply n. exact I.
Qed.

(** A refill moves bytes from the stream to the window and loses none;
    when it reports the end of the stream the window is as before. *)
Lemma bstream_refill_payload `{Protocol} (unread : list ascii)
    (rs rs' : stream) (eof : bool) (win : list ascii) :
  bstream_refill unread rs = (eof, win, rs') ->
  win ++ stream_payload rs' = unread ++ stream_payload rs /\
  (eof = true -> win = unread).
Proof.
  unfold bstream_refill, stream_read.
  destruct rs as [|[z|b l|b] rs0]; simpl;
    try (intros E; inversion E; subst; rewrite !app_nil_r; split;
         [reflexivity | reflexivity]).
  case_bool_decide; intros E; inversion E; subst; simpl.
  - rewrite <- app_assoc. split; [reflexivity|].
    intros Hz. apply bool_decide_eq_true in Hz.
    apply nil_length_inv in Hz. rewrite Hz, app_nil_r. reflexivity.
  - rewrite <- app_assoc. simpl. rewrite (app_assoc (take _ b)), take_drop.
    split; [reflexivity|].
    intros Hz. apply bool_decide_eq_true in Hz.
    apply nil_length_inv in Hz. rewrite Hz, app_nil_r. reflexivity.
Qed.

(** One field: while [eof] is not set, the loop goes on only by taking
    one terminator, [eof] stays unset, and one slot is assigned. *)
Lemma store_field_Some (slot : Z) (s : nat) (pre f rest post : list ascii)
    (eof : bool) (rs : stream) (rows : gmap Z cstring) (st' : row_state) :
  store_field slot s pre f rest post eof rs rows = Some st' ->
  r_win st' = rest /\ r_post st' = post /\ r_eof st' = eof /\
  r_rs st' = rs /\
  exists v, r_rows st' = <[slot := v]> rows.
Proof.
  unfold store_field.
  destruct (unquote_at DQUOTE _ s _) as [[buf1 s1]|]; [|discriminate].
  destruct (unquote_at QUOTE buf1 s1 _) as [[buf2 s2]|]; [|discriminate].
  intros E; inversion E; subst; simpl. repeat split. eauto.
Qed.

Lemma row_field_inl `{Protocol} (slot : Z) (st st' : row_state) :
  r_eof st = false ->
  row_field slot st = Some (inl st') ->
  r_eof st' = false /\
  delims_left st = S (delims_left st') /\
  exists v, r_rows st' = <[slot := v]> (r_rows st).
Proof.
  intros Heof. unfold row_field, delims_left. rewrite Heof. simpl.
  destruct (scan_for is_delim (r_win st)) as [[f rest]|] eqn:E.
  - destruct (store_field _ _ _ _ _ _ _ _ _) as [st1|] eqn:S1;
      [|discriminate].
    intros E'; inversion E'; subst; clear E'.
    destruct (store_field_Some _ _ _ _ _ _ _ _ _ _ S1)
      as (-> & _ & -> & -> & Hv).
    split; [reflexivity|]. split; [|exact Hv].
    rewrite !count_delims_app, (count_delims_scan _ _ _ E). reflexivity.
  - destruct (bstream_refill (r_win st) (r_rs st)) as [[eof win] rs] eqn:R.
    destruct (bstream_refill_payload _ _ _ _ _ R) as [Hpay Hsame].
    destruct (scan_for is_delim win) as [[f rest]|] eqn:E2; [|discriminate].
    destruct (store_field _ _ _ _ _ _ _ _ _) as [st1|] eqn:S1;
      [|discriminate].
    intros E'; inversion E'; subst; clear E'.
    destruct (store_field_Some _ _ _ _ _ _ _ _ _ _ S1)
      as (-> & _ & -> & -> & Hv).
    split.
    + destruct eof; [|reflexivity]. rewrite Hsame in E2 by reflexivity.
      congruence.
    + split; [|exact Hv]. rewrite <- Hpay.
      rewrite !count_delims_app, (count_delims_scan _ _ _ E2). reflexivity.
Qed.

Lemma cols_loop_inl `{Protocol} (k : nat) (nRow nCol nCols : Z)
    (st st' : row_state) :
  r_eof st = false ->
  cols_loop k nRow nCol nCols st = Some (inl st') ->
  r_eof st' = false /\
  delims_left st = (k + delims_left st')%nat /\
  forall i, is_Some (r_rows st' !! i) <->
            is_Some (r_rows st !! i) \/
            exists j, nCol <= j < nCol + Z.of_nat k /\
                      i = nRow * nCols + j.
Proof.
  revert nCol st. induction k as [|k IH]; intros nCol st Heof;
    cbn [cols_loop].
  - intros E; inversion E; subst. split; [exact Heof|].
    split; [reflexivity|]. intros i. split; [auto|].
    intros [?|(j & ? & _)]; [assumption|lia].
  - rewrite Heof.
    destruct (row_field (nRow * nCols + nCol) st) as [[st1|st1]|] eqn:F;
      [|discriminate|discriminate].
    destruct (row_field_inl _ _ _ Heof F) as (Heof1 & Hd1 & v & Hrows1).
    intros E. destruct (IH _ _ Heof1 E) as (Heof' & Hd & Hdom).
    split; [exact Heof'|]. split; [lia|].
    intros i. rewrite Hdom, Hrows1. rewrite lookup_insert_is_Some.
    split.
    + intros [[Hi|[_ ?]]|(j & ? & Hi)]; [right; exists nCol; lia
                                        | left; assumption
                                        | right; exists j; lia].
    + intros [?|(j & Hj & ->)].
      * destruct (decide (nRow * nCols + nCol = i)); [left; left; assumption|].
        left; right; auto.
      * destruct (decide (j = nCol)) as [->|]; [left; left; reflexivity|].
        right. exists j. lia.
Qed.

Lemma rows_loop_inl `{Protocol} (k : nat) (nRow nCols : Z)
    (st st' : row_state) :
  r_eof st = false ->
  rows_loop k nRow nCols st = Some (inl st') ->
  r_eof st' = false /\
  delims_left st = (k * Z.to_nat nCols + delims_left st')%nat /\
  forall i, is_Some (r_rows st' !! i) <->
            is_Some (r_rows st !! i) \/
            exists r j, nRow <= r < nRow + Z.of_nat k /\
                        1 <= j <= nCols /\
                        i = r * nCols + j.
Proof.
  revert nRow st. induction k as [|k IH]; intros nRow st Heof;
    cbn [rows_loop].
  - intros E; inversion E; subst. split; [exact Heof|].
    split; [reflexivity|]. intros i. split; [auto|].
    intros [?|(r & j & ? & _)]; [assumption|lia].
  - rewrite Heof.
    destruct (cols_loop (Z.to_nat nCols) nRow 1 nCols st)
      as [[st1|st1]|] eqn:C; [|discriminate|discriminate].
    destruct (cols_loop_inl _ _ _ _ _ _ Heof C) as (Heof1 & Hd1 & Hdom1).
    intros E. destruct (IH _ _ Heof1 E) as (Heof' & Hd & Hdom).
    split; [exact Heof'|]. split; [lia|].
    intros i. rewrite Hdom, Hdom1. split.
    + intros [[?|(j & Hj & ->)]|(r & j & Hr & Hj & ->)].
      * left; assumption.
      * right. exists nRow, j. lia.
      * right. exists r, j. lia.
    + intros [?|(r & j & Hr & Hj & ->)]; [left; left; assumption|].
      destruct (decide (r = nRow)) as [->|].
      * left; right. exists j. lia.
      * right. exists r, j. lia.
Qed.

Lemma read_rows_start `{Protocol} (nRows nCols : Z) (rs : stream) :
  exists win rs1,
    bstream_refill [] rs = (at_end_of_stream rs, win, rs1) /\
    read_rows nRows nCols rs =
      rows_loop (Z.to_nat nRows) 1 nCols
        {| r_pre := []; r_win := win; r_post := refill_post [] win;
           r_eof := at_end_of_stream rs; r_rs := rs1; r_rows := ∅ |}.
Proof.
  unfold read_rows, at_end_of_stream.
  destruct (bstream_refill [] rs) as [[eof win] rs1]. simpl. eauto.
Qed.

(** The tail of [SQLExecute], lines 287-347, on a table frame. *)
Lemma result_rows_grid `{Protocol} (hstmt hstmt' : ODBCStmt)
    (rs : stream) (nRows nCols : Z) :
  0 < nRows ->
  result_rows hstmt rs nRows Q_TABLE nCols = Some (SQL_SUCCESS, hstmt') ->
  exists m,
    ResultRows hstmt' = Some m /\
    nrRows hstmt' = nRows /\
    nrCols hstmt' = nrCols hstmt /\
    if at_end_of_stream rs then m = ∅
    else (forall i, is_Some (m !! i) <-> grid_slot nRows nCols i) /\
         nRows * nCols <= Z.of_nat (count_delims (stream_payload rs)).
Proof.
  intros Hrows. unfold result_rows.
  rewrite bool_decide_eq_true_2 by reflexivity.
  rewrite bool_decide_eq_true_2 by lia. simpl.
  destruct (read_rows_start nRows nCols rs) as (win & rs1 & Hfill & ->).
  destruct (rows_loop _ _ _ _) as [[st'|st']|] eqn:Hloop;
    [|discriminate|discriminate].
  intros E; inversion E; subst hstmt'; clear E. simpl.
  exists (r_rows st'). split; [reflexivity|]. split; [reflexivity|].
  split; [reflexivity|].
  destruct (at_end_of_stream rs) eqn:Hend.
  - destruct (Z.to_nat nRows) as [|k]; simpl in Hloop;
      inversion Hloop; reflexivity.
  - apply rows_loop_inl in Hloop; [|reflexivity].
    destruct Hloop as (_ & Hd & Hdom).
    split.
    + intros i. rewrite Hdom. simpl. rewrite lookup_empty.
      unfold grid_slot. split.
      * intros [[? ?]|(r & j & Hr & Hj & ->)]; [discriminate|].
        exists r, j. lia.
      * intros (r & j & Hr & Hj & ->). right. exists r, j. lia.
    + unfold delims_left at 1 in Hd. simpl in Hd.
      destruct (bstream_refill_payload _ _ _ _ _ Hfill) as [Hpay _].
      rewrite Hpay in Hd. simpl in Hd. nia.
Qed.

(** [SQLExecute] on a reply made of a header frame and a table frame:
    the query is sent, both frame headers and the header payload are
    read, and the rows are decoded from what follows. *)
Lemma SQLExecute_header_table `{Protocol} (hstmt : ODBCStmt)
    (q query : cstring) (nCols nRows : Z) (rs : stream) :
  ready hstmt q ->
  frame_tags_ok ->
  build_query (bindParams hstmt) q = Some query ->
  header_then_table (Mrs (Dbc hstmt)) nCols nRows rs ->
  0 < nCols -> 0 < nRows ->
  exists h1,
    SQLExecute hstmt = result_rows h1 rs nRows Q_TABLE nCols /\
    State h1 = PREPARED /\ Error h1 = [] /\ nrCols h1 = nCols.
Proof.
  intros (Hvalid & Hstate & Hq & Hcols & Hrows) (Hr1 & Hr2 & Ht1 & Ht2)
         Hbuild (id & rs_h & cols & Hmrs & Hhead) HnCols HnRows.
  unfold SQLExecute. rewrite Hvalid. simpl. rewrite Hstate, Hq, Hcols, Hrows.
  rewrite bool_decide_eq_true_2 by reflexivity. simpl.
  rewrite Hbuild, Hmrs. unfold next_result at 1. simpl.
  rewrite (bool_decide_eq_false_2 (Q_RESULT = Q_END)) by exact Hr1.
  rewrite (bool_decide_eq_false_2 (Q_RESULT < 0)) by lia.
  rewrite (bool_decide_eq_false_2 (nCols < 0)) by lia.
  rewrite (bool_decide_eq_false_2 (nCols = SQL_ERROR)) by (unfold SQL_ERROR; lia).
  unfold result_header.
  rewrite (bool_decide_eq_true_2 (Q_RESULT = Q_RESULT)) by reflexivity.
  rewrite (bool_decide_eq_true_2 (nCols > 0)) by lia. simpl.
  rewrite Hhead. unfold next_result. simpl.
  rewrite (bool_decide_eq_false_2 (Q_TABLE = Q_END)) by exact Ht1.
  rewrite (bool_decide_eq_false_2 (Q_TABLE < 0)) by lia.
  rewrite (bool_decide_eq_false_2 (nRows < 0)) by lia.
  rewrite (bool_decide_eq_false_2 (nRows = SQL_ERROR)) by (unfold SQL_ERROR; lia).
  eexists. split; [reflexivity|]. simpl. rewrite Hstate. repeat split.
Qed.

(** C1 fails on the code.  The header announces two columns and the
    table frame three rows.  Where the stream ends inside the row
    payload, behind some of its bytes, [SQLExecute] returns SQL_ERROR
    (lines 311-324) and the statement stays PREPARED.  Where the stream
    ends right behind the frame header, the first read sets [eof], the
    tests [!eof] of both loops skip the decode, and [SQLExecute] returns
    SQL_SUCCESS: the statement is EXECUTED, claims three rows and holds
    no field. *)
Theorem SQLExecute_short_result :
  let rs := [WInt 1; WInt 2; WInt 7; WData header_payload;
             WInt 2; WInt 3] in
  let hstmt := example_stmt PREPARED "select * from t" no_params rs in
  let some_bytes := [WData ("1" ++ TAB :: "Alice" ++ NL :: "2" ++ [TAB])] in
  let hstmt1 :=
    example_stmt PREPARED "select * from t" no_params (rs ++ some_bytes) in
  (exists hstmt',
     @SQLExecute example_protocol hstmt1 = Some (SQL_ERROR, hstmt') /\
     State hstmt' = PREPARED /\
     nrRows hstmt' = 3) /\
  exists hstmt',
    @SQLExecute example_protocol hstmt = Some (SQL_SUCCESS, hstmt') /\
    State hstmt' = EXECUTED /\
    nrCols hstmt' = 2 /\
    nrRows hstmt' = 3 /\
    ResultRows hstmt' = Some ∅ /\
    Mrs (Dbc hstmt') = [].
Proof.
  intros rs hstmt some_bytes hstmt1. split.
  - eexists. split; [vm_compute; reflexivity|]. repeat split.
  - eexists. split; [vm_compute; reflexivity|]. repeat split.
Qed.

(** C9, as amended.  Where [SQLExecute] succeeds on a reply whose table
    frame announces nRows rows of the nCols columns of the header,
    either the stream was at its end at the first read of the row
    payload and no field is stored, or the fields stored are exactly
    those of the slots [nRow * nCols + nCol] with 1 <= nRow <= nRows and
    1 <= nCol <= nCols, and the payload held a terminator for each.  Tab
    and newline end a field alike; the field count of a line of the
    payload is not looked at. *)
Theorem SQLExecute_rows_grid `{Protocol} (hstmt hstmt' : ODBCStmt)
    (q query : cstring) (nCols nRows : Z) (rs : stream) :
  ready hstmt q ->
  frame_tags_ok ->
  build_query (bindParams hstmt) q = Some query ->
  header_then_table (Mrs (Dbc hstmt)) nCols nRows rs ->
  0 < nCols ->
  0 < nRows ->
  SQLExecute hstmt = Some (SQL_SUCCESS, hstmt') ->
  exists m,
    ResultRows hstmt' = Some m /\
    nrRows hstmt' = nRows /\
    nrCols hstmt' = nCols /\
    if at_end_of_stream rs then m = ∅
    else (forall i, is_Some (m !! i) <-> grid_slot nRows nCols i) /\
         nRows * nCols <= Z.of_nat (count_delims (stream_payload rs)).
Proof.
  intros Hready Htags Hbuild Hreply HnCols HnRows Hexec.
  destruct (SQLExecute_header_table hstmt q query nCols nRows rs
              Hready Htags Hbuild Hreply HnCols HnRows)
    as (h1 & Hcall & _ & _ & Hnc).
  rewrite Hcall in Hexec. inversion Hexec as [Hres]. clear Hexec.
  destruct (result_rows_grid h1 hstmt' rs nRows nCols HnRows Hres)
    as (m & Hm & Hnr & Hnc' & Hgrid).
  exists m. repeat split; try assumption. congruence.
Qed.

Lemma SQLExecute_rows_grid_witness :
  let rs := [WData rows_payload] in
  let mrs := [WInt 1; WInt 2; WInt 7; WData header_payload;
              WInt 2; WInt 2] ++ rs in
  let hstmt := example_stmt PREPARED "select * from t" no_params mrs in
  let hstmt' :=
    match @SQLExecute example_protocol hstmt with
    | Some (_, h) => h
    | None => hstmt
    end in
  ready hstmt "select * from t" /\
  @frame_tags_ok example_protocol /\
  build_query (bindParams hstmt) "select * from t"
    = Some (str "select * from t") /\
  @header_then_table example_protocol (Mrs (Dbc hstmt)) 2 2 rs /\
  0 < 2 /\
  0 < 2 /\
  @SQLExecute example_protocol hstmt = Some (SQL_SUCCESS, hstmt') /\
  exists m,
    ResultRows hstmt' = Some m /\
    nrRows hstmt' = 2 /\
    nrCols hstmt' = 2 /\
    if @at_end_of_stream example_protocol rs then m = ∅
    else (forall i, is_Some (m !! i) <-> grid_slot 2 2 i) /\
         2 * 2 <= Z.of_nat (count_delims (stream_payload rs)).
Proof.
  intros rs mrs hstmt hstmt'.
  assert (Hready : ready hstmt "select * from t") by (repeat split).
  assert (Htags : @frame_tags_ok example_protocol)
    by (repeat split; simpl; lia).
  assert (Hbuild : build_query (bindParams hstmt) "select * from t"
                   = Some (str "select * from t")) by reflexivity.
  assert (Hreply : @header_then_table example_protocol (Mrs (Dbc hstmt))
                     2 2 rs).
  { exists 7, (WData header_payload :: WInt 2 :: WInt 2 :: rs).
    eexists. split; [reflexivity | vm_compute; reflexivity]. }
  assert (Hexec : @SQLExecute example_protocol hstmt
                  = Some (SQL_SUCCESS, hstmt'))
    by (vm_compute; reflexivity).
  split; [exact Hready|]. split; [exact Htags|]. split; [exact Hbuild|].
  split; [exact Hreply|]. split; [lia|]. split; [lia|].
  split; [exact Hexec|].
  apply (@SQLExecute_rows_grid example_protocol hstmt hstmt'
           (str "select * from t") (str "select * from t") 2 2 rs
           Hready Htags Hbuild Hreply); [lia | lia | exact Hexec].
Defined.

(** C9 as stated fails: with two columns and one row announced, a
    payload of two lines of one field each is taken as the one row; the
    line [a], of one field, is not rejected. *)
Lemma SQLExecute_short_line_accepted :
  let payload := "a" ++ NL :: "b" ++ [NL] in
  let rs := [WInt 1; WInt 2; WInt 7; WData header_payload;
             WInt 2; WInt 1; WData payload] in
  let hstmt := example_stmt PREPARED "select * from t" no_params rs in
  scan_for (is_char NL) payload = Some (str "a", "b" ++ [NL]) /\
  count_delims "a" = 0%nat /\
  exists hstmt',
    @SQLExecute example_protocol hstmt = Some (SQL_SUCCESS, hstmt') /\
    State hstmt' = EXECUTED /\
    nrCols hstmt' = 2 /\
    nrRows hstmt' = 1 /\
    ResultRows hstmt' = Some (<[3 := str "a"]> (<[4 := str "b"]> ∅)).
Proof.
  intros payload rs hstmt.
  split; [reflexivity|]. split; [reflexivity|].
  eexists. split; [vm_compute; reflexivity|].
  repeat split.
Qed.

(** ** The bound parameters (C2, C3) *)

(** C3 fails on the code.  After a marker the loop prints the whole
    rest of the template and then scans that rest again, so the text
    behind a marker is printed twice and a second marker is left in the
    output; [convert] writes past its block on a value that holds a
    quote. *)
Theorem build_query_two_markers :
  let bp := {| array := [None; Some (str "v"); Some (str "w"); None];
               size := 3 |} in
  count_markers "a?b?" = 2%nat /\
  count_bound bp = 2%nat /\
  build_query bp "a?b?" = Some (str "a'v'b?b'w'") /\
  build_query bp "a?b" = Some (str "a'v'bb") /\
  build_query bp "select ?" = Some (str "select 'v'") /\
  convert "it's" = None.
Proof.
  repeat split; vm_compute; reflexivity.
Qed.

Lemma next_result_frame `{Protocol} (rs rs' : stream) (h h' : ODBCStmt)
    (t t' s : Z) :
  next_result rs h t = Some (s, t', h', rs') ->
  Mws (Dbc h') = Mws (Dbc h) /\
  (forall e, e ∈ Error h' -> e ∈ Error h \/ frame_error e).
Proof.
  unfold next_result, frame_error.
  destruct (stream_readInt rs) as [[ty|] rs1].
  2:{ intros E; inversion E; subst; simpl. split; [reflexivity|].
      intros e He. apply elem_of_app in He. destruct He as [?|He]; [auto|].
      apply list_elem_of_singleton in He. subst e. right; left; reflexivity. }
  case_bool_decide.
  { intros E; inversion E; subst; simpl. split; [reflexivity|].
    intros e He. apply elem_of_app in He. destruct He as [?|He]; [auto|].
    apply list_elem_of_singleton in He. subst e. right; left; reflexivity. }
  destruct (stream_readInt rs1) as [st rs2].
  destruct (bs_read_next rs2) as [last rs3].
  assert (Hdrain : forall x,
    Some (SQL_ERROR, ty,
          addStmtError h "HY000"
            (Some (str "No result available (status < 0)")) 0, x)
      = Some (s, t', h', rs') ->
    Mws (Dbc h') = Mws (Dbc h) /\
    (forall e, e ∈ Error h' ->
       e ∈ Error h \/ sqlState e = str "08S01" \/ sqlState e = str "HY000")).
  { intros x E; inversion E; subst; simpl. split; [reflexivity|].
    intros e He. apply elem_of_app in He. destruct He as [?|He]; [auto|].
    apply list_elem_of_singleton in He. subst e. right; right; reflexivity. }
  case_bool_decide; [apply Hdrain|].
  destruct st as [st|]; [|discriminate].
  case_bool_decide; [apply Hdrain|].
  intros E; inversion E; subst. auto.
Qed.

Lemma result_header_frame `{Protocol} (h : ODBCStmt) (rs : stream)
    (status type : Z) res :
  result_header h rs status type = Some res ->
  let h' := match res with
            | inl (_, _, _, h', _) => h'
            | inr (_, h') => h'
            end in
  Mws (Dbc h') = Mws (Dbc h) /\
  (forall e, e ∈ Error h' -> e ∈ Error h \/ frame_error e).
Proof.
  unfold result_header.
  destruct (bool_decide (type = Q_RESULT) && bool_decide (status > 0)).
  2:{ intros E; inversion E; subst; simpl. auto. }
  destruct (stream_readInt rs) as [_ rs0].
  destruct (read_header status rs0) as [[cols rs1]|]; [|discriminate].
  destruct (next_result _ _ _) as [[[[s' t'] h1] rs2]|] eqn:N; [|discriminate].
  apply next_result_frame in N. simpl in N.
  case_bool_decide; intros E; inversion E; subst; simpl; exact N.
Qed.

Lemma result_rows_frame `{Protocol} (h h' : ODBCStmt) (rs : stream)
    (status type nCols : Z) (r : SQLRETURN) :
  result_rows h rs status type nCols = Some (r, h') ->
  Mws (Dbc h') = Mws (Dbc h) /\
  Error h' = Error h.
Proof.
  unfold result_rows.
  destruct (bool_decide (type = Q_TABLE) && bool_decide (status > 0)).
  - destruct (read_rows status nCols rs) as [[st|st]|]; [| |discriminate];
      intros E; inversion E; subst; simpl; auto.
  - case_bool_decide; intros E; inversion E; subst; simpl; auto.
Qed.

(** C2, as amended.  No parameter binding error exists.  For every
    prepared statement for which the query text is built -- also where
    the markers outnumber the bound values: at a marker whose slot holds
    no value the loop stops and keeps the text printed so far -- a call
    that returns has written that text, then [;\n], and flushed; the
    errors it has recorded are those of the frame reader. *)
Theorem SQLExecute_sends_built_query `{Protocol} (hstmt hstmt' : ODBCStmt)
    (q query : cstring) (r : SQLRETURN) :
  isValidStmt hstmt = true ->
  State hstmt = PREPARED ->
  Query hstmt = Some q ->
  build_query (bindParams hstmt) q = Some query ->
  SQLExecute hstmt = Some (r, hstmt') ->
  Mws (Dbc hstmt') =
    Mws (Dbc hstmt) ++ [Written query; Written [";"%char; NL]; Flushed] /\
  (forall e, e ∈ Error hstmt' -> frame_error e) /\
  (forall strings queryLen c rest_query old rest Query params,
     scan_for (is_char QMARK) (c :: rest_query) = Some (old, rest) ->
     array (bindParams hstmt) !! params = Some None ->
     substitute (bindParams hstmt) strings queryLen (c :: rest_query)
                Query params = Some Query).
Proof.
  intros Hvalid Hstate Hq Hbuild Hexec. split; [|split].
  3:{ intros strings queryLen c rest_query old rest Query0 params Hscan Harr.
      funelim (substitute (bindParams hstmt) strings queryLen
                          (c :: rest_query) Query0 params);
        try congruence.
      all: try (rewrite Harr in *; discriminate).
      all: match goal with
           | E : array _ !! _ = Some (Some _) |- _ =>
               rewrite Harr in E; discriminate
           end. }
  all: unfold SQLExecute in Hexec; rewrite Hvalid in Hexec;
    simpl in Hexec; rewrite Hstate, Hq in Hexec;
    rewrite bool_decide_eq_true_2 in Hexec by reflexivity;
    simpl in Hexec;
    destruct (ResultCols hstmt); [discriminate|];
    destruct (ResultRows hstmt); [discriminate|];
    rewrite Hbuild in Hexec;
    match type of Hexec with
    | match next_result ?rs ?h ?t with _ => _ end = _ =>
        destruct (next_result rs h t) as [[[[s0 t0] h0] rs0]|] eqn:N;
        [|discriminate];
        apply next_result_frame in N; simpl in N; destruct N as [Nw Ne]
    end.
  - case_bool_decide.
    + inversion Hexec; subst; simpl. rewrite Nw. unfold stream_flush,
        stream_write. rewrite <- !app_assoc. reflexivity.
    + destruct (result_header h0 rs0 s0 t0) as [[[[[[s1 t1] n1] h1] rs1]|[r1 h1]]|]
        eqn:Hh; [| |discriminate];
        apply result_header_frame in Hh; simpl in Hh; destruct Hh as [Hw _].
      * destruct (result_rows_frame _ _ _ _ _ _ _ Hexec) as [Rw _].
        rewrite Rw, Hw, Nw.
        unfold stream_flush, stream_write. rewrite <- !app_assoc.
        reflexivity.
      * inversion Hexec; subst. rewrite Hw, Nw.
        unfold stream_flush, stream_write. rewrite <- !app_assoc.
        reflexivity.
  - assert (Hbase : forall e, e ∈ Error h0 -> frame_error e).
    { intros e He. destruct (Ne e He) as [Hnil|?]; [|assumption].
      simpl in Hnil. inversion Hnil. }
    case_bool_decide.
    + inversion Hexec; subst; simpl. exact Hbase.
    + destruct (result_header h0 rs0 s0 t0) as [[[[[[s1 t1] n1] h1] rs1]|[r1 h1]]|]
        eqn:Hh; [| |discriminate];
        apply result_header_frame in Hh; simpl in Hh; destruct Hh as [_ He1].
      * destruct (result_rows_frame _ _ _ _ _ _ _ Hexec) as [_ Re].
        intros e He. rewrite Re in He.
        destruct (He1 e He); auto.
      * inversion Hexec; subst. intros e He. destruct (He1 e He); auto.
Qed.

Lemma SQLExecute_sends_built_query_witness :
  let bp := {| array := [None; Some (str "v"); None]; size := 2 |} in
  let hstmt := example_stmt PREPARED "a?b?" bp [WInt 2; WInt (-1)] in
  let query := str "a'v'b?" in
  let r := SQL_ERROR in
  let hstmt' :=
    match @SQLExecute example_protocol hstmt with
    | Some (_, h) => h
    | None => hstmt
    end in
  isValidStmt hstmt = true /\
  State hstmt = PREPARED /\
  Query hstmt = Some (str "a?b?") /\
  build_query (bindParams hstmt) "a?b?" = Some query /\
  @SQLExecute example_protocol hstmt = Some (r, hstmt') /\
  Mws (Dbc hstmt') =
    Mws (Dbc hstmt) ++ [Written query; Written [";"%char; NL]; Flushed] /\
  (forall e, e ∈ Error hstmt' -> frame_error e) /\
  (forall strings queryLen c rest_query old rest Query params,
     scan_for (is_char QMARK) (c :: rest_query) = Some (old, rest) ->
     array (bindParams hstmt) !! params = Some None ->
     substitute (bindParams hstmt) strings queryLen (c :: rest_query)
                Query params = Some Query).
Proof.
  intros bp hstmt query r hstmt'.
  assert (Hb : build_query (bindParams hstmt) "a?b?" = Some query)
    by (vm_compute; reflexivity).
  assert (He : @SQLExecute example_protocol hstmt = Some (r, hstmt'))
    by (vm_compute; reflexivity).
  split; [reflexivity|]. split; [reflexivity|]. split; [reflexivity|].
  split; [exact Hb|]. split; [exact He|].
  exact (@SQLExecute_sends_built_query example_protocol hstmt hstmt'
           (str "a?b?") query r eq_refl eq_refl eq_refl Hb He).
Defined.

(** C2 as stated fails: the template has two markers and one value is
    bound.  [SQLExecute] raises no error for that; it writes the text
    printed up to the second marker, [;\n], flushes, reads the reply and
    returns SQL_SUCCESS. *)
Lemma SQLExecute_unbound_marker_sent :
  let bp := {| array := [None; Some (str "v"); None]; size := 2 |} in
  let hstmt := example_stmt PREPARED "a?b?" bp [WInt 3; WInt 1] in
  count_markers "a?b?" = 2%nat /\
  count_bound bp = 1%nat /\
  exists hstmt',
    @SQLExecute example_protocol hstmt = Some (SQL_SUCCESS, hstmt') /\
    Mws (Dbc hstmt') =
      [Written (str "a'v'b?"); Written [";"%char; NL]; Flushed] /\
    Error hstmt' = [] /\
    State hstmt' = EXECUTED /\
    Mrs (Dbc hstmt') = [].
Proof.
  intros bp hstmt. split; [reflexivity|]. split; [reflexivity|].
  eexists. split; [vm_compute; reflexivity|]. repeat split.
Qed.

(** * Further properties *)

(** ** [convert] *)

Lemma filter_cons_bool (p : ascii -> bool) (c : ascii) (l : list ascii) :
  filter p (c :: l) = if p c then c :: filter p l else filter p l.
Proof.
  rewrite filter_cons. destruct (p c); simpl.
  - destruct (decide (true)) as [|n]; [reflexivity|exfalso; apply n; exact I].
  - destruct (decide (false)) as [[]|]. reflexivity.
Qed.

Lemma is_char_eqb (c d : ascii) : is_char c d = Ascii.eqb d c.
Proof. unfold is_char. apply Ascii.eqb_sym. Qed.

Lemma poke_length res i c res' : poke res i c = Some res' -> length res' = length res.
Proof.
  unfold poke. case_bool_decide; [|discriminate]. intros E; inversion E.
  apply length_insert.
Qed.

Lemma convert_len_eq (s : cstring) (len : nat) :
  convert_len s len = (len + length s + count_quotes s)%nat.
Proof.
  unfold count_quotes. revert len.
  induction s as [|c s IH]; intros len; cbn [convert_len].
  - simpl. lia.
  - rewrite IH, filter_cons_bool, (is_char_eqb QUOTE c).
    destruct (Ascii.eqb c QUOTE); cbn [length]; lia.
Qed.

Lemma convert_fill_end (s : cstring) res len res' len' :
  convert_fill s res len = Some (res', len') ->
  length res' = length res /\
  len' = (len + length s + 2 * count_quotes s)%nat.
Proof.
  unfold count_quotes. revert res len.
  induction s as [|c s IH]; intros res len; cbn [convert_fill].
  - intros E; inversion E; subst. simpl. split; [reflexivity|lia].
  - rewrite filter_cons_bool, (is_char_eqb QUOTE c).
    destruct (Ascii.eqb c QUOTE); cbn [length].
    + destruct (poke res len BACKSLASH) as [res1|] eqn:P1; [|discriminate].
      destruct (poke res1 (len + 2) c) as [res2|] eqn:P2; [|discriminate].
      intros E. apply IH in E. destruct E as [E1 E2].
      apply poke_length in P1, P2.
      split; [congruence|lia].
    + destruct (poke res len c) as [res1|] eqn:P1; [|discriminate].
      intros E. apply IH in E. destruct E as [E1 E2].
      apply poke_length in P1. split; [congruence|lia].
Qed.

Lemma convert_fill_plain (s : cstring) (pre post : list (option ascii)) :
  count_quotes s = 0%nat ->
  (length s <= length post)%nat ->
  convert_fill s (pre ++ post) (length pre)
  = Some (pre ++ map Some s ++ drop (length s) post, (length pre + length s)%nat).
Proof.
  unfold count_quotes. revert pre post.
  induction s as [|c s IH]; intros pre post Hq Hlen; cbn [convert_fill].
  - simpl. rewrite drop_0, Nat.add_0_r. reflexivity.
  - rewrite filter_cons_bool, (is_char_eqb QUOTE c) in Hq.
    destruct (Ascii.eqb c QUOTE); cbn [length] in Hq.
    + discriminate.
    + destruct post as [|x post]; [simpl in Hlen; lia|].
      unfold poke. rewrite bool_decide_eq_true_2
        by (rewrite length_app; simpl; lia).
      rewrite insert_app_r_alt by lia. rewrite Nat.sub_diag. simpl.
      replace (pre ++ Some c :: post) with ((pre ++ [Some c]) ++ post)
        by (rewrite <- app_assoc; reflexivity).
      replace (S (length pre)) with (length (pre ++ [Some c]))
        by (rewrite length_app; simpl; lia).
      rewrite IH; [|exact Hq|simpl in Hlen; lia].
      rewrite <- app_assoc. simpl. rewrite length_app. simpl.
      f_equal. f_equal. lia.
Qed.

Lemma block_cstr_plain (s : cstring) (rest : list (option ascii)) :
  NUL ∉ s ->
  block_cstr (map Some s ++ Some NUL :: rest) = Some s.
Proof.
  induction s as [|c s IH]; intros Hn; simpl.
  - reflexivity.
  - apply not_elem_of_cons in Hn. destruct Hn as [Hc Hs].
    destruct (Ascii.eqb_spec c NUL) as [->|_]; [congruence|].
    rewrite IH by exact Hs. reflexivity.
Qed.

Lemma count_quotes_elem (s : cstring) :
  QUOTE ∈ s <-> count_quotes s <> 0%nat.
Proof.
  unfold count_quotes. induction s as [|c s IH].
  - simpl. split; [intros H; inversion H | congruence].
  - rewrite filter_cons_bool, (is_char_eqb QUOTE c), elem_of_cons.
    destruct (Ascii.eqb_spec c QUOTE) as [->|Hne]; cbn [length].
    + split; [lia | left; reflexivity].
    + rewrite <- IH. split; [intros [?|?]; [congruence|assumption] | auto].
Qed.

Lemma convert_eq (s : cstring) :
  NUL ∉ s ->
  convert s = if bool_decide (QUOTE ∈ s) then None else Some s.
Proof.
  intros Hnul. unfold convert. rewrite convert_len_eq.
  pose proof (count_quotes_elem s) as Hq.
  case_bool_decide as Hin.
  - apply Hq in Hin.
    destruct (convert_fill s _ 0) as [[res len']|] eqn:F; [|reflexivity].
    apply convert_fill_end in F. destruct F as [Hl ->].
    unfold poke. rewrite bool_decide_eq_false_2; [reflexivity|].
    rewrite Hl, length_replicate. lia.
  - assert (Hz : count_quotes s = 0%nat).
    { destruct (count_quotes s) eqn:E; [reflexivity|].
      exfalso. apply Hin, Hq. lia. }
    rewrite Hz.
    replace (1 + length s + 0)%nat with (length s + 1)%nat by lia.
    rewrite replicate_add.
    pose proof (convert_fill_plain s [] (replicate (length s) None ++ replicate 1 None) Hz) as F.
    simpl in F. simpl. rewrite F by (rewrite length_app, length_replicate; lia).
    rewrite drop_app_length' by (symmetry; apply length_replicate).
    unfold poke. rewrite bool_decide_eq_true_2
      by (rewrite length_app, length_map; simpl; lia).
    rewrite insert_app_r_alt by (rewrite length_map; lia).
    rewrite length_map, Nat.sub_diag. simpl.
    apply block_cstr_plain. exact Hnul.
Qed.

(** X1.  [convert] on a C string: a value without a quote character
    comes back as a copy of itself; for a value that holds a quote the
    writes run past the block that was allocated ([len] counts two bytes
    for a quote, the second loop uses three), so there is no defined
    result. *)
Theorem convert_copies_or_overruns (s : cstring) :
  NUL ∉ s ->
  convert s = if bool_decide (QUOTE ∈ s) then None else Some s.
Proof. exact (convert_eq s). Qed.

Lemma convert_copies_or_overruns_witness :
  (NUL ∉ str "O'Brien") /\
  convert "O'Brien" = if bool_decide (QUOTE ∈ str "O'Brien") then None
                      else Some (str "O'Brien").
Proof.
  assert (H : NUL ∉ str "O'Brien") by (by_compute).
  split; [exact H|]. exact (convert_copies_or_overruns (str "O'Brien") H).
Defined.

(** ** The bound parameters, lines 132-177 *)

Lemma convert_plain (v : cstring) : plain v -> convert v = Some v.
Proof.
  intros [Hn Hq]. rewrite convert_eq by exact Hn.
  rewrite bool_decide_eq_false_2 by exact Hq. reflexivity.
Qed.

Lemma bind_strings_prefix (bp : OdbcInArray) (vs : list cstring) :
  Forall plain vs ->
  forall n i strings ql,
    (forall k v, vs !! k = Some v -> array bp !! (i + k)%nat = Some (Some v)) ->
    array bp !! (i + length vs)%nat = Some None ->
    (i + length vs <= size bp)%nat ->
    (length vs < n)%nat ->
    exists strings',
      bind_strings n i bp strings ql = Some (strings', (ql + params_len vs)%nat) /\
      (forall k v, vs !! k = Some v -> strings' !! (i + k)%nat = Some v) /\
      (forall j, (j < i)%nat -> strings' !! j = strings !! j).
Proof.
  induction 1 as [|v vs Hv Hvs IH]; intros n i strings ql Harr Hnull Hsize Hn.
  - destruct n as [|n]; [simpl in Hn; lia|]. cbn [bind_strings].
    simpl in Hnull. rewrite Nat.add_0_r in Hnull. rewrite Hnull.
    exists strings. simpl. rewrite Nat.add_0_r. split; [reflexivity|].
    split; [|reflexivity].
    intros k v0 Hk. rewrite lookup_nil in Hk. discriminate.
  - destruct n as [|n]; [simpl in Hn; lia|]. cbn [bind_strings].
    pose proof (Harr 0%nat v eq_refl) as H0. rewrite Nat.add_0_r in H0.
    rewrite H0, (convert_plain v Hv).
    cbn [length] in *.
    rewrite bool_decide_eq_true_2 by lia.
    destruct (IH n (S i) (<[i:=v]> strings) (ql + (2 + strlen v))%nat)
      as (strings' & E & Hlook & Hkeep).
    + intros k v0 Hk. specialize (Harr (S k) v0 Hk).
      rewrite <- Harr. f_equal. lia.
    + rewrite <- Hnull. f_equal. lia.
    + lia.
    + lia.
    + exists strings'. split.
      * rewrite E. simpl. do 2 f_equal. lia.
      * split.
        -- intros [|k] v0 Hk.
           ++ simpl in Hk. inversion Hk; subst v0. rewrite Nat.add_0_r.
              rewrite Hkeep by lia. apply lookup_insert_eq.
           ++ specialize (Hlook k v0 Hk). rewrite <- Hlook. f_equal. lia.
        -- intros j Hj. rewrite Hkeep by lia.
           apply lookup_insert_ne. lia.
Qed.

Lemma bind_strings_binds (bp : OdbcInArray) (vs : list cstring) (ql : nat) :
  binds bp vs ->
  Forall plain vs ->
  exists strings,
    bind_strings (size bp) 1 bp ∅ ql = Some (strings, (ql + params_len vs)%nat) /\
    (forall k v, vs !! k = Some v -> strings !! (S k) = Some v) /\
    (forall k v, vs !! k = Some v -> array bp !! (S k) = Some (Some v)) /\
    array bp !! (S (length vs)) = Some None.
Proof.
  intros [(a0 & rest & Harr) Hsize] Hplain.
  assert (H1 : forall k v, vs !! k = Some v ->
                 array bp !! (1 + k)%nat = Some (Some v)).
  { intros k v Hk. rewrite Harr. simpl.
    rewrite lookup_app_l by (rewrite length_map; eapply lookup_lt_Some; eauto).
    rewrite list_lookup_fmap, Hk. reflexivity. }
  assert (H2 : array bp !! (1 + length vs)%nat = Some None).
  { rewrite Harr. simpl.
    rewrite lookup_app_r by (rewrite length_map; lia).
    rewrite length_map, Nat.sub_diag. reflexivity. }
  destruct (bind_strings_prefix bp vs Hplain (size bp) 1%nat ∅ ql H1 H2)
    as (strings & E & Hl & _); [lia|lia|].
  exists strings. repeat split; auto.
Qed.

Lemma substitute_eq (bp : OdbcInArray) (strings : gmap nat cstring)
    (queryLen : nat) (query Query : cstring) (params : nat) :
  substitute bp strings queryLen query Query params =
  match query with
  | [] => Some Query
  | _ :: _ =>
      match scan_for (is_char QMARK) query with
      | None => snprintf_at queryLen Query query
      | Some (old, rest) =>
          match array bp !! params with
          | None => None
          | Some None => Some Query
          | Some (Some _) =>
              match strings !! params with
              | None => None
              | Some sp =>
                  match snprintf_at queryLen Query
                          (old ++ QUOTE :: sp ++ [QUOTE]) with
                  | None => None
                  | Some Query1 =>
                      match rest with
                      | [] => Some Query1
                      | _ :: _ =>
                          match snprintf_at queryLen Query1 rest with
                          | None => None
                          | Some Query2 =>
                              substitute bp strings queryLen rest Query2
                                         (S params)
                          end
                      end
                  end
              end
          end
      end
  end.
Proof.
  funelim (substitute bp strings queryLen query Query params);
    repeat match goal with
      | E : scan_for _ _ = _ |- _ => progress rewrite E
      | E : array _ !! _ = _ |- _ => progress rewrite E
      | E : strings !! _ = _ |- _ => progress rewrite E
      | E : snprintf_at _ _ _ = _ |- _ => progress rewrite E
      end; reflexivity.
Qed.


Lemma scan_for_absent (p : ascii -> bool) (l : list ascii) :
  filter p l = [] -> scan_for p l = None.
Proof.
  induction l as [|c l IH]; [reflexivity|].
  rewrite filter_cons_bool. cbn [scan_for].
  destruct (p c); [discriminate|]. intros E. rewrite IH by exact E. reflexivity.
Qed.

Lemma scan_for_first (p : ascii -> bool) (f r : list ascii) (c : ascii) :
  filter p f = [] -> p c = true -> scan_for p (f ++ c :: r) = Some (f, r).
Proof.
  intros Hf Hc. induction f as [|x f IH]; cbn [scan_for app].
  - rewrite Hc. reflexivity.
  - rewrite filter_cons_bool in Hf. destruct (p x); [discriminate|].
    rewrite IH by exact Hf. reflexivity.
Qed.

Lemma count_markers_zero (q : cstring) :
  count_markers q = 0%nat -> filter (is_char QMARK) q = [].
Proof. unfold count_markers. apply nil_length_inv. Qed.

Lemma binds_one (v : cstring) : binds (one_param v) [v].
Proof. split; [exists None, []; reflexivity | simpl; lia]. Qed.

Lemma binds_two (v w : cstring) : binds (two_params v w) [v; w].
Proof. split; [exists None, []; reflexivity | simpl; lia]. Qed.

(** X2.  With parameters bound (values without quotes, fewer than the
    array has slots), a template that holds no marker is the text that
    is sent, unchanged. *)
Theorem build_query_no_marker (bp : OdbcInArray) (vs : list cstring)
    (q : cstring) :
  binds bp vs ->
  Forall plain vs ->
  count_markers q = 0%nat ->
  build_query bp q = Some q.
Proof.
  intros Hb Hp Hm. unfold build_query.
  destruct (bind_strings_binds bp vs (strlen q + 1) Hb Hp)
    as (strings & -> & _).
  destruct Hb as [_ Hsize].
  rewrite bool_decide_eq_false_2 by lia.
  rewrite substitute_eq. destruct q as [|c q]; [reflexivity|].
  rewrite scan_for_absent by (apply count_markers_zero; exact Hm).
  unfold snprintf_at, strlen. rewrite bool_decide_eq_true_2; [reflexivity|].
  simpl. lia.
Qed.

Lemma build_query_no_marker_witness :
  binds (one_param "v") [str "v"] /\
  Forall plain [str "v"] /\
  count_markers "select 1" = 0%nat /\
  build_query (one_param "v") "select 1" = Some (str "select 1").
Proof.
  assert (Hb : binds (one_param "v") [str "v"]) by apply binds_one.
  assert (Hp : Forall plain [str "v"])
    by (repeat constructor; by_compute).
  split; [exact Hb|]. split; [exact Hp|]. split; [reflexivity|].
  exact (build_query_no_marker (one_param "v") [str "v"] (str "select 1")
           Hb Hp eq_refl).
Defined.

(** X3.  A template whose only marker is its last character: with a
    first value [v] bound (all bound values without quotes), the text
    sent is the template with the marker replaced by [v] between
    quotes. *)
Theorem build_query_trailing_marker (bp : OdbcInArray) (v : cstring)
    (vs : list cstring) (pre : cstring) :
  binds bp (v :: vs) ->
  Forall plain (v :: vs) ->
  count_markers pre = 0%nat ->
  build_query bp (pre ++ [QMARK]) = Some (pre ++ QUOTE :: v ++ [QUOTE]).
Proof.
  intros Hb Hp Hm. unfold build_query.
  destruct (bind_strings_binds bp (v :: vs) (strlen (pre ++ [QMARK]) + 1) Hb Hp)
    as (strings & -> & Hs & Ha & _).
  destruct Hb as [_ Hsize].
  rewrite bool_decide_eq_false_2 by (simpl in Hsize; lia).
  rewrite substitute_eq.
  destruct (pre ++ [QMARK]) as [|c q] eqn:E;
    [destruct pre; discriminate|]. rewrite <- E.
  rewrite scan_for_first;
    [|apply count_markers_zero; exact Hm|reflexivity].
  rewrite (Ha 0%nat v eq_refl), (Hs 0%nat v eq_refl).
  unfold snprintf_at, strlen.
  rewrite bool_decide_eq_true_2; [reflexivity|]. len_lia.
Qed.

Lemma build_query_trailing_marker_witness :
  binds (two_params "42" "x") [str "42"; str "x"] /\
  Forall plain [str "42"; str "x"] /\
  count_markers "select * from t where id = " = 0%nat /\
  build_query (two_params "42" "x")
              ("select * from t where id = " ++ [QMARK])
    = Some ("select * from t where id = " ++ QUOTE :: "42" ++ [QUOTE]).
Proof.
  assert (Hb : binds (two_params "42" "x") [str "42"; str "x"])
    by apply binds_two.
  assert (Hp : Forall plain [str "42"; str "x"])
    by (repeat constructor; by_compute).
  split; [exact Hb|]. split; [exact Hp|]. split; [reflexivity|].
  exact (build_query_trailing_marker (two_params "42" "x") (str "42")
           [str "x"] (str "select * from t where id = ") Hb Hp eq_refl).
Defined.

(** X4.  A template with one marker and text behind it: the loop prints
    that text once as the rest behind the marker and once more on the
    next iteration.  Where the doubled text still fits the block of
    [queryLen] bytes -- it is shorter than 2 plus what the further bound
    values added -- the text sent is the substituted template with the
    text behind the marker twice; where it does not fit, the writes run
    past the block. *)
Theorem build_query_text_after_marker (bp : OdbcInArray) (v : cstring)
    (vs : list cstring) (pre post : cstring) :
  binds bp (v :: vs) ->
  Forall plain (v :: vs) ->
  count_markers pre = 0%nat ->
  count_markers post = 0%nat ->
  post <> [] ->
  build_query bp (pre ++ QMARK :: post) =
    if bool_decide (length post < 2 + params_len vs)%nat
    then Some (pre ++ QUOTE :: v ++ [QUOTE] ++ post ++ post)
    else None.
Proof.
  intros Hb Hp Hm Hm' Hne. unfold build_query.
  destruct (bind_strings_binds bp (v :: vs)
              (strlen (pre ++ QMARK :: post) + 1) Hb Hp)
    as (strings & -> & Hs & Ha & _).
  destruct Hb as [_ Hsize].
  rewrite bool_decide_eq_false_2 by (simpl in Hsize; lia).
  rewrite substitute_eq.
  destruct (pre ++ QMARK :: post) as [|c q] eqn:E;
    [destruct pre; discriminate|]. rewrite <- E.
  rewrite scan_for_first;
    [|apply count_markers_zero; exact Hm|reflexivity].
  rewrite (Ha 0%nat v eq_refl), (Hs 0%nat v eq_refl).
  unfold snprintf_at at 1. unfold strlen.
  rewrite bool_decide_eq_true_2 by len_lia.
  destruct post as [|p post]; [congruence|].
  unfold snprintf_at at 1.
  rewrite bool_decide_eq_true_2 by len_lia.
  rewrite substitute_eq.
  rewrite scan_for_absent by (apply count_markers_zero; exact Hm').
  unfold snprintf_at.
  case_bool_decide as H1; case_bool_decide as H2.
  - rewrite <- !app_assoc. simpl. rewrite <- !app_assoc. reflexivity.
  - exfalso. apply H2. revert H1. len_lia.
  - exfalso. apply H1. revert H2. len_lia.
  - reflexivity.
Qed.

Lemma build_query_text_after_marker_witness :
  binds (one_param "7") [str "7"] /\
  Forall plain [str "7"] /\
  count_markers "where a = " = 0%nat /\
  count_markers " and b = 1" = 0%nat /\
  str " and b = 1" <> [] /\
  build_query (one_param "7") ("where a = " ++ QMARK :: " and b = 1") =
    if bool_decide (length (str " and b = 1") < 2 + params_len [])%nat
    then Some ("where a = " ++ QUOTE :: "7" ++ [QUOTE] ++ " and b = 1"
                 ++ " and b = 1")
    else None.
Proof.
  assert (Hb : binds (one_param "7") [str "7"]) by apply binds_one.
  assert (Hp : Forall plain [str "7"]) by (repeat constructor; by_compute).
  assert (Hne : str " and b = 1" <> []) by discriminate.
  split; [exact Hb|]. split; [exact Hp|]. split; [reflexivity|].
  split; [reflexivity|]. split; [exact Hne|].
  exact (build_query_text_after_marker (one_param "7") (str "7") []
           (str "where a = ") (str " and b = 1") Hb Hp eq_refl eq_refl Hne).
Defined.

(** ** The header decoder, lines 197-281 *)

Lemma filter_absent (p : ascii -> bool) (c : ascii) (l : list ascii) :
  (forall x, p x = true -> x = c) -> c ∉ l -> filter p l = [].
Proof.
  intros Hp. induction l as [|x l IH]; intros Hn; [reflexivity|].
  apply not_elem_of_cons in Hn. destruct Hn as [Hx Hl].
  rewrite filter_cons_bool. destruct (p x) eqn:E.
  - exfalso. apply Hx. symmetry. apply Hp. exact E.
  - apply IH. exact Hl.
Qed.

Lemma is_char_true (c x : ascii) : is_char c x = true -> x = c.
Proof. unfold is_char. intros E. apply Ascii.eqb_eq in E. congruence. Qed.

Lemma scan_for_char (c : ascii) (f r : list ascii) :
  c ∉ f -> scan_for (is_char c) (f ++ c :: r) = Some (f, r).
Proof.
  intros Hn. apply scan_for_first.
  - apply (filter_absent _ c); [apply is_char_true | exact Hn].
  - unfold is_char. apply Ascii.eqb_refl.
Qed.

Lemma scan_for_char_absent (c : ascii) (l : list ascii) :
  c ∉ l -> scan_for (is_char c) l = None.
Proof.
  intros Hn. apply scan_for_absent.
  apply (filter_absent _ c); [apply is_char_true | exact Hn].
Qed.

Lemma header_loop_records `{Protocol} (recs : list (cstring * cstring))
    (pre w post : list ascii) (rs : stream) (pCol : nat)
    (cols : list ColumnHeader) :
  Forall record_ok recs ->
  header_loop pre (encode_header recs ++ w) post false rs pCol cols =
  match store_columns cols pCol recs with
  | None => None
  | Some cols' =>
      header_loop (pre ++ header_written recs) w post false rs
                  (pCol + length recs) cols'
  end.
Proof.
  intros Hok. revert pre pCol cols.
  induction Hok as [|[name type] recs [Hn Ht] _ IH]; intros pre pCol cols.
  - simpl. rewrite Nat.add_0_r, app_nil_r. reflexivity.
  - cbn [encode_header header_written map concat store_columns length
         fst snd].
    unfold header_record at 1, record_written at 1. cbn [fst snd] in *.
    rewrite header_loop_eq.
    rewrite <- !app_assoc. cbn [app]. rewrite <- !app_assoc. cbn [app].
    destruct (name ++ COMMA :: type ++ NL :: concat (map header_record recs) ++ w)
      as [|c0 l0] eqn:E; [destruct name; discriminate|]. rewrite <- E.
    rewrite scan_for_char by exact Hn.
    rewrite scan_for_char by exact Ht.
    destruct (store_column cols pCol (cstr name) (cstr type)) as [cols'|];
      [|reflexivity].
    fold (encode_header recs). fold (header_written recs). rewrite IH.
    replace (S pCol + length recs)%nat with (pCol + S (length recs))%nat by lia.
    rewrite <- !app_assoc. cbn [app]. rewrite <- !app_assoc. reflexivity.
Qed.

Lemma store_column_middle (pre post : list ColumnHeader) (x : ColumnHeader)
    (name type : cstring) :
  store_column (pre ++ x :: post) (length pre) name type
  = Some (pre ++ fill_column x name type :: post).
Proof.
  unfold store_column. rewrite list_lookup_middle by reflexivity.
  rewrite insert_app_r_alt by lia. rewrite Nat.sub_diag. reflexivity.
Qed.

Lemma store_columns_zero (recs : list (cstring * cstring))
    (pre : list ColumnHeader) (m : nat) :
  store_columns (pre ++ replicate m zero_ColumnHeader) (length pre) recs =
  if bool_decide (length recs <= m)%nat
  then Some (pre ++ map column_of recs
                 ++ replicate (m - length recs) zero_ColumnHeader)
  else None.
Proof.
  revert pre m. induction recs as [|r recs IH]; intros pre m.
  - cbn [store_columns length map app]. rewrite Nat.sub_0_r.
    rewrite bool_decide_eq_true_2 by lia. reflexivity.
  - cbn [store_columns length]. unfold store_column.
    destruct m as [|m].
    + rewrite app_nil_r, lookup_ge_None_2 by lia.
      rewrite bool_decide_eq_false_2 by lia. reflexivity.
    + cbn [replicate]. fold (store_column (pre ++ zero_ColumnHeader :: replicate m zero_ColumnHeader) (length pre) (cstr r.1) (cstr r.2)).
      rewrite store_column_middle.
      replace (pre ++ fill_column zero_ColumnHeader (cstr r.1) (cstr r.2)
                   :: replicate m zero_ColumnHeader)
        with ((pre ++ [column_of r]) ++ replicate m zero_ColumnHeader)
        by (rewrite <- app_assoc; reflexivity).
      replace (S (length pre)) with (length (pre ++ [column_of r]))
        by (rewrite length_app; simpl; lia).
      rewrite IH.
      destruct (bool_decide (length recs <= m)%nat) eqn:B.
      * apply bool_decide_eq_true in B.
        rewrite bool_decide_eq_true_2 by lia.
        rewrite <- app_assoc. reflexivity.
      * apply bool_decide_eq_false in B.
        rewrite bool_decide_eq_false_2 by lia. reflexivity.
Qed.

Lemma header_loop_window_end `{Protocol} (pre post : list ascii)
    (eof : bool) (rs : stream) (pCol : nat) (cols : list ColumnHeader) :
  header_loop pre [] post eof rs pCol cols = Some (cols, rs).
Proof. rewrite header_loop_eq. reflexivity. Qed.

Lemma encode_header_not_nil (recs : list (cstring * cstring)) :
  recs <> [] -> (0 < length (encode_header recs))%nat.
Proof.
  destruct recs as [|[n t] recs]; [congruence|]. intros _.
  unfold encode_header, header_record. simpl.
  rewrite !length_app. simpl. lia.
Qed.

Lemma read_header_records_eq `{Protocol} (nCols : Z)
    (recs : list (cstring * cstring)) (rs : stream) :
  recs <> [] ->
  Forall record_ok recs ->
  (length (encode_header recs) <= BLOCK)%nat ->
  read_header nCols (WData (encode_header recs) :: rs) =
  if bool_decide (Z.of_nat (length recs) <= nCols)
  then Some (zero_ColumnHeader :: map column_of recs
               ++ replicate (Z.to_nat nCols - length recs) zero_ColumnHeader,
             rs)
  else None.
Proof.
  intros Hne Hok Hfit. unfold read_header.
  rewrite bstream_refill_chunk
    by (split; [apply encode_header_not_nil; exact Hne | exact Hfit]).
  rewrite <- (app_nil_r (encode_header recs)).
  rewrite header_loop_records by exact Hok.
  case_bool_decide as Hk.
  - replace (Z.to_nat (nCols + 1)) with (S (Z.to_nat nCols)) by lia.
    cbn [replicate].
    pose proof (store_columns_zero recs [zero_ColumnHeader] (Z.to_nat nCols)) as S.
    cbn [app length] in S. rewrite S.
    rewrite bool_decide_eq_true_2 by lia.
    apply header_loop_window_end.
  - destruct (Z.to_nat (nCols + 1)) as [|m] eqn:Em.
    + destruct recs as [|r recs]; [congruence|]. reflexivity.
    + cbn [replicate].
      pose proof (store_columns_zero recs [zero_ColumnHeader] m) as S.
      cbn [app length] in S. rewrite S.
      rewrite bool_decide_eq_false_2 by lia. reflexivity.
Qed.

Lemma bstream_refill_more `{Protocol} (unread bytes : list ascii)
    (rs : stream) :
  (0 < length bytes)%nat ->
  (length unread + length bytes <= BLOCK)%nat ->
  bstream_refill unread (WData bytes :: rs) = (false, unread ++ bytes, rs).
Proof.
  intros Hpos Hfit. unfold bstream_refill, stream_read.
  rewrite bool_decide_eq_true_2 by lia.
  rewrite bool_decide_eq_false_2 by lia. reflexivity.
Qed.

Lemma store_columns_app (cols : list ColumnHeader) (pCol : nat)
    (a b : list (cstring * cstring)) :
  store_columns cols pCol (a ++ b) =
  match store_columns cols pCol a with
  | None => None
  | Some cols' => store_columns cols' (pCol + length a) b
  end.
Proof.
  revert cols pCol. induction a as [|r a IH]; intros cols pCol.
  - simpl. rewrite Nat.add_0_r. reflexivity.
  - cbn [app store_columns length].
    destruct (store_column cols pCol (cstr r.1) (cstr r.2)); [|reflexivity].
    rewrite IH. replace (S pCol + length a)%nat with (pCol + S (length a))%nat by lia.
    reflexivity.
Qed.

Lemma read_header_store `{Protocol} (nCols : Z)
    (recs : list (cstring * cstring)) (rs : stream) :
  recs <> [] ->
  Forall record_ok recs ->
  (length (encode_header recs) <= BLOCK)%nat ->
  read_header nCols (WData (encode_header recs) :: rs) =
  match store_columns (replicate (Z.to_nat (nCols + 1)) zero_ColumnHeader)
                      1 recs with
  | None => None
  | Some cols => Some (cols, rs)
  end.
Proof.
  intros Hne Hok Hfit. unfold read_header.
  rewrite bstream_refill_chunk
    by (split; [apply encode_header_not_nil; exact Hne | exact Hfit]).
  rewrite <- (app_nil_r (encode_header recs)).
  rewrite header_loop_records by exact Hok.
  destruct (store_columns _ 1 recs); [|reflexivity].
  apply header_loop_window_end.
Qed.

Lemma encode_header_app (a b : list (cstring * cstring)) :
  encode_header (a ++ b) = encode_header a ++ encode_header b.
Proof. unfold encode_header. rewrite map_app, concat_app. reflexivity. Qed.

Lemma encode_header_cons (r : cstring * cstring)
    (b : list (cstring * cstring)) :
  encode_header (r :: b) = header_record r ++ encode_header b.
Proof. reflexivity. Qed.

Lemma header_loop_step `{Protocol} (pre win post : list ascii)
    (rs : stream) (pCol : nat) (cols : list ColumnHeader) :
  win <> [] ->
  header_loop pre win post false rs pCol cols =
  match scan_for (is_char COMMA) win with
  | None =>
      let '(eof', win', rs') := bstream_refill win rs in
      header_loop [] win' (refill_post (pre ++ win ++ post) win')
                  eof' rs' pCol cols
  | Some (name, win1) =>
      match scan_for (is_char NL) win1 with
      | Some (type, win3) =>
          match store_column cols pCol (cstr name) (cstr type) with
          | None => None
          | Some cols' =>
              header_loop (pre ++ name ++ NUL :: type ++ [NUL]) win3 post
                          false rs (S pCol) cols'
          end
      | None =>
          let '(eof', win2, rs') := bstream_refill win1 rs in
          let post2 :=
            refill_post ((pre ++ name ++ [NUL]) ++ win1 ++ post) win2 in
          match scan_for (is_char NL) win2 with
          | None => Some (cols, rs')
          | Some (type, win3) =>
              match store_column cols pCol (cstr name)
                      (strdup_at (type ++ NUL :: win3 ++ post2)
                                 (length (pre ++ name ++ [NUL])))
              with
              | None => None
              | Some cols' =>
                  header_loop (type ++ [NUL]) win3 post2 eof' rs'
                              (S pCol) cols'
              end
          end
      end
  end.
Proof.
  intros Hne. rewrite header_loop_eq. destruct win; [congruence|reflexivity].
Qed.

(** X5.  A header payload of records [name,type\n] (no comma in a name,
    no newline in a type) that arrives in one read and fits the buffer,
    with no more records than columns announced: the array holds, behind
    the unused slot 0, one column header per record, in the order of the
    payload, with the name and the type of the record (cut at a NUL) and
    the tag of the type; the slots left stay as [memset] left them, and
    the stream is at what follows the payload. *)
Theorem read_header_records `{Protocol} (nCols : Z)
    (recs : list (cstring * cstring)) (rs : stream) :
  recs <> [] ->
  Forall record_ok recs ->
  (length (encode_header recs) <= BLOCK)%nat ->
  Z.of_nat (length recs) <= nCols ->
  read_header nCols (WData (encode_header recs) :: rs) =
    Some (zero_ColumnHeader :: map column_of recs
            ++ replicate (Z.to_nat nCols - length recs) zero_ColumnHeader,
          rs).
Proof.
  intros Hne Hok Hfit Hk. rewrite read_header_records_eq by assumption.
  rewrite bool_decide_eq_true_2 by exact Hk. reflexivity.
Qed.

Lemma read_header_records_witness :
  let recs := [(str "id", str "int"); (str "name", str "char");
               (str "since", str "timestamp")] in
  recs <> [] /\
  Forall record_ok recs /\
  (length (encode_header recs) <= @BLOCK example_protocol)%nat /\
  Z.of_nat (length recs) <= 4 /\
  @read_header example_protocol 4 [WData (encode_header recs); WInt 2] =
    Some (zero_ColumnHeader :: map column_of recs
            ++ replicate (Z.to_nat 4 - length recs) zero_ColumnHeader,
          [WInt 2]).
Proof.
  intros recs.
  assert (Hne : recs <> []) by discriminate.
  assert (Hok : Forall record_ok recs)
    by (repeat (constructor; [split; by_compute|]); constructor).
  assert (Hfit : (length (encode_header recs) <= @BLOCK example_protocol)%nat)
    by (vm_compute; lia).
  assert (Hk : Z.of_nat (length recs) <= 4) by (simpl; lia).
  split; [exact Hne|]. split; [exact Hok|]. split; [exact Hfit|].
  split; [exact Hk|].
  exact (@read_header_records example_protocol 4 recs [WInt 2]
           Hne Hok Hfit Hk).
Defined.

(** X6.  A header payload that holds more records than the frame
    announced columns: the loop does not count the records against
    nCols, and the assignment for the record behind the last slot lies
    past the end of the array of nCols + 1 column headers. *)
Theorem read_header_more_records_than_columns `{Protocol} (nCols : Z)
    (recs : list (cstring * cstring)) (rs : stream) :
  Forall record_ok recs ->
  (length (encode_header recs) <= BLOCK)%nat ->
  0 <= nCols < Z.of_nat (length recs) ->
  read_header nCols (WData (encode_header recs) :: rs) = None.
Proof.
  intros Hok Hfit Hk.
  assert (Hne : recs <> []).
  { destruct recs; [|discriminate]. simpl in Hk. lia. }
  rewrite read_header_records_eq by assumption.
  rewrite bool_decide_eq_false_2 by lia. reflexivity.
Qed.

Lemma read_header_more_records_than_columns_witness :
  let recs := [(str "id", str "int"); (str "name", str "char")] in
  Forall record_ok recs /\
  (length (encode_header recs) <= @BLOCK example_protocol)%nat /\
  0 <= 1 < Z.of_nat (length recs) /\
  @read_header example_protocol 1 [WData (encode_header recs); WInt 2]
    = None.
Proof.
  intros recs.
  assert (Hok : Forall record_ok recs)
    by (repeat (constructor; [split; by_compute|]); constructor).
  assert (Hfit : (length (encode_header recs) <= @BLOCK example_protocol)%nat)
    by (vm_compute; lia).
  assert (Hk : 0 <= 1 < Z.of_nat (length recs)) by (simpl; lia).
  split; [exact Hok|]. split; [exact Hfit|]. split; [exact Hk|].
  exact (@read_header_more_records_than_columns example_protocol 1 recs
           [WInt 2] Hok Hfit Hk).
Defined.

(** X7.  A header payload cut in two reads inside a name decodes to
    what the whole payload decodes to in one read: the refill keeps the
    bytes of the name that is not complete, and [continue] starts the
    record over, with [s] set anew at the start of the refilled
    buffer. *)
Theorem read_header_cut_inside_name `{Protocol} (nCols : Z)
    (before after : list (cstring * cstring)) (r : cstring * cstring)
    (p1 p2 : list ascii) (rs : stream) :
  Forall record_ok (before ++ r :: after) ->
  cut_name r p1 p2 ->
  (length (encode_header (before ++ r :: after)) <= BLOCK)%nat ->
  read_header nCols (WData (encode_header before ++ p1)
                     :: WData (p2 ++ encode_header after) :: rs) =
  read_header nCols (WData (encode_header (before ++ r :: after)) :: rs).
Proof.
  intros Hok (n2 & Hp1 & E & E2) Hfit.
  rewrite read_header_store;
    [|destruct before; discriminate | exact Hok | exact Hfit].
  rewrite store_columns_app.
  apply Forall_app in Hok. destruct Hok as [HokA HokR].
  inversion HokR as [|? ? [Hn Ht] HokB]; subst.
  assert (Hp : p1 ++ n2 ++ COMMA :: r.2 ++ [NL] = header_record r).
  { unfold header_record. rewrite E, <- app_assoc. reflexivity. }
  assert (Hlen : (length (encode_header before) + length (header_record r)
                  + length (encode_header after) <= BLOCK)%nat).
  { rewrite encode_header_app, encode_header_cons in Hfit.
    rewrite !length_app in Hfit. lia. }
  assert (Hlr : length (header_record r)
                = (length p1 + length (n2 ++ COMMA :: r.2 ++ [NL]))%nat).
  { rewrite <- Hp, length_app. reflexivity. }
  unfold read_header.
  rewrite bstream_refill_chunk.
  2:{ rewrite length_app. split; [|lia].
      destruct p1; [congruence|]. simpl. lia. }
  rewrite header_loop_records by exact HokA.
  destruct (store_columns _ 1 before) as [colsA|]; [|reflexivity].
  cbn [store_columns].
  rewrite header_loop_step by exact Hp1.
  assert (Hc : COMMA ∉ p1).
  { intros Hin. apply Hn. rewrite E. apply elem_of_app. left. exact Hin. }
  rewrite scan_for_char_absent by exact Hc.
  rewrite bstream_refill_more.
  2:{ rewrite !length_app. simpl. lia. }
  2:{ rewrite length_app. lia. }
  replace (p1 ++ (n2 ++ COMMA :: r.2 ++ [NL]) ++ encode_header after)
    with (encode_header (r :: after) ++ [])
    by (rewrite app_nil_r, encode_header_cons, <- Hp;
        repeat (rewrite <- ?app_assoc; cbn [app]); reflexivity).
  rewrite header_loop_records by (constructor; [split|]; assumption).
  cbn [store_columns].
  destruct (store_column colsA (1 + length before) (cstr r.1) (cstr r.2))
    as [cols1|]; [|reflexivity].
  destruct (store_columns cols1 _ after); [|reflexivity].
  apply header_loop_window_end.
Qed.

Lemma read_header_cut_inside_name_witness :
  let before := [(str "id", str "int")] in
  let r := (str "name", str "char") in
  let after := [(str "since", str "timestamp")] in
  let p1 := str "na" in
  let p2 := "me,char" ++ [NL] in
  Forall record_ok (before ++ r :: after) /\
  cut_name r p1 p2 /\
  (length (encode_header (before ++ r :: after))
   <= @BLOCK example_protocol)%nat /\
  @read_header example_protocol 3
     [WData (encode_header before ++ p1);
      WData (p2 ++ encode_header after); WInt 2] =
  @read_header example_protocol 3
     [WData (encode_header (before ++ r :: after)); WInt 2].
Proof.
  intros before r after p1 p2.
  assert (Hok : Forall record_ok (before ++ r :: after))
    by (repeat (constructor; [split; by_compute|]); constructor).
  assert (Hcut : cut_name r p1 p2)
    by (exists (str "me"); split; [discriminate|split; reflexivity]).
  assert (Hfit : (length (encode_header (before ++ r :: after))
                  <= @BLOCK example_protocol)%nat) by (vm_compute; lia).
  split; [exact Hok|]. split; [exact Hcut|]. split; [exact Hfit|].
  exact (@read_header_cut_inside_name example_protocol 3 before after r
           p1 p2 [WInt 2] Hok Hcut Hfit).
Defined.

(** X25.  A header payload cut in two reads inside a type.  The first
    read ends behind [name,ch].  The refill of lines 242-245 moves the
    unread [ch] to the start of the buffer and sets [sc] and [ec]
    there; [s] stays at offset 12, where the type began before the
    refill.  [*sc = 0] ends [char], and [type = strdup (s)] reads the
    refilled buffer from offset 12 on: the column [name] gets the type
    name [imestamp\n], which is no name of [sql_types], and keeps the
    tag 0.  The columns before and behind are not touched by this.  In
    one read the same payload gives [char] and SQL_C_CHAR. *)
Theorem read_header_cut_inside_type :
  let p1 := "id,int" ++ NL :: "name,ch" in
  let p2 := "ar" ++ NL :: "since,timestamp" ++ [NL] in
  @read_header example_protocol 3 [WData p1; WData p2] =
    Some ([ zero_ColumnHeader;
            column "id" "int" SQL_C_SLONG 4;
            column "name" ("imestamp" ++ [NL]) 0 6;
            column "since" "timestamp" SQL_C_TYPE_TIMESTAMP 7 ], []) /\
  @read_header example_protocol 3 [WData (p1 ++ p2)] =
    Some ([ zero_ColumnHeader;
            column "id" "int" SQL_C_SLONG 4;
            column "name" "char" SQL_C_CHAR 6;
            column "since" "timestamp" SQL_C_TYPE_TIMESTAMP 7 ], []).
Proof.
  split; vm_compute; reflexivity.
Qed.

(** ** The row decoder, lines 289-340 *)

Lemma cstr_app_nul (l r : list ascii) : cstr (l ++ NUL :: r) = cstr l.
Proof.
  induction l as [|c l IH]; cbn [cstr app].
  - rewrite Ascii.eqb_refl. reflexivity.
  - destruct (Ascii.eqb c NUL); [reflexivity|]. rewrite IH. reflexivity.
Qed.








Lemma encode_rows_cons (fd : list ascii * ascii) (fs : list (list ascii * ascii)) :
  encode_rows (fd :: fs) = fd.1 ++ fd.2 :: encode_rows fs.
Proof.
  unfold encode_rows, row_field_bytes. cbn [map concat].
  rewrite <- app_assoc. reflexivity.
Qed.

Lemma encode_rows_app (a b : list (list ascii * ascii)) :
  encode_rows (a ++ b) = encode_rows a ++ encode_rows b.
Proof. unfold encode_rows. rewrite map_app, concat_app. reflexivity. Qed.

(** Where [s] points to the first byte of the field, the tests on the
    buffer are those on the bytes of the field. *)
Lemma unquote_at_fresh (q : ascii) (pre g tail : list ascii) (sc : nat) :
  q <> NUL ->
  sc = (length pre + length g)%nat ->
  exists pre',
    unquote_at q (pre ++ g ++ NUL :: tail) (length pre) sc
      = Some (pre' ++ unquote q g ++ NUL :: tail, length pre') /\
    (length pre' + length (unquote q g))%nat = sc.
Proof.
  intros Hq ->. unfold unquote_at.
  rewrite lookup_app_r by lia. rewrite Nat.sub_diag.
  destruct g as [|c g'].
  - cbn [app lookup list_lookup unquote length].
    rewrite (proj2 (Ascii.eqb_neq NUL q)) by congruence.
    exists pre. split; [reflexivity|]. lia.
  - cbn [app lookup list_lookup].
    cbn [unquote]. destruct (Ascii.eqb c q) eqn:Ec; cbn [andb].
    2:{ exists pre. split; [reflexivity|]. reflexivity. }
    apply Ascii.eqb_eq in Ec. subst c.
    cbn [length]. replace (length pre + S (length g'))%nat
      with (S (length pre + length g')) by lia.
    destruct g' as [|d g''] using rev_ind.
    + (* the field is the quote alone *)
      cbn [length]. rewrite Nat.add_0_r.
      rewrite lookup_app_r by lia. rewrite Nat.sub_diag. cbn [app lookup list_lookup].
      rewrite Ascii.eqb_refl.
      rewrite bool_decide_eq_true_2 by reflexivity.
      exists (pre ++ [NUL]). split.
      * rewrite insert_app_r_alt by lia. rewrite Nat.sub_diag.
        cbn [insert list_insert app]. rewrite <- app_assoc.
        rewrite length_app. cbn [length app]. rewrite Nat.add_1_r.
        reflexivity.
      * rewrite length_app. simpl. lia.
    + clear IHg''. rewrite length_app. cbn [length].
      replace (pre ++ q :: (g'' ++ [d]) ++ NUL :: tail)
        with ((pre ++ q :: g'') ++ d :: NUL :: tail)
        by (repeat (rewrite <- ?app_assoc; cbn [app]); reflexivity).
      replace (length pre + (length g'' + 1))%nat
        with (length (pre ++ q :: g''))
        by (rewrite length_app; simpl; lia).
      rewrite list_lookup_middle by reflexivity.
      rewrite app_comm_cons, last_snoc.
      destruct (Ascii.eqb d q) eqn:Ed.
      * apply Ascii.eqb_eq in Ed. subst d.
        rewrite bool_decide_eq_true_2 by reflexivity.
        destruct (g'' ++ [q]) as [|x l] eqn:El;
          [destruct g''; discriminate|]. rewrite <- El.
        rewrite removelast_last.
        exists (pre ++ [q]). split.
        -- rewrite insert_app_r_alt by lia. rewrite Nat.sub_diag.
           cbn [insert list_insert].
           rewrite length_app. cbn [length].
           replace (length pre + 1)%nat with (S (length pre)) by lia.
           repeat (rewrite <- ?app_assoc; cbn [app]). reflexivity.
        -- rewrite !length_app. simpl. lia.
      * rewrite bool_decide_eq_false_2
          by (intros E; inversion E; subst;
              rewrite Ascii.eqb_refl in Ed; discriminate).
        exists pre. split.
        -- repeat (rewrite <- ?app_assoc; cbn [app]). reflexivity.
        -- rewrite length_app. simpl. rewrite length_app. simpl. lia.
Qed.

Lemma strdup_at_fresh (pre f tail : list ascii) :
  strdup_at (pre ++ f ++ NUL :: tail) (length pre) = cstr f.
Proof.
  unfold strdup_at. rewrite drop_app_length. apply cstr_app_nul.
Qed.

(** A field to whose first byte [s] points is stored as its text. *)
Lemma store_field_fresh (slot : Z) (pre f rest post : list ascii)
    (eof : bool) (rs : stream) (rows : gmap Z cstring) :
  exists pre',
    store_field slot (length pre) pre f rest post eof rs rows =
    Some {| r_pre := pre'; r_win := rest; r_post := post; r_eof := eof;
            r_rs := rs; r_rows := <[slot := field_text f]> rows |}.
Proof.
  unfold store_field.
  destruct (unquote_at_fresh DQUOTE pre f (rest ++ post)
              (length (pre ++ f))) as (pre1 & -> & Hl1);
    [discriminate | apply length_app |].
  destruct (unquote_at_fresh QUOTE pre1 (unquote DQUOTE f) (rest ++ post)
              (length (pre ++ f))) as (pre2 & -> & Hl2);
    [discriminate | symmetry; exact Hl1 |].
  rewrite strdup_at_fresh. eexists. reflexivity.
Qed.

Lemma row_field_complete `{Protocol} (slot : Z) (fd : list ascii * ascii)
    (pre w post : list ascii) (rs : stream) (rows : gmap Z cstring) :
  field_ok fd ->
  exists pre',
    row_field slot {| r_pre := pre; r_win := fd.1 ++ fd.2 :: w;
                      r_post := post; r_eof := false;
                      r_rs := rs; r_rows := rows |}
    = Some (inl {| r_pre := pre'; r_win := w; r_post := post;
                   r_eof := false; r_rs := rs;
                   r_rows := <[slot := field_text fd.1]> rows |}).
Proof.
  intros [Hf Hd]. unfold row_field.
  cbn [r_pre r_win r_post r_eof r_rs r_rows].
  rewrite scan_for_first by assumption.
  destruct (store_field_fresh slot pre fd.1 w post false rs rows)
    as (pre' & ->).
  exists pre'. reflexivity.
Qed.

Lemma cols_loop_complete `{Protocol} (fs : list (list ascii * ascii))
    (nRow nCol nCols : Z) (pre w post : list ascii) (rs : stream)
    (rows : gmap Z cstring) :
  Forall field_ok fs ->
  exists pre',
    cols_loop (length fs) nRow nCol nCols
      {| r_pre := pre; r_win := encode_rows fs ++ w; r_post := post;
         r_eof := false; r_rs := rs; r_rows := rows |}
    = Some (inl {| r_pre := pre'; r_win := w; r_post := post;
                   r_eof := false; r_rs := rs;
                   r_rows := store_fields (nRow * nCols + nCol) fs rows |}).
Proof.
  intros Hok. revert nCol pre rows.
  induction Hok as [|fd fs Hfd _ IH]; intros nCol pre rows.
  - exists pre. reflexivity.
  - cbn [length cols_loop r_eof store_fields].
    rewrite encode_rows_cons, <- app_assoc. cbn [app].
    destruct (row_field_complete (nRow * nCols + nCol) fd pre
                (encode_rows fs ++ w) post rs rows Hfd) as (pre1 & ->).
    destruct (IH (nCol + 1) pre1
                (<[nRow * nCols + nCol := field_text fd.1]> rows))
      as (pre' & ->).
    exists pre'. do 4 f_equal. lia.
Qed.

Lemma store_fields_app (slot : Z) (a b : list (list ascii * ascii))
    (rows : gmap Z cstring) :
  store_fields slot (a ++ b) rows
  = store_fields (slot + Z.of_nat (length a)) b (store_fields slot a rows).
Proof.
  revert slot rows. induction a as [|fd a IH]; intros slot rows.
  - simpl. rewrite Z.add_0_r. reflexivity.
  - cbn [app store_fields length]. rewrite IH. f_equal. lia.
Qed.

Lemma rows_loop_complete `{Protocol} (k : nat)
    (fs : list (list ascii * ascii)) (nRow nCols : Z)
    (pre w post : list ascii) (rs : stream) (rows : gmap Z cstring) :
  0 <= nCols ->
  Forall field_ok fs ->
  length fs = (k * Z.to_nat nCols)%nat ->
  exists pre',
    rows_loop k nRow nCols
      {| r_pre := pre; r_win := encode_rows fs ++ w; r_post := post;
         r_eof := false; r_rs := rs; r_rows := rows |}
    = Some (inl {| r_pre := pre'; r_win := w; r_post := post;
                   r_eof := false; r_rs := rs;
                   r_rows := store_fields (nRow * nCols + 1) fs rows |}).
Proof.
  intros Hn. revert fs nRow pre rows.
  induction k as [|k IH]; intros fs nRow pre rows Hok Hlen.
  - simpl in Hlen. apply nil_length_inv in Hlen. subst fs.
    exists pre. reflexivity.
  - assert (Hl1 : length (take (Z.to_nat nCols) fs) = Z.to_nat nCols)
      by (rewrite length_take; apply Nat.min_l; rewrite Hlen; simpl; lia).
    assert (Hs : store_fields (nRow * nCols + 1) fs rows =
                 store_fields ((nRow + 1) * nCols + 1)
                   (drop (Z.to_nat nCols) fs)
                   (store_fields (nRow * nCols + 1)
                      (take (Z.to_nat nCols) fs) rows)).
    { rewrite <- (take_drop (Z.to_nat nCols) fs) at 1.
      rewrite store_fields_app, Hl1. f_equal. nia. }
    assert (He : encode_rows fs ++ w =
                 encode_rows (take (Z.to_nat nCols) fs)
                   ++ encode_rows (drop (Z.to_nat nCols) fs) ++ w).
    { rewrite app_assoc, <- encode_rows_app, take_drop. reflexivity. }
    rewrite <- (take_drop (Z.to_nat nCols) fs) in Hok.
    apply Forall_app in Hok. destruct Hok as [Hok1 Hok2].
    destruct (cols_loop_complete (take (Z.to_nat nCols) fs) nRow 1 nCols
                pre (encode_rows (drop (Z.to_nat nCols) fs) ++ w) post rs
                rows Hok1) as (pre1 & Hc).
    rewrite Hl1 in Hc.
    destruct (IH (drop (Z.to_nat nCols) fs) (nRow + 1) pre1
                (store_fields (nRow * nCols + 1)
                   (take (Z.to_nat nCols) fs) rows) Hok2)
      as (pre' & Hr); [rewrite length_drop, Hlen; simpl; lia|].
    exists pre'. cbn [rows_loop r_eof]. rewrite He, Hc, Hr, Hs.
    reflexivity.
Qed.

Lemma store_fields_lookup (fs : list (list ascii * ascii)) (slot : Z)
    (rows : gmap Z cstring) (i : Z) :
  store_fields slot fs rows !! i =
  if bool_decide (slot <= i < slot + Z.of_nat (length fs))
  then field_text <$> (fst <$> fs !! Z.to_nat (i - slot))
  else rows !! i.
Proof.
  revert slot rows. induction fs as [|fd fs IH]; intros slot rows.
  - cbn [store_fields length]. rewrite bool_decide_eq_false_2 by lia.
    reflexivity.
  - cbn [store_fields length]. rewrite IH.
    case_bool_decide as H1; case_bool_decide as H2; try lia.
    + replace (Z.to_nat (i - slot)) with (S (Z.to_nat (i - (slot + 1)))) by lia.
      reflexivity.
    + assert (i = slot) as -> by lia.
      rewrite lookup_insert_eq, Z.sub_diag. reflexivity.
    + apply lookup_insert_ne. lia.
Qed.

(** X9.  A row payload of nRows x nCols fields, each without tab and
    newline and ended by one of them, that arrives in one read and fits
    the buffer: the decode succeeds, the stream is at what follows the
    payload, and the slot [nRow * nCols + nCol] holds the text of field
    number (nRow - 1) * nCols + nCol of the payload -- the fields fill
    the grid row by row, whatever delimiter ends each of them.  Bytes
    that the read delivered behind the last field are dropped with the
    buffer. *)
Theorem read_rows_fields `{Protocol} (nRows nCols : Z)
    (fs : list (list ascii * ascii)) (extra : list ascii) (rs : stream) :
  0 < nRows ->
  0 < nCols ->
  Forall field_ok fs ->
  Z.of_nat (length fs) = nRows * nCols ->
  (length (encode_rows fs ++ extra) <= BLOCK)%nat ->
  exists st,
    read_rows nRows nCols (WData (encode_rows fs ++ extra) :: rs)
      = Some (inl st) /\
    r_rs st = rs /\
    forall nRow nCol,
      1 <= nRow <= nRows ->
      1 <= nCol <= nCols ->
      r_rows st !! (nRow * nCols + nCol) =
      field_text <$>
        (fst <$> fs !! Z.to_nat ((nRow - 1) * nCols + (nCol - 1))).
Proof.
  intros HnRows HnCols Hok Hlen Hfit. unfold read_rows.
  rewrite bstream_refill_chunk.
  2:{ split; [|exact Hfit]. rewrite length_app.
      destruct fs as [|fd fs]; [simpl in Hlen; nia|].
      rewrite encode_rows_cons, length_app. simpl. lia. }
  destruct (rows_loop_complete (Z.to_nat nRows) fs 1 nCols [] extra
              (refill_post [] (encode_rows fs ++ extra)) rs ∅)
    as (pre' & ->); [lia|exact Hok|nia|].
  eexists. split; [reflexivity|]. split; [reflexivity|].
  intros nRow nCol Hr Hc. cbn [r_rows].
  rewrite store_fields_lookup, lookup_empty.
  rewrite bool_decide_eq_true_2 by nia.
  do 3 f_equal. lia.
Qed.

Lemma read_rows_fields_witness :
  let fs := [(str "1", TAB); (DQUOTE :: "Bob, Jr" ++ [DQUOTE], NL);
             (str "2", TAB); (str "Eve", NL)] in
  let extra := str "3" in
  0 < 2 /\
  0 < 2 /\
  Forall field_ok fs /\
  Z.of_nat (length fs) = 2 * 2 /\
  (length (encode_rows fs ++ extra) <= @BLOCK example_protocol)%nat /\
  exists st,
    @read_rows example_protocol 2 2
       [WData (encode_rows fs ++ extra); WInt 0] = Some (inl st) /\
    r_rs st = [WInt 0] /\
    forall nRow nCol,
      1 <= nRow <= 2 ->
      1 <= nCol <= 2 ->
      r_rows st !! (nRow * 2 + nCol) =
      field_text <$>
        (fst <$> fs !! Z.to_nat ((nRow - 1) * 2 + (nCol - 1))).
Proof.
  intros fs extra.
  assert (Hok : Forall field_ok fs)
    by (repeat (constructor; [split; reflexivity|]); constructor).
  assert (Hlen : Z.of_nat (length fs) = 2 * 2) by reflexivity.
  assert (Hfit : (length (encode_rows fs ++ extra)
                  <= @BLOCK example_protocol)%nat) by (vm_compute; lia).
  split; [lia|]. split; [lia|]. split; [exact Hok|]. split; [exact Hlen|].
  split; [exact Hfit|].
  apply (@read_rows_fields example_protocol 2 2 fs extra [WInt 0]);
    [lia | lia | exact Hok | exact Hlen | exact Hfit].
Defined.

(** X10.  Each field gets one refill.  Where the first field of the
    payload is not ended in the first read, nor in the read that the
    refill adds, the decode returns SQL_ERROR -- whatever the stream
    holds behind these two reads, the rest of the field and its
    delimiter included; what it holds there stays unread. *)
Theorem read_rows_field_over_three_reads `{Protocol} (nRows nCols : Z)
    (c1 c2 : list ascii) (rs : stream) :
  0 < nRows ->
  0 < nCols ->
  c1 <> [] ->
  c2 <> [] ->
  filter is_delim (c1 ++ c2) = [] ->
  (length (c1 ++ c2) <= BLOCK)%nat ->
  exists st,
    read_rows nRows nCols (WData c1 :: WData c2 :: rs) = Some (inr st) /\
    r_rs st = rs /\
    r_rows st = ∅.
Proof.
  intros HnRows HnCols H1 H2 Hnone Hfit. unfold read_rows.
  rewrite length_app in Hfit.
  rewrite bstream_refill_chunk
    by (split; [destruct c1; [congruence|simpl; lia] | lia]).
  destruct (Z.to_nat nRows) as [|k] eqn:Ek; [lia|].
  destruct (Z.to_nat nCols) as [|j] eqn:Ej; [lia|].
  cbn [rows_loop r_eof]. rewrite Ej. cbn [cols_loop r_eof].
  unfold row_field. cbn [r_pre r_win r_post r_eof r_rs r_rows negb].
  rewrite filter_app in Hnone. apply app_eq_nil in Hnone.
  destruct Hnone as [Hn1 Hn2].
  rewrite scan_for_absent by exact Hn1.
  rewrite bstream_refill_more
    by (try (destruct c2; [congruence|simpl; lia]); lia).
  rewrite scan_for_absent by (rewrite filter_app, Hn1, Hn2; reflexivity).
  eexists. split; [reflexivity|]. split; reflexivity.
Qed.

Lemma read_rows_field_over_three_reads_witness :
  let rs := [WData ("ce" ++ [NL]); WInt 0] in
  0 < 1 /\
  0 < 1 /\
  str "A" <> [] /\
  str "li" <> [] /\
  filter is_delim ("A" ++ "li") = [] /\
  (length ("A" ++ "li") <= @BLOCK example_protocol)%nat /\
  exists st,
    @read_rows example_protocol 1 1 (WData "A" :: WData "li" :: rs)
      = Some (inr st) /\
    r_rs st = rs /\
    r_rows st = ∅.
Proof.
  intros rs.
  assert (H1 : str "A" <> []) by discriminate.
  assert (H2 : str "li" <> []) by discriminate.
  assert (Hfit : (length ("A" ++ "li") <= @BLOCK example_protocol)%nat)
    by (vm_compute; lia).
  split; [lia|]. split; [lia|]. split; [exact H1|]. split; [exact H2|].
  split; [reflexivity|]. split; [exact Hfit|].
  apply (@read_rows_field_over_three_reads example_protocol 1 1
           (str "A") (str "li") rs); [lia | lia | exact H1 | exact H2
                                      | reflexivity | exact Hfit].
Defined.

(** X26.  A field cut in two reads.  The first read ends behind
    [1\tAl].  The refill of lines 312-315 moves the unread [Al] to the
    start of the buffer; [s] stays at offset 2, where the field began
    before the refill.  [*sc = 0] ends [Alice], and [strdup (s)] reads
    the refilled buffer from offset 2 on: slot 4 gets [ice].  In one
    read the same payload gives [Alice].  A field that begins at the
    start of the buffer loses nothing. *)
Theorem read_rows_field_cut_by_refill :
  let rows (r : option (row_state + row_state)) :=
    match r with
    | Some (inl st) => Some (map_to_list (r_rows st))
    | _ => None
    end in
  rows (@read_rows example_protocol 1 2
          [WData ("1" ++ TAB :: "Al"); WData ("ice" ++ [NL])]) =
    Some [(3, str "1"); (4, str "ice")] /\
  rows (@read_rows example_protocol 1 2
          [WData ("1" ++ TAB :: "Alice" ++ [NL])]) =
    Some [(3, str "1"); (4, str "Alice")] /\
  rows (@read_rows example_protocol 1 1
          [WData "Al"; WData ("ice" ++ [NL])]) =
    Some [(2, str "Alice")].
Proof.
  repeat split; vm_compute; reflexivity.
Qed.

(** X27.  A field that begins where the first read ends, and is empty.
    The first read delivers [a\t]; the second a tab, [x], a double
    quote and [yy\n].  For the
    second field [s] is offset 2 and nothing is unread; after the refill
    [sc] is the start of the buffer, where the scan stops at once, and
    the byte at offset 2 of the refilled buffer is a double quote: the
    test of line 327 goes on to [*(sc - 1)], the byte before the
    buffer.  The decode has no defined result. *)
Theorem read_rows_quote_test_before_buffer :
  @read_rows example_protocol 1 3
    [WData ("a" ++ [TAB]); WData (TAB :: "x" ++ DQUOTE :: "yy" ++ [NL])]
  = None.
Proof.
  vm_compute. reflexivity.
Qed.

(** ** The call as a whole: state, errors, results *)

Lemma next_result_cases `{Protocol} (rs rs' : stream) (h h' : ODBCStmt)
    (t t' r : Z) :
  next_result rs h t = Some (r, t', h', rs') ->
  (r = SQL_ERROR /\
   exists e, Error h' = Error h ++ [e] /\ frame_error e /\
             h' = addStmtError h (sqlState e) (errMsg e) 0) \/
  (0 <= r /\ h' = h /\ rs = WInt t' :: WInt r :: rs' /\
   t' <> Q_END /\ 0 <= t').
Proof.
  unfold next_result, frame_error.
  destruct rs as [|[z|b l|b] rs0]; cbn [stream_readInt];
    try (intros E; inversion E; subst; left; split; [reflexivity|];
         eexists; split; [reflexivity|]; split; [left|]; reflexivity).
  case_bool_decide as Hend.
  { intros E; inversion E; subst; left; split; [reflexivity|].
    eexists; split; [reflexivity|]; split; [left|]; reflexivity. }
  destruct (stream_readInt rs0) as [st rs2] eqn:R.
  destruct (bs_read_next rs2) as [last rs3].
  assert (Hdrain : forall x,
    Some (SQL_ERROR, z,
          addStmtError h "HY000"
            (Some (str "No result available (status < 0)")) 0, x)
      = Some (r, t', h', rs') ->
    (r = SQL_ERROR /\
     exists e, Error h' = Error h ++ [e] /\
               (sqlState e = str "08S01" \/ sqlState e = str "HY000") /\
               h' = addStmtError h (sqlState e) (errMsg e) 0) \/
    (0 <= r /\ h' = h /\ WInt z :: rs0 = WInt t' :: WInt r :: rs' /\
     t' <> Q_END /\ 0 <= t')).
  { intros x E; inversion E; subst; left; split; [reflexivity|].
    eexists; split; [reflexivity|]; split; [right|]; reflexivity. }
  case_bool_decide as Hneg; [apply Hdrain|].
  destruct st as [st|]; [|discriminate].
  case_bool_decide as Hneg'; [apply Hdrain|].
  intros E; inversion E; subst. right.
  destruct rs0 as [|[z0|b l|b] rs0]; cbn [stream_readInt] in R;
    inversion R; subst.
  repeat split; try lia.
Qed.

Lemma next_result_same `{Protocol} (rs rs' : stream) (h h' : ODBCStmt)
    (t t' r : Z) :
  next_result rs h t = Some (r, t', h', rs') ->
  State h' = State h /\ same_query h h' /\
  nrCols h' = nrCols h /\ nrRows h' = nrRows h /\
  ResultCols h' = ResultCols h /\ ResultRows h' = ResultRows h.
Proof.
  intros E. apply next_result_cases in E.
  destruct E as [(_ & e & _ & _ & ->)|(_ & -> & _)];
    unfold same_query; repeat split.
Qed.

Lemma result_rows_state `{Protocol} (h h' : ODBCStmt) (rs : stream)
    (status type nCols : Z) (r : SQLRETURN) :
  result_rows h rs status type nCols = Some (r, h') ->
  State h' = (if bool_decide (r = SQL_SUCCESS) then EXECUTED else State h) /\
  same_query h h'.
Proof.
  unfold result_rows, same_query.
  destruct (bool_decide (type = Q_TABLE) && bool_decide (status > 0)).
  - destruct (read_rows status nCols rs) as [[st|st]|]; [| |discriminate];
      intros E; inversion E; subst; cbn; repeat split.
  - case_bool_decide; intros E; inversion E; subst; cbn; repeat split.
Qed.

Lemma result_rows_error `{Protocol} (h h' : ODBCStmt) (rs : stream)
    (status type nCols : Z) (r : SQLRETURN) :
  result_rows h rs status type nCols = Some (r, h') ->
  Error h' = Error h /\ (r = SQL_SUCCESS \/ r = SQL_ERROR).
Proof.
  unfold result_rows.
  destruct (bool_decide (type = Q_TABLE) && bool_decide (status > 0)).
  - destruct (read_rows status nCols rs) as [[st|st]|]; [| |discriminate];
      intros E; inversion E; subst; cbn; auto.
  - case_bool_decide; intros E; inversion E; subst; cbn; auto.
Qed.

(** What a call leaves behind: the state, the members no step assigns,
    and the errors. *)
Lemma SQLExecute_outcome `{Protocol} (hstmt hstmt' : ODBCStmt)
    (r : SQLRETURN) :
  SQLExecute hstmt = Some (r, hstmt') ->
  State hstmt' =
    (if bool_decide (r = SQL_SUCCESS) then EXECUTED else State hstmt) /\
  same_query hstmt hstmt' /\
  (isValidStmt hstmt = true ->
   (Error hstmt' = [] /\ (r = SQL_SUCCESS \/ r = SQL_ERROR)) \/
   (r = SQL_ERROR /\
    exists e, Error hstmt' = [e] /\ (e = error_24000 \/ frame_error e))).
Proof.
  unfold SQLExecute.
  destruct (isValidStmt hstmt) eqn:Hvalid; cbn [negb].
  2:{ intros E; inversion E; subst. unfold same_query.
      repeat split. discriminate. }
  case_bool_decide as Hprep; cbn [negb].
  2:{ intros E; inversion E; subst. unfold same_query.
      repeat split. intros _. right. split; [reflexivity|].
      eexists. split; [reflexivity|]. left; reflexivity. }
  cbn in Hprep.
  destruct (Query (clearStmtErrors hstmt)) as [q|] eqn:Eq; [|discriminate].
  destruct (ResultCols (clearStmtErrors hstmt)); [discriminate|].
  destruct (ResultRows (clearStmtErrors hstmt)); [discriminate|].
  destruct (build_query _ q) as [query|]; [|discriminate].
  match goal with
  | |- match next_result ?rs ?h ?t with _ => _ end = _ -> _ =>
      destruct (next_result rs h t) as [[[[s0 t0] h0] rs0]|] eqn:N;
      [|discriminate];
      pose proof (next_result_cases _ _ _ _ _ _ _ N) as Hcase;
      apply next_result_same in N; unfold same_query in N; cbn in N;
      destruct N as (Ns & (Nv & Nq & Nb) & _)
  end.
  cbn in Hcase.
  case_bool_decide as Herr.
  { intros E; inversion E; subst.
    rewrite bool_decide_eq_false_2 by discriminate.
    unfold same_query. cbn.
    split; [exact Ns|]. split; [repeat split; assumption|].
    intros _. right. split; [reflexivity|].
    destruct Hcase as [(_ & e & He & Hf & _)|(Hge & _)].
    - exists e. split; [exact He|]. right; exact Hf.
    - exfalso. unfold SQL_ERROR in *. lia. }
  assert (He0 : Error h0 = []).
  { destruct Hcase as [(? & _)|(_ & -> & _)]; [contradiction|reflexivity]. }
  clear Hcase.
  unfold result_header.
  destruct (bool_decide (t0 = Q_RESULT) && bool_decide (s0 > 0)).
  - destruct (stream_readInt rs0) as [_ rs1].
    destruct (read_header s0 rs1) as [[cols rs2]|]; [|discriminate].
    destruct (next_result rs2 _ t0) as [[[[s1 t1] h1] rs3]|] eqn:N1;
      [|discriminate].
    pose proof (next_result_cases _ _ _ _ _ _ _ N1) as Hcase.
    apply next_result_same in N1. unfold same_query in N1. cbn in N1.
    destruct N1 as (N1s & (N1v & N1q & N1b) & _).
    cbn in Hcase. rewrite He0 in Hcase.
    case_bool_decide as Herr1.
    + intros E; inversion E; subst.
      rewrite bool_decide_eq_false_2 by discriminate.
      unfold same_query. cbn.
      split; [congruence|]. split; [repeat split; congruence|].
      intros _. right. split; [reflexivity|].
      destruct Hcase as [(_ & e & He & Hf & _)|(Hge & _)].
      * exists e. split; [exact He|]. right; exact Hf.
      * exfalso. unfold SQL_ERROR in *. lia.
    + assert (He1 : Error h1 = []).
      { destruct Hcase as [(? & _)|(_ & -> & _)];
          [contradiction|exact He0]. }
      intros E.
      destruct (result_rows_state _ _ _ _ _ _ _ E) as [Rs (Rv & Rq & Rb)].
      destruct (result_rows_error _ _ _ _ _ _ _ E) as [Re Rr].
      unfold same_query. split; [|split; [repeat split; congruence|]].
      * rewrite Rs. case_bool_decide; congruence.
      * intros _. left. split; [congruence|exact Rr].
  - intros E.
    destruct (result_rows_state _ _ _ _ _ _ _ E) as [Rs (Rv & Rq & Rb)].
    destruct (result_rows_error _ _ _ _ _ _ _ E) as [Re Rr].
    unfold same_query. split; [|split; [repeat split; congruence|]].
    + rewrite Rs. case_bool_decide; congruence.
    + intros _. left. split; [congruence|exact Rr].
Qed.

(** X11.  [next_result] either reads a whole frame header or records an
    error.  Where it returns, the result is SQL_ERROR and exactly one
    error record of the frame reader was appended; or it is the status
    of the frame, not negative, the statement is unchanged, and exactly
    the two integers of the frame header were taken off the stream, the
    type being neither Q_END nor negative. *)
Theorem next_result_outcome `{Protocol} (rs rs' : stream)
    (hstmt hstmt' : ODBCStmt) (type type' r : Z) :
  next_result rs hstmt type = Some (r, type', hstmt', rs') ->
  (r = SQL_ERROR /\
   exists e, Error hstmt' = Error hstmt ++ [e] /\ frame_error e) \/
  (0 <= r /\ hstmt' = hstmt /\ rs = WInt type' :: WInt r :: rs' /\
   type' <> Q_END /\ 0 <= type').
Proof.
  intros E. destruct (next_result_cases _ _ _ _ _ _ _ E)
    as [(Hr & e & He & Hf & _)|Hok].
  - left. split; [exact Hr|]. exists e. split; assumption.
  - right. exact Hok.
Qed.

Lemma next_result_outcome_witness :
  let hstmt := example_stmt PREPARED "select 1" no_params [] in
  let rs := [WInt 2; WInt 7; WData "x"] in
  @next_result example_protocol rs hstmt 0
    = Some (7, 2, hstmt, [WData "x"]) /\
  ((7 = SQL_ERROR /\
    exists e, Error hstmt = Error hstmt ++ [e] /\ frame_error e) \/
   (0 <= 7 /\ hstmt = hstmt /\ rs = WInt 2 :: WInt 7 :: [WData "x"] /\
    2 <> @Q_END example_protocol /\ 0 <= 2)).
Proof.
  intros hstmt rs.
  assert (E : @next_result example_protocol rs hstmt 0
              = Some (7, 2, hstmt, [WData "x"])) by reflexivity.
  split; [exact E|].
  exact (@next_result_outcome example_protocol rs [WData "x"] hstmt hstmt
           0 2 7 E).
Defined.

(** X12.  The state after a call.  Whatever the handle, the query and
    the reply: where [SQLExecute] returns SQL_SUCCESS the statement is
    EXECUTED, and where it returns anything else the state is the one
    the statement had; the handle's validity, the query and the bound
    parameters are never assigned. *)
Theorem SQLExecute_state_law `{Protocol} (hstmt hstmt' : ODBCStmt)
    (r : SQLRETURN) :
  SQLExecute hstmt = Some (r, hstmt') ->
  State hstmt' =
    (if bool_decide (r = SQL_SUCCESS) then EXECUTED else State hstmt) /\
  isValidStmt hstmt' = isValidStmt hstmt /\
  Query hstmt' = Query hstmt /\
  bindParams hstmt' = bindParams hstmt.
Proof.
  intros E. destruct (SQLExecute_outcome _ _ _ E) as (Hs & Hq & _).
  split; [exact Hs|exact Hq].
Qed.

Lemma SQLExecute_state_law_witness :
  let hstmt := example_stmt PREPARED "select 1" no_params
                 [WInt 1; WInt 1; WInt 0; WData ("id,int" ++ [NL]);
                  WInt 2; WInt 1; WData "4"] in
  let r := SQL_ERROR in
  let hstmt' :=
    match @SQLExecute example_protocol hstmt with
    | Some (_, h) => h
    | None => hstmt
    end in
  @SQLExecute example_protocol hstmt = Some (r, hstmt') /\
  State hstmt' =
    (if bool_decide (r = SQL_SUCCESS) then EXECUTED else State hstmt) /\
  isValidStmt hstmt' = isValidStmt hstmt /\
  Query hstmt' = Query hstmt /\
  bindParams hstmt' = bindParams hstmt.
Proof.
  intros hstmt r hstmt'.
  assert (E : @SQLExecute example_protocol hstmt = Some (r, hstmt'))
    by (vm_compute; reflexivity).
  split; [exact E|].
  exact (@SQLExecute_state_law example_protocol hstmt hstmt' r E).
Defined.

(** X13.  The errors after a call on a valid handle.  The errors of
    earlier calls are gone; at most one error is recorded, and it is
    24000 or an error of the frame reader (08S01, HY000).  A call that
    returns SQL_SUCCESS records none, and a call that records one
    returns SQL_ERROR. *)
Theorem SQLExecute_error_records `{Protocol} (hstmt hstmt' : ODBCStmt)
    (r : SQLRETURN) :
  isValidStmt hstmt = true ->
  SQLExecute hstmt = Some (r, hstmt') ->
  (Error hstmt' = [] \/
   exists e, Error hstmt' = [e] /\ (e = error_24000 \/ frame_error e)) /\
  (r = SQL_SUCCESS -> Error hstmt' = []) /\
  (Error hstmt' <> [] -> r = SQL_ERROR).
Proof.
  intros Hvalid E. destruct (SQLExecute_outcome _ _ _ E) as (_ & _ & He).
  destruct (He Hvalid) as [(Hnil & Hr)|(Hr & e & Hone & Hkind)].
  - split; [left; exact Hnil|]. split; [intros _; exact Hnil|].
    intros Hne. contradiction.
  - split; [right; exists e; split; assumption|].
    split; [|intros _; exact Hr].
    intros Hs. rewrite Hs in Hr. discriminate.
Qed.

Lemma SQLExecute_error_records_witness :
  let hstmt :=
    set_Error [error_24000; error_24000]
      (example_stmt PREPARED "select 1" no_params
         [WInt 1; WInt (-1); WBlock "no such table" true]) in
  let r := SQL_ERROR in
  let hstmt' :=
    match @SQLExecute example_protocol hstmt with
    | Some (_, h) => h
    | None => hstmt
    end in
  isValidStmt hstmt = true /\
  @SQLExecute example_protocol hstmt = Some (r, hstmt') /\
  (Error hstmt' = [] \/
   exists e, Error hstmt' = [e] /\ (e = error_24000 \/ frame_error e)) /\
  (r = SQL_SUCCESS -> Error hstmt' = []) /\
  (Error hstmt' <> [] -> r = SQL_ERROR).
Proof.
  intros hstmt r hstmt'.
  assert (E : @SQLExecute example_protocol hstmt = Some (r, hstmt'))
    by (vm_compute; reflexivity).
  split; [reflexivity|]. split; [exact E|].
  exact (@SQLExecute_error_records example_protocol hstmt hstmt' r
           eq_refl E).
Defined.

(** X14.  A reply that is neither a header frame nor a table frame with
    a positive count -- an update count, a result of no columns, a tag
    the driver does not know: [SQLExecute] succeeds, the statement is
    EXECUTED with no columns, no rows and no result arrays, and the
    stream is behind the two integers of the frame.  The count of the
    frame is stored nowhere. *)
Theorem SQLExecute_other_frame `{Protocol} (hstmt : ODBCStmt)
    (q query : cstring) (type status : Z) (rs : stream) :
  ready hstmt q ->
  build_query (bindParams hstmt) q = Some query ->
  Mrs (Dbc hstmt) = WInt type :: WInt status :: rs ->
  type <> Q_END ->
  0 <= type ->
  0 <= status ->
  (status = 0 \/ (type <> Q_RESULT /\ type <> Q_TABLE)) ->
  exists hstmt',
    SQLExecute hstmt = Some (SQL_SUCCESS, hstmt') /\
    State hstmt' = EXECUTED /\
    Error hstmt' = [] /\
    nrCols hstmt' = 0 /\ nrRows hstmt' = 0 /\ currentRow hstmt' = 0 /\
    ResultCols hstmt' = None /\ ResultRows hstmt' = None /\
    Mrs (Dbc hstmt') = rs.
Proof.
  intros (Hvalid & Hstate & Hq & Hcols & Hrows) Hbuild Hmrs Hend Ht Hs Hkind.
  unfold SQLExecute. rewrite Hvalid. simpl. rewrite Hstate, Hq, Hcols, Hrows.
  rewrite bool_decide_eq_true_2 by reflexivity. simpl.
  rewrite Hbuild, Hmrs. unfold next_result. simpl.
  rewrite (bool_decide_eq_false_2 (type = Q_END)) by exact Hend.
  rewrite (bool_decide_eq_false_2 (type < 0)) by lia.
  rewrite (bool_decide_eq_false_2 (status < 0)) by lia.
  rewrite (bool_decide_eq_false_2 (status = SQL_ERROR))
    by (unfold SQL_ERROR; lia).
  unfold result_header.
  assert (Hh : bool_decide (type = Q_RESULT) && bool_decide (status > 0)
               = false).
  { destruct Hkind as [->|[Hr _]].
    - rewrite (bool_decide_eq_false_2 (0 > 0)) by lia. apply andb_false_r.
    - rewrite (bool_decide_eq_false_2 (type = Q_RESULT)) by exact Hr.
      reflexivity. }
  rewrite Hh. unfold result_rows.
  assert (Ht' : bool_decide (type = Q_TABLE) && bool_decide (status > 0)
                = false).
  { destruct Hkind as [->|[_ Hr]].
    - rewrite (bool_decide_eq_false_2 (0 > 0)) by lia. apply andb_false_r.
    - rewrite (bool_decide_eq_false_2 (type = Q_TABLE)) by exact Hr.
      reflexivity. }
  rewrite Ht'.
  eexists. split; [reflexivity|].
  destruct (bool_decide (Q_UPDATE = 0)); simpl; rewrite ?Hcols, ?Hrows;
    repeat split.
Qed.

Lemma SQLExecute_other_frame_witness :
  let hstmt := example_stmt PREPARED "delete from t" no_params
                 [WInt 3; WInt 5; WInt 0] in
  ready hstmt "delete from t" /\
  build_query (bindParams hstmt) "delete from t" = Some (str "delete from t") /\
  Mrs (Dbc hstmt) = WInt 3 :: WInt 5 :: [WInt 0] /\
  3 <> @Q_END example_protocol /\
  0 <= 3 /\
  0 <= 5 /\
  (5 = 0 \/ (3 <> @Q_RESULT example_protocol /\
             3 <> @Q_TABLE example_protocol)) /\
  exists hstmt',
    @SQLExecute example_protocol hstmt = Some (SQL_SUCCESS, hstmt') /\
    State hstmt' = EXECUTED /\
    Error hstmt' = [] /\
    nrCols hstmt' = 0 /\ nrRows hstmt' = 0 /\ currentRow hstmt' = 0 /\
    ResultCols hstmt' = None /\ ResultRows hstmt' = None /\
    Mrs (Dbc hstmt') = [WInt 0].
Proof.
  intros hstmt.
  assert (Hready : ready hstmt "delete from t")
    by (repeat split; reflexivity).
  assert (Hend : 3 <> @Q_END example_protocol) by discriminate.
  assert (Hkind : 5 = 0 \/ (3 <> @Q_RESULT example_protocol /\
                            3 <> @Q_TABLE example_protocol))
    by (right; split; discriminate).
  split; [exact Hready|]. split; [reflexivity|]. split; [reflexivity|].
  split; [exact Hend|]. split; [lia|]. split; [lia|]. split; [exact Hkind|].
  apply (@SQLExecute_other_frame example_protocol hstmt
           (str "delete from t") (str "delete from t") 3 5 [WInt 0]);
    [exact Hready | reflexivity | reflexivity | exact Hend | lia | lia
     | exact Hkind].
Defined.

Lemma read_rows_fields_eq `{Protocol} (nRows nCols : Z)
    (fs : list (list ascii * ascii)) (rs : stream) :
  0 < nRows ->
  0 < nCols ->
  Forall field_ok fs ->
  Z.of_nat (length fs) = nRows * nCols ->
  (length (encode_rows fs) <= BLOCK)%nat ->
  exists pre post,
    read_rows nRows nCols (WData (encode_rows fs) :: rs) =
    Some (inl {| r_pre := pre; r_win := []; r_post := post;
                 r_eof := false; r_rs := rs;
                 r_rows := store_fields (nCols + 1) fs ∅ |}).
Proof.
  intros HnRows HnCols Hok Hlen Hfit. unfold read_rows.
  rewrite bstream_refill_chunk.
  2:{ split; [|exact Hfit].
      destruct fs as [|fd fs]; [simpl in Hlen; nia|].
      rewrite encode_rows_cons, length_app. simpl. lia. }
  destruct (rows_loop_complete (Z.to_nat nRows) fs 1 nCols [] []
              (refill_post [] (encode_rows fs)) rs ∅)
    as (pre' & Hr); [lia|exact Hok|nia|].
  rewrite app_nil_r in Hr. rewrite Hr, Z.mul_1_l. eauto.
Qed.

(** X15.  A whole result set.  The reply is a header frame whose payload
    holds one record [name,type\n] for each of the nCols columns,
    followed by a table frame whose payload holds nRows x nCols
    delimited fields, each payload arriving in one read that fits the
    buffer.  [SQLExecute] sends the query, returns SQL_SUCCESS and
    leaves the statement EXECUTED without an error: ResultCols holds the
    unused slot 0 and the column of each record in order, slot
    [nRow * nCols + nCol] of ResultRows holds the text of the field of
    that row and column, and the stream is at what follows the reply. *)
Theorem SQLExecute_result_set `{Protocol} (hstmt : ODBCStmt)
    (q query : cstring) (id nCols nRows : Z)
    (recs : list (cstring * cstring)) (fs : list (list ascii * ascii))
    (rs : stream) :
  ready hstmt q ->
  frame_tags_ok ->
  build_query (bindParams hstmt) q = Some query ->
  Mrs (Dbc hstmt) =
    WInt Q_RESULT :: WInt nCols :: WInt id :: WData (encode_header recs)
      :: WInt Q_TABLE :: WInt nRows :: WData (encode_rows fs) :: rs ->
  recs <> [] ->
  Z.of_nat (length recs) = nCols ->
  Forall record_ok recs ->
  (length (encode_header recs) <= BLOCK)%nat ->
  0 < nRows ->
  Z.of_nat (length fs) = nRows * nCols ->
  Forall field_ok fs ->
  (length (encode_rows fs) <= BLOCK)%nat ->
  exists hstmt' rows,
    SQLExecute hstmt = Some (SQL_SUCCESS, hstmt') /\
    State hstmt' = EXECUTED /\
    Error hstmt' = [] /\
    Mws (Dbc hstmt') =
      Mws (Dbc hstmt) ++ [Written query; Written [";"%char; NL]; Flushed] /\
    Mrs (Dbc hstmt') = rs /\
    nrCols hstmt' = nCols /\ nrRows hstmt' = nRows /\
    ResultCols hstmt' = Some (zero_ColumnHeader :: map column_of recs) /\
    ResultRows hstmt' = Some rows /\
    forall nRow nCol,
      1 <= nRow <= nRows ->
      1 <= nCol <= nCols ->
      rows !! (nRow * nCols + nCol) =
      field_text <$>
        (fst <$> fs !! Z.to_nat ((nRow - 1) * nCols + (nCol - 1))).
Proof.
  intros (Hvalid & Hstate & Hq & Hcols & Hrows) (Hr1 & Hr2 & Ht1 & Ht2)
         Hbuild Hmrs Hne Hn Hrecs Hfit HnRows Hlen Hfs Hfit'.
  assert (HnCols : 0 < nCols) by (destruct recs; [congruence|simpl in Hn; lia]).
  unfold SQLExecute. rewrite Hvalid. simpl. rewrite Hstate, Hq, Hcols, Hrows.
  rewrite bool_decide_eq_true_2 by reflexivity. simpl.
  rewrite Hbuild, Hmrs. unfold next_result at 1. simpl.
  rewrite (bool_decide_eq_false_2 (Q_RESULT = Q_END)) by exact Hr1.
  rewrite (bool_decide_eq_false_2 (Q_RESULT < 0)) by lia.
  rewrite (bool_decide_eq_false_2 (nCols < 0)) by lia.
  rewrite (bool_decide_eq_false_2 (nCols = SQL_ERROR)) by (unfold SQL_ERROR; lia).
  unfold result_header.
  rewrite (bool_decide_eq_true_2 (Q_RESULT = Q_RESULT)) by reflexivity.
  rewrite (bool_decide_eq_true_2 (nCols > 0)) by lia. simpl.
  rewrite read_header_records_eq by assumption.
  rewrite bool_decide_eq_true_2 by lia.
  replace (Z.to_nat nCols - length recs)%nat with 0%nat by lia.
  cbn [replicate]. rewrite app_nil_r.
  unfold next_result. simpl.
  rewrite (bool_decide_eq_false_2 (Q_TABLE = Q_END)) by exact Ht1.
  rewrite (bool_decide_eq_false_2 (Q_TABLE < 0)) by lia.
  rewrite (bool_decide_eq_false_2 (nRows < 0)) by lia.
  rewrite (bool_decide_eq_false_2 (nRows = SQL_ERROR)) by (unfold SQL_ERROR; lia).
  unfold result_rows.
  rewrite (bool_decide_eq_true_2 (Q_TABLE = Q_TABLE)) by reflexivity.
  rewrite (bool_decide_eq_true_2 (nRows > 0)) by lia. simpl.
  destruct (read_rows_fields_eq nRows nCols fs rs) as (pre & post & ->);
    [assumption..|].
  eexists. eexists. split; [reflexivity|]. simpl.
  do 2 (split; [reflexivity|]).
  split; [unfold stream_flush, stream_write; rewrite <- !app_assoc;
          reflexivity|].
  do 5 (split; [reflexivity|]).
  intros nRow nCol Hr Hc.
  rewrite store_fields_lookup, lookup_empty.
  rewrite bool_decide_eq_true_2 by nia.
  do 3 f_equal. lia.
Qed.

Lemma SQLExecute_result_set_witness :
  let recs := [(str "id", str "int"); (str "name", str "char")] in
  let fs := [(str "1", TAB); (str "Alice", NL);
             (str "2", TAB); (DQUOTE :: "Bob, Jr" ++ [DQUOTE], NL)] in
  let hstmt := example_stmt PREPARED "select * from t" no_params
                 [WInt 1; WInt 2; WInt 0; WData (encode_header recs);
                  WInt 2; WInt 2; WData (encode_rows fs); WInt 0] in
  let query := str "select * from t" in
  ready hstmt query /\
  @frame_tags_ok example_protocol /\
  build_query (bindParams hstmt) query = Some query /\
  Mrs (Dbc hstmt) =
    WInt (@Q_RESULT example_protocol) :: WInt 2 :: WInt 0
      :: WData (encode_header recs)
      :: WInt (@Q_TABLE example_protocol) :: WInt 2
      :: WData (encode_rows fs) :: [WInt 0] /\
  recs <> [] /\
  Z.of_nat (length recs) = 2 /\
  Forall record_ok recs /\
  (length (encode_header recs) <= @BLOCK example_protocol)%nat /\
  0 < 2 /\
  Z.of_nat (length fs) = 2 * 2 /\
  Forall field_ok fs /\
  (length (encode_rows fs) <= @BLOCK example_protocol)%nat /\
  exists hstmt' rows,
    @SQLExecute example_protocol hstmt = Some (SQL_SUCCESS, hstmt') /\
    State hstmt' = EXECUTED /\
    Error hstmt' = [] /\
    Mws (Dbc hstmt') =
      Mws (Dbc hstmt) ++ [Written query; Written [";"%char; NL]; Flushed] /\
    Mrs (Dbc hstmt') = [WInt 0] /\
    nrCols hstmt' = 2 /\ nrRows hstmt' = 2 /\
    ResultCols hstmt' = Some (zero_ColumnHeader :: map column_of recs) /\
    ResultRows hstmt' = Some rows /\
    forall nRow nCol,
      1 <= nRow <= 2 ->
      1 <= nCol <= 2 ->
      rows !! (nRow * 2 + nCol) =
      field_text <$>
        (fst <$> fs !! Z.to_nat ((nRow - 1) * 2 + (nCol - 1))).
Proof.
  intros recs fs hstmt query.
  assert (Hready : ready hstmt query) by (repeat split; reflexivity).
  assert (Htags : @frame_tags_ok example_protocol)
    by (repeat split; try discriminate; vm_compute; discriminate).
  assert (Hne : recs <> []) by discriminate.
  assert (Hrecs : Forall record_ok recs)
    by (repeat (constructor; [split; by_compute|]); constructor).
  assert (Hfit : (length (encode_header recs)
                  <= @BLOCK example_protocol)%nat) by (vm_compute; lia).
  assert (Hfs : Forall field_ok fs)
    by (repeat (constructor; [split; reflexivity|]); constructor).
  assert (Hfit' : (length (encode_rows fs)
                   <= @BLOCK example_protocol)%nat) by (vm_compute; lia).
  split; [exact Hready|]. split; [exact Htags|]. split; [reflexivity|].
  split; [reflexivity|]. split; [exact Hne|]. split; [reflexivity|].
  split; [exact Hrecs|]. split; [exact Hfit|]. split; [lia|].
  split; [reflexivity|]. split; [exact Hfs|]. split; [exact Hfit'|].
  apply (@SQLExecute_result_set example_protocol hstmt query query 0 2 2
           recs fs [WInt 0]);
    [exact Hready | exact Htags | reflexivity | reflexivity | exact Hne
     | reflexivity | exact Hrecs | exact Hfit | lia | reflexivity
     | exact Hfs | exact Hfit'].
Defined.

(** [SQLExecute_header_table] with what the header decode leaves in the
    statement. *)
Lemma SQLExecute_header_table_cols `{Protocol} (hstmt : ODBCStmt)
    (q query : cstring) (nCols nRows : Z) (rs : stream) :
  ready hstmt q ->
  frame_tags_ok ->
  build_query (bindParams hstmt) q = Some query ->
  header_then_table (Mrs (Dbc hstmt)) nCols nRows rs ->
  0 < nCols -> 0 < nRows ->
  exists h1 cols,
    SQLExecute hstmt = result_rows h1 rs nRows Q_TABLE nCols /\
    isValidStmt h1 = true /\ State h1 = PREPARED /\ Error h1 = [] /\
    Query h1 = Some q /\ ResultCols h1 = Some cols.
Proof.
  intros (Hvalid & Hstate & Hq & Hcols & Hrows) (Hr1 & Hr2 & Ht1 & Ht2)
         Hbuild (id & rs_h & cols & Hmrs & Hhead) HnCols HnRows.
  unfold SQLExecute. rewrite Hvalid. simpl. rewrite Hstate, Hq, Hcols, Hrows.
  rewrite bool_decide_eq_true_2 by reflexivity. simpl.
  rewrite Hbuild, Hmrs. unfold next_result at 1. simpl.
  rewrite (bool_decide_eq_false_2 (Q_RESULT = Q_END)) by exact Hr1.
  rewrite (bool_decide_eq_false_2 (Q_RESULT < 0)) by lia.
  rewrite (bool_decide_eq_false_2 (nCols < 0)) by lia.
  rewrite (bool_decide_eq_false_2 (nCols = SQL_ERROR)) by (unfold SQL_ERROR; lia).
  unfold result_header.
  rewrite (bool_decide_eq_true_2 (Q_RESULT = Q_RESULT)) by reflexivity.
  rewrite (bool_decide_eq_true_2 (nCols > 0)) by lia. simpl.
  rewrite Hhead. unfold next_result. simpl.
  rewrite (bool_decide_eq_false_2 (Q_TABLE = Q_END)) by exact Ht1.
  rewrite (bool_decide_eq_false_2 (Q_TABLE < 0)) by lia.
  rewrite (bool_decide_eq_false_2 (nRows < 0)) by lia.
  rewrite (bool_decide_eq_false_2 (nRows = SQL_ERROR)) by (unfold SQL_ERROR; lia).
  eexists. exists cols. split; [reflexivity|]. simpl.
  rewrite Hvalid, Hstate, Hq. repeat split.
Qed.

(** X16.  After a failed row decode.  The reply is a header frame and a
    table frame whose payload starts to arrive and then holds fewer
    field terminators than nRows x nCols.  Where the call has a defined
    result at all (behind a refill the tests of lines 327-334 go
    through the [s] of before the refill, and can read the byte before
    the buffer), [SQLExecute] returns SQL_ERROR without recording an
    error; the statement stays PREPARED and keeps the column array and
    the partly filled row array.  A second [SQLExecute] on it therefore
    does not pass the assertions of lines 122-123: it has no defined
    result. *)
Theorem SQLExecute_after_row_failure `{Protocol} (hstmt : ODBCStmt)
    (q query : cstring) (nCols nRows : Z) (rs : stream) :
  ready hstmt q ->
  frame_tags_ok ->
  build_query (bindParams hstmt) q = Some query ->
  header_then_table (Mrs (Dbc hstmt)) nCols nRows rs ->
  0 < nCols ->
  0 < nRows ->
  at_end_of_stream rs = false ->
  Z.of_nat (count_delims (stream_payload rs)) < nRows * nCols ->
  SQLExecute hstmt <> None ->
  exists hstmt',
    SQLExecute hstmt = Some (SQL_ERROR, hstmt') /\
    Error hstmt' = [] /\
    State hstmt' = PREPARED /\
    is_Some (ResultCols hstmt') /\
    is_Some (ResultRows hstmt') /\
    SQLExecute hstmt' = None.
Proof.
  intros Hready Htags Hbuild Hreply HnCols HnRows Hend Hfew.
  destruct (SQLExecute_header_table_cols hstmt q query nCols nRows rs
              Hready Htags Hbuild Hreply HnCols HnRows)
    as (h1 & cols & -> & Hv1 & Hs1 & He1 & Hq1 & Hc1).
  unfold result_rows.
  rewrite bool_decide_eq_true_2 by reflexivity.
  rewrite bool_decide_eq_true_2 by lia. simpl.
  destruct (read_rows_start nRows nCols rs) as (win & rs1 & Hfill & ->).
  rewrite Hend in *.
  destruct (rows_loop _ _ _ _) as [[st'|st']|] eqn:Hloop;
    [|intros _|intros Hdef; congruence].
  - exfalso.
    apply rows_loop_inl in Hloop; [|reflexivity].
    destruct Hloop as (_ & Hd & _).
    unfold delims_left at 1 in Hd. simpl in Hd.
    destruct (bstream_refill_payload _ _ _ _ _ Hfill) as [Hpay _].
    rewrite Hpay in Hd. simpl in Hd. nia.
  - eexists. split; [reflexivity|]. simpl.
    split; [exact He1|]. split; [exact Hs1|].
    split; [rewrite Hc1; eauto|]. split; [eauto|].
    unfold SQLExecute. simpl. rewrite Hv1. simpl. rewrite Hs1.
    rewrite bool_decide_eq_true_2 by reflexivity. simpl.
    rewrite Hq1, Hc1. reflexivity.
Qed.

Lemma SQLExecute_after_row_failure_witness :
  let rs := [WData "4"] in
  let hstmt := example_stmt PREPARED "select 1" no_params
                 (WInt 1 :: WInt 1 :: WInt 0 :: WData ("id,int" ++ [NL])
                    :: WInt 2 :: WInt 1 :: rs) in
  let query := str "select 1" in
  ready hstmt query /\
  @frame_tags_ok example_protocol /\
  build_query (bindParams hstmt) query = Some query /\
  @header_then_table example_protocol (Mrs (Dbc hstmt)) 1 1 rs /\
  0 < 1 /\
  0 < 1 /\
  @at_end_of_stream example_protocol rs = false /\
  Z.of_nat (count_delims (stream_payload rs)) < 1 * 1 /\
  @SQLExecute example_protocol hstmt <> None /\
  exists hstmt',
    @SQLExecute example_protocol hstmt = Some (SQL_ERROR, hstmt') /\
    Error hstmt' = [] /\
    State hstmt' = PREPARED /\
    is_Some (ResultCols hstmt') /\
    is_Some (ResultRows hstmt') /\
    @SQLExecute example_protocol hstmt' = None.
Proof.
  intros rs hstmt query.
  assert (Hready : ready hstmt query) by (repeat split; reflexivity).
  assert (Htags : @frame_tags_ok example_protocol)
    by (repeat split; try discriminate; vm_compute; discriminate).
  assert (Hreply : @header_then_table example_protocol
                     (Mrs (Dbc hstmt)) 1 1 rs).
  { exists 0, [WData ("id,int" ++ [NL]); WInt 2; WInt 1; WData "4"].
    eexists. split; [reflexivity|]. vm_compute. reflexivity. }
  assert (Hfew : Z.of_nat (count_delims (stream_payload rs)) < 1 * 1)
    by (vm_compute; reflexivity).
  assert (Hdef : @SQLExecute example_protocol hstmt <> None)
    by (vm_compute; discriminate).
  split; [exact Hready|]. split; [exact Htags|]. split; [reflexivity|].
  split; [exact Hreply|]. split; [lia|]. split; [lia|].
  split; [reflexivity|]. split; [exact Hfew|]. split; [exact Hdef|].
  apply (@SQLExecute_after_row_failure example_protocol hstmt query query
           1 1 rs);
    [exact Hready | exact Htags | reflexivity | exact Hreply | lia | lia
     | reflexivity | exact Hfew | exact Hdef].
Defined.

(** X17.  Executing twice.  After a call that returned SQL_SUCCESS on a
    valid handle, a second call returns SQL_ERROR with 24000 as the only
    error and changes nothing else: the result of the first call, the
    streams and the state stay as they are. *)
Theorem SQLExecute_twice `{Protocol} (hstmt hstmt' : ODBCStmt) :
  isValidStmt hstmt = true ->
  SQLExecute hstmt = Some (SQL_SUCCESS, hstmt') ->
  SQLExecute hstmt' = Some (SQL_ERROR, set_Error [error_24000] hstmt').
Proof.
  intros Hvalid E.
  destruct (SQLExecute_outcome _ _ _ E) as (Hs & (Hv & _) & _).
  rewrite bool_decide_eq_true_2 in Hs by reflexivity.
  unfold SQLExecute. rewrite Hv, Hvalid. simpl. rewrite Hs.
  rewrite bool_decide_eq_false_2 by discriminate. reflexivity.
Qed.

Lemma SQLExecute_twice_witness :
  let hstmt := example_stmt PREPARED "delete from t" no_params
                 [WInt 3; WInt 5; WInt 0] in
  let hstmt' :=
    match @SQLExecute example_protocol hstmt with
    | Some (_, h) => h
    | None => hstmt
    end in
  isValidStmt hstmt = true /\
  @SQLExecute example_protocol hstmt = Some (SQL_SUCCESS, hstmt') /\
  @SQLExecute example_protocol hstmt'
    = Some (SQL_ERROR, set_Error [error_24000] hstmt').
Proof.
  intros hstmt hstmt'.
  assert (E : @SQLExecute example_protocol hstmt = Some (SQL_SUCCESS, hstmt'))
    by (vm_compute; reflexivity).
  split; [reflexivity|]. split; [exact E|].
  exact (@SQLExecute_twice example_protocol hstmt hstmt' eq_refl E).
Defined.

(** ** The profiler client *)

Import Stethoscope.

Lemma reset_status_body (body rest : list counter) (s : counter) :
  live body -> tag s = NUL ->
  reset_status (body ++ s :: rest)
    = Some (map (set_status 0) body ++ s :: rest).
Proof.
  intros Hlive Hs. induction Hlive as [|c body Hc _ IH].
  - simpl. rewrite Hs. reflexivity.
  - cbn [app reset_status map].
    rewrite (proj2 (Ascii.eqb_neq _ _) Hc), IH. reflexivity.
Qed.

(** A table that the first loop gets through has an end. *)
Lemma reset_status_shape (t t0 : list counter) :
  reset_status t = Some t0 ->
  exists body s rest, t = body ++ s :: rest /\ live body /\ tag s = NUL.
Proof.
  revert t0. induction t as [|c t IH]; intros t0; [discriminate|].
  cbn [reset_status]. destruct (Ascii.eqb (tag c) NUL) eqn:E.
  - intros _. exists [], c, t. split; [reflexivity|].
    split; [constructor|]. apply Ascii.eqb_eq. exact E.
  - destruct (reset_status t) as [t1|]; [|discriminate]. intros _.
    destruct (IH t1 eq_refl) as (body & s & rest & -> & Hlive & Hs).
    exists (c :: body), s, rest. split; [reflexivity|].
    split; [|exact Hs]. constructor; [|exact Hlive].
    apply Ascii.eqb_neq. exact E.
Qed.

Lemma same_entry_live (body body' : list counter) (R : counter -> counter -> Prop) :
  (forall c c', R c c' -> same_entry c c') ->
  Forall2 R body body' -> live body -> live body'.
Proof.
  intros HR H2 Hlive. induction H2 as [|c c' body body' Hcc _ IH];
    [constructor|].
  apply Forall_cons in Hlive. destruct Hlive as [Hc Hlive].
  constructor; [|apply IH; exact Hlive].
  destruct (HR _ _ Hcc) as (-> & _). exact Hc.
Qed.

Lemma nz_statuses_cons (c : counter) (l : list counter) :
  nz_statuses (c :: l) =
  if bool_decide (status c <> 0) then status c :: nz_statuses l
  else nz_statuses l.
Proof.
  unfold nz_statuses. cbn [map]. rewrite filter_cons.
  case_bool_decide as Hz; destruct (decide (status c <> 0)); tauto.
Qed.

Lemma elem_of_nz_statuses (z : Z) (l : list counter) :
  z ∈ nz_statuses l <-> z <> 0 /\ exists c, c ∈ l /\ status c = z.
Proof.
  unfold nz_statuses. rewrite list_elem_of_filter, list_elem_of_fmap.
  split.
  - intros (Hz & c & -> & Hc). split; [exact Hz|]. exists c. auto.
  - intros (Hz & c & Hc & <-). split; [exact Hz|]. exists c. auto.
Qed.

(** One run of the inner loop. *)
Lemma mark_tag_body (ch : ascii) (body rest : list counter) (s : counter)
    (k : Z) :
  live body -> tag s = NUL ->
  exists body' k',
    mark_tag ch (body ++ s :: rest) k = Some (body' ++ s :: rest, k') /\
    k <= k' <= k + Z.of_nat (length body) /\
    Forall2 (marked ch k k') body body' /\
    (0 < k -> Forall (fun c => status c < k) body ->
     NoDup (nz_statuses body) -> NoDup (nz_statuses body')).
Proof.
  intros Hlive Hs. revert k.
  induction Hlive as [|c body Hc Hlive IH]; intros k.
  - exists [], k. simpl. rewrite Hs. split; [reflexivity|].
    split; [lia|]. split; [constructor|]. auto.
  - cbn [app mark_tag length].
    rewrite (proj2 (Ascii.eqb_neq _ _) Hc).
    destruct (Ascii.eqb (tag c) ch) eqn:E.
    + apply Ascii.eqb_eq in E.
      destruct (IH (k + 1)) as (body' & k' & -> & Hk & H2 & Hnd).
      exists (set_status k c :: body'), k'. split; [reflexivity|].
      split; [lia|]. split.
      * constructor.
        -- split; [repeat split|]. right. simpl. split; [exact E|lia].
        -- eapply Forall2_impl; [exact H2|].
           intros x y (He & [Hm|(Ht & Hr)]); (split; [exact He|]);
             [left; exact Hm|right; split; [exact Ht|lia]].
      * intros Hpos Hlt Hdup.
        apply Forall_cons in Hlt. destruct Hlt as [Hltc Hlt].
        rewrite nz_statuses_cons in Hdup |- *. cbn [status set_status].
        rewrite bool_decide_eq_true_2 by lia.
        assert (Hdup' : NoDup (nz_statuses body))
          by (case_bool_decide; [apply NoDup_cons in Hdup; tauto|exact Hdup]).
        apply NoDup_cons. split.
        -- rewrite elem_of_nz_statuses. intros (_ & c' & Hin & Hst).
           apply list_elem_of_lookup in Hin. destruct Hin as [i Hi].
           destruct (Forall2_lookup_r _ _ _ _ _ H2 Hi)
             as (c0 & Hi0 & _ & [(_ & Hsame)|(_ & Hr)]).
           ++ apply (proj1 (Forall_lookup _ _) Hlt) in Hi0. lia.
           ++ lia.
        -- apply Hnd; [lia| |exact Hdup'].
           eapply Forall_impl; [exact Hlt|]. simpl. intros; lia.
    + apply Ascii.eqb_neq in E.
      destruct (IH k) as (body' & k' & -> & Hk & H2 & Hnd).
      exists (c :: body'), k'. split; [reflexivity|].
      split; [lia|]. split.
      * constructor; [|exact H2].
        split; [repeat split|]. left. split; [exact E|reflexivity].
      * intros Hpos Hlt Hdup.
        apply Forall_cons in Hlt. destruct Hlt as [Hltc Hlt].
        rewrite nz_statuses_cons in Hdup |- *.
        case_bool_decide as Hz.
        -- apply NoDup_cons in Hdup. destruct Hdup as [Hnin Hdup].
           apply NoDup_cons. split; [|apply Hnd; assumption].
           rewrite elem_of_nz_statuses. intros (_ & c' & Hin & Hst).
           apply list_elem_of_lookup in Hin. destruct Hin as [i Hi].
           destruct (Forall2_lookup_r _ _ _ _ _ H2 Hi)
             as (c0 & Hi0 & _ & [(_ & Hsame)|(_ & Hr)]).
           ++ apply Hnin. rewrite elem_of_nz_statuses.
              split; [exact Hz|]. exists c0.
              split; [eapply list_elem_of_lookup_2; exact Hi0|congruence].
           ++ lia.
        -- apply Hnd; assumption.
Qed.

Lemma Forall2_compose {A : Type} (R1 R2 R3 : A -> A -> Prop)
    (l1 l2 l3 : list A) :
  (forall x y z, R1 x y -> R2 y z -> R3 x z) ->
  Forall2 R1 l1 l2 -> Forall2 R2 l2 l3 -> Forall2 R3 l1 l3.
Proof.
  intros HR H1. revert l3.
  induction H1 as [|x y l1 l2 Hxy _ IH]; intros l3 H2.
  - apply Forall2_nil_inv_l in H2. subst. constructor.
  - apply Forall2_cons_inv_l in H2.
    destruct H2 as (z & l3' & Hyz & H2 & ->).
    constructor; [eapply HR; eassumption|apply IH; exact H2].
Qed.

(** The outer loop. *)
Lemma mark_tags_body (nme : cstring) (body rest : list counter)
    (s : counter) (k : Z) :
  live body -> tag s = NUL ->
  exists body' k',
    mark_tags nme (body ++ s :: rest) k = Some (body' ++ s :: rest, k') /\
    k <= k' <= k + Z.of_nat (length nme) * Z.of_nat (length body) /\
    Forall2 (marked_any nme k k') body body' /\
    (0 < k -> Forall (fun c => status c < k) body ->
     NoDup (nz_statuses body) -> NoDup (nz_statuses body')).
Proof.
  intros Hlive Hs. revert body k Hlive.
  induction nme as [|ch nme IH]; intros body k Hlive.
  - exists body, k. split; [reflexivity|]. split; [simpl; lia|].
    split; [|auto].
    apply Forall2_same_length_lookup_2; [reflexivity|].
    intros i c c' Hi Hi'. assert (c' = c) as -> by congruence.
    split; [repeat split|]. left. split; [apply not_elem_of_nil|reflexivity].
  - cbn [mark_tags].
    destruct (mark_tag_body ch body rest s k Hlive Hs)
      as (body1 & k1 & -> & Hk1 & H1 & Hnd1).
    assert (Hlive1 : live body1).
    { eapply same_entry_live; [|exact H1|exact Hlive].
      intros c c' [He _]. exact He. }
    destruct (IH body1 k1 Hlive1) as (body' & k' & -> & Hk' & H2 & Hnd2).
    pose proof (Forall2_length _ _ _ H1) as Hlen.
    exists body', k'. split; [reflexivity|].
    split; [cbn [length]; nia|]. split.
    + eapply Forall2_compose; [|exact H1|exact H2].
      intros c c1 c' ((Ht1 & Hp1 & Hn1) & Hm1) ((Ht2 & Hp2 & Hn2) & Hm2).
      split; [repeat split; congruence|].
      rewrite Ht1 in Hm2.
      destruct Hm2 as [(Hnin & Hst)|(Hin & Hr)].
      * destruct Hm1 as [(Hne & Hst1)|(He & Hr1)].
        -- left. split; [|congruence].
           rewrite not_elem_of_cons. split; assumption.
        -- right. split; [rewrite He; apply list_elem_of_here|lia].
      * right. split; [apply list_elem_of_further; exact Hin|lia].
    + intros Hpos Hlt Hdup. apply Hnd2; [lia| |apply Hnd1; assumption].
      apply Forall_lookup. intros i c1 Hi1.
      destruct (Forall2_lookup_r _ _ _ _ _ H1 Hi1)
        as (c0 & Hi0 & _ & [(_ & Hsame)|(_ & Hr)]); [|lia].
      apply (proj1 (Forall_lookup _ _) Hlt) in Hi0. lia.
Qed.

Lemma nz_statuses_reset (body : list counter) :
  nz_statuses (map (set_status 0) body) = [].
Proof.
  induction body as [|c body IH]; [reflexivity|].
  cbn [map]. rewrite nz_statuses_cons. cbn [status set_status].
  rewrite bool_decide_eq_false_2 by lia. exact IH.
Qed.

(** [setCounter] on a table with an end. *)
Lemma setCounter_body (nme : cstring) (body rest : list counter)
    (s : counter) :
  live body -> tag s = NUL ->
  exists body',
    setCounter nme (body ++ s :: rest) = Some (body' ++ s :: rest) /\
    Forall2 (fun c c' =>
               same_entry c c' /\
               if bool_decide (tag c ∈ nme)
               then 1 <= status c'
                      <= Z.of_nat (length nme) * Z.of_nat (length body)
               else status c' = 0) body body' /\
    NoDup (nz_statuses body').
Proof.
  intros Hlive Hs. unfold setCounter.
  rewrite reset_status_body by assumption.
  assert (Hlive0 : live (map (set_status 0) body)).
  { apply Forall_fmap. eapply Forall_impl; [exact Hlive|]. auto. }
  destruct (mark_tags_body nme (map (set_status 0) body) rest s 1 Hlive0 Hs)
    as (body' & k' & -> & Hk & H2 & Hnd).
  rewrite length_map in Hk.
  exists body'. split; [reflexivity|]. split.
  - change (map (set_status 0) body) with (set_status 0 <$> body) in H2.
    rewrite Forall2_fmap_l in H2.
    eapply Forall2_impl; [exact H2|].
    intros c c' ((Ht & Hp & Hn) & Hm). cbn in Ht, Hp, Hn, Hm.
    split; [repeat split; assumption|].
    case_bool_decide as Hin; destruct Hm as [(Hnin & Hst)|(Hin' & Hr)];
      try contradiction; [lia|exact Hst].
  - apply Hnd; [lia| |rewrite nz_statuses_reset; constructor].
    apply Forall_fmap, Forall_true. intros c. simpl. lia.
Qed.

(** X18.  [setCounter] selects by tag.  On a table that ends with an
    element of tag 0, whatever the statuses were: the elements keep
    their tag, group and name, and the status of an element is set (not
    0) exactly when its tag occurs in the option string.  The element
    that ends the table and what lies behind it are not touched. *)
Theorem setCounter_selects (nme : cstring) (body rest : list counter)
    (s : counter) :
  live body ->
  tag s = NUL ->
  exists body',
    setCounter nme (body ++ s :: rest) = Some (body' ++ s :: rest) /\
    Forall2 (fun c c' =>
               tag c' = tag c /\ ptag c' = ptag c /\ name c' = name c /\
               (status c' <> 0 <-> tag c ∈ nme)) body body'.
Proof.
  intros Hlive Hs.
  destruct (setCounter_body nme body rest s Hlive Hs)
    as (body' & -> & H2 & _).
  exists body'. split; [reflexivity|].
  eapply Forall2_impl; [exact H2|].
  intros c c' ((Ht & Hp & Hn) & Hm).
  split; [exact Ht|]. split; [exact Hp|]. split; [exact Hn|].
  case_bool_decide as Hin; split; intros; try lia; tauto.
Qed.

Lemma setCounter_selects_witness :
  let body := take 33 profileCounter in
  let s := {| tag := NUL; ptag := None; name := None; status := 0 |} in
  live body /\
  tag s = NUL /\
  exists body',
    setCounter "tis" (body ++ s :: []) = Some (body' ++ s :: []) /\
    Forall2 (fun c c' =>
               tag c' = tag c /\ ptag c' = ptag c /\ name c' = name c /\
               (status c' <> 0 <-> tag c ∈ str "tis")) body body'.
Proof.
  intros body s.
  assert (Hlive : live body)
    by (repeat (constructor; [discriminate|]); constructor).
  split; [exact Hlive|]. split; [reflexivity|].
  exact (setCounter_selects (str "tis") body [] s Hlive eq_refl).
Defined.

(** X19.  The numbering of [setCounter].  The statuses that are set are
    pairwise different, and each lies between 1 and the number of
    comparisons the loops make (characters of the option string times
    elements of the table); no status is negative. *)
Theorem setCounter_numbers (nme : cstring) (body rest : list counter)
    (s : counter) :
  live body ->
  tag s = NUL ->
  exists body',
    setCounter nme (body ++ s :: rest) = Some (body' ++ s :: rest) /\
    NoDup (nz_statuses body') /\
    Forall (fun c' => 0 <= status c'
                        <= Z.of_nat (length nme) * Z.of_nat (length body))
           body'.
Proof.
  intros Hlive Hs.
  destruct (setCounter_body nme body rest s Hlive Hs)
    as (body' & -> & H2 & Hnd).
  exists body'. split; [reflexivity|]. split; [exact Hnd|].
  apply Forall_lookup. intros i c' Hi.
  destruct (Forall2_lookup_r _ _ _ _ _ H2 Hi) as (c & _ & _ & Hm).
  case_bool_decide; nia.
Qed.

Lemma setCounter_numbers_witness :
  let body := take 33 profileCounter in
  let s := {| tag := NUL; ptag := None; name := None; status := 0 |} in
  live body /\
  tag s = NUL /\
  exists body',
    setCounter "mtm" (body ++ s :: []) = Some (body' ++ s :: []) /\
    NoDup (nz_statuses body') /\
    Forall (fun c' => 0 <= status c'
                        <= Z.of_nat (length (str "mtm"))
                           * Z.of_nat (length body))
           body'.
Proof.
  intros body s.
  assert (Hlive : live body)
    by (repeat (constructor; [discriminate|]); constructor).
  split; [exact Hlive|]. split; [reflexivity|].
  exact (setCounter_numbers (str "mtm") body [] s Hlive eq_refl).
Defined.

Lemma same_entry_reset (body body' : list counter)
    (R : counter -> counter -> Prop) :
  (forall c c', R c c' -> same_entry c c') ->
  Forall2 R body body' ->
  map (set_status 0) body' = map (set_status 0) body.
Proof.
  intros HR H2. induction H2 as [|c c' body body' Hcc _ IH]; [reflexivity|].
  cbn [map]. rewrite IH. f_equal.
  destruct (HR _ _ Hcc) as (Ht & Hp & Hn).
  unfold set_status. rewrite Ht, Hp, Hn. reflexivity.
Qed.

(** X20.  A selection replaces the one before it.  [setCounter] starts
    by clearing every status, so on the table a call has left, a second
    call gives what it gives on the table before the first: nothing of
    the earlier selection is kept. *)
Theorem setCounter_replaces (n1 n2 : cstring) (t t1 : list counter) :
  setCounter n1 t = Some t1 ->
  setCounter n2 t1 = setCounter n2 t.
Proof.
  intros E.
  assert (exists t0, reset_status t = Some t0) as [t0 Ht0].
  { unfold setCounter in E. destruct (reset_status t); [eauto|discriminate]. }
  destruct (reset_status_shape t t0 Ht0) as (body & s & rest & -> & Hlive & Hs).
  destruct (setCounter_body n1 body rest s Hlive Hs) as (body1 & E1 & H2 & _).
  rewrite E1 in E. injection E as <-.
  assert (Hlive1 : live body1).
  { eapply same_entry_live; [|exact H2|exact Hlive].
    intros c c' [He _]. exact He. }
  unfold setCounter. rewrite !reset_status_body by assumption.
  rewrite (same_entry_reset body body1 _ (fun c c' H => proj1 H) H2).
  reflexivity.
Qed.

Lemma setCounter_replaces_witness :
  let t1 := default profileCounter (setCounter "TtiesS" profileCounter) in
  setCounter "TtiesS" profileCounter = Some t1 /\
  setCounter "m" t1 = setCounter "m" profileCounter.
Proof.
  intros t1.
  assert (E : setCounter "TtiesS" profileCounter = Some t1)
    by (vm_compute; reflexivity).
  split; [exact E|].
  exact (setCounter_replaces (str "TtiesS") (str "m") profileCounter t1 E).
Defined.

Lemma parse_filter_dot (md fcn : cstring) :
  DOT ∉ md ->
  parse_filter (md ++ DOT :: fcn) =
    (if bool_decide (md = []) then str "*" else md,
     if bool_decide (fcn = []) then str "*" else fcn,
     md).
Proof.
  intros Hn. unfold parse_filter. rewrite scan_for_char by exact Hn.
  reflexivity.
Qed.

Lemma parse_filter_plain (arg : cstring) :
  DOT ∉ arg -> parse_filter arg = (str "*", arg, arg).
Proof.
  intros Hn. unfold parse_filter. rewrite scan_for_char_absent by exact Hn.
  reflexivity.
Qed.

(** Every argument has one of the two shapes. *)
Lemma cstring_dot_split (arg : cstring) :
  DOT ∉ arg \/ exists md fcn, arg = md ++ DOT :: fcn /\ DOT ∉ md.
Proof.
  induction arg as [|c arg IH]; [left; apply not_elem_of_nil|].
  destruct (decide (c = DOT)) as [->|Hc].
  - right. exists [], arg. split; [reflexivity|apply not_elem_of_nil].
  - destruct IH as [Hn|(md & fcn & -> & Hn)].
    + left. apply not_elem_of_cons. split; [congruence|exact Hn].
    + right. exists (c :: md), fcn. split; [reflexivity|].
      apply not_elem_of_cons. split; [congruence|exact Hn].
Qed.

Lemma parse_filter_left (arg : cstring) : DOT ∉ (parse_filter arg).2.
Proof.
  destruct (cstring_dot_split arg) as [Hn|(md & fcn & -> & Hn)].
  - rewrite parse_filter_plain by exact Hn. exact Hn.
  - rewrite parse_filter_dot by exact Hn. exact Hn.
Qed.

(** X21.  A filter argument [mod.fcn] is cut at its first dot: the
    module is what stands before it and the function all that stands
    behind it, further dots included; an empty module or function
    stands for [*].  An argument without a dot is a function of any
    module.  The argument itself is cut down to what stood before the
    dot. *)
Theorem parse_filter_parts (md fcn arg : cstring) :
  DOT ∉ md ->
  DOT ∉ arg ->
  parse_filter (md ++ DOT :: fcn) =
    (if bool_decide (md = []) then str "*" else md,
     if bool_decide (fcn = []) then str "*" else fcn,
     md) /\
  parse_filter arg = (str "*", arg, arg).
Proof.
  intros Hmd Harg. split.
  - apply parse_filter_dot. exact Hmd.
  - apply parse_filter_plain. exact Harg.
Qed.

Lemma parse_filter_parts_witness :
  (DOT ∉ str "sql") /\
  (DOT ∉ str "bind") /\
  parse_filter ("sql" ++ DOT :: "a.b") =
    (if bool_decide (str "sql" = []) then str "*" else str "sql",
     if bool_decide (str "a.b" = []) then str "*" else str "a.b",
     str "sql") /\
  parse_filter "bind" = (str "*", str "bind", str "bind").
Proof.
  assert (H1 : DOT ∉ str "sql") by by_compute.
  assert (H2 : DOT ∉ str "bind") by by_compute.
  split; [exact H1|]. split; [exact H2|].
  exact (parse_filter_parts (str "sql") (str "a.b") (str "bind") H1 H2).
Defined.

Lemma set_filters_eq (BUFSIZ n : nat) (argv : list cstring) :
  (n <= length argv)%nat ->
  set_filters BUFSIZ n argv =
    Some (map (filter_query BUFSIZ) (take n argv),
          map (fun arg => (parse_filter arg).2) (take n argv) ++ drop n argv).
Proof.
  revert argv. induction n as [|n IH]; intros argv Hn.
  - rewrite take_0, drop_0. reflexivity.
  - destruct argv as [|arg argv]; [simpl in Hn; lia|].
    cbn [set_filters]. rewrite IH by (simpl in Hn; lia). reflexivity.
Qed.

Lemma filter_query_plain (BUFSIZ : nat) (arg : cstring) :
  DOT ∉ arg ->
  filter_query BUFSIZ arg = snprintf BUFSIZ (setFilter_text "*" arg).
Proof.
  intros Hn. unfold filter_query. rewrite parse_filter_plain by exact Hn.
  reflexivity.
Qed.

(** X22.  The filter loop parses in place.  A pass over [argc]
    arguments issues the query of each and cuts each at its dot, so a
    pass over the vector it leaves -- [main] hands the same vector to
    every runner -- no longer finds a module: each argument is now the
    function of any module, and the vector stays as it is. *)
Theorem set_filters_second_pass (BUFSIZ argc : nat) (argv : list cstring) :
  (argc <= length argv)%nat ->
  exists argv',
    set_filters BUFSIZ argc argv
      = Some (map (filter_query BUFSIZ) (take argc argv), argv') /\
    set_filters BUFSIZ argc argv'
      = Some (map (fun arg => snprintf BUFSIZ (setFilter_text "*" arg))
                  (take argc argv'),
              argv') /\
    take argc argv' = map (fun arg => (parse_filter arg).2) (take argc argv) /\
    drop argc argv' = drop argc argv.
Proof.
  intros Hn. eexists. split; [apply set_filters_eq; exact Hn|].
  set (cut := map (fun arg => (parse_filter arg).2) (take argc argv)).
  assert (Hlen : length cut = argc).
  { unfold cut. rewrite length_map, length_take. lia. }
  assert (Htake : take argc (cut ++ drop argc argv) = cut).
  { rewrite take_app_length' by (symmetry; exact Hlen). reflexivity. }
  assert (Hdrop : drop argc (cut ++ drop argc argv) = drop argc argv).
  { rewrite drop_app_length' by (symmetry; exact Hlen). reflexivity. }
  split; [|split; [exact Htake|exact Hdrop]].
  rewrite set_filters_eq by (rewrite length_app, Hlen; lia).
  rewrite Htake, Hdrop. f_equal. f_equal.
  - apply map_ext_in. intros arg Hin. apply filter_query_plain.
    unfold cut in Hin. apply in_map_iff in Hin.
    destruct Hin as (arg0 & <- & _). apply parse_filter_left.
  - f_equal. rewrite <- (map_id cut) at 2.
    apply map_ext_in. intros arg Hin.
    unfold cut in Hin. apply in_map_iff in Hin.
    destruct Hin as (arg0 & <- & _).
    rewrite parse_filter_plain by apply parse_filter_left. reflexivity.
Qed.

Lemma set_filters_second_pass_witness :
  let argv := [str "algebra.*"; str "bat.new"; str "last"] in
  (2 <= length argv)%nat /\
  exists argv',
    set_filters 512 2 argv
      = Some (map (filter_query 512) (take 2 argv), argv') /\
    set_filters 512 2 argv'
      = Some (map (fun arg => snprintf 512 (setFilter_text "*" arg))
                  (take 2 argv'),
              argv') /\
    take 2 argv' = map (fun arg => (parse_filter arg).2) (take 2 argv) /\
    drop 2 argv' = drop 2 argv.
Proof.
  intros argv.
  assert (Hn : (2 <= length argv)%nat) by (simpl; lia).
  split; [exact Hn|].
  exact (set_filters_second_pass 512 2 argv Hn).
Defined.

(** What [doProfile] is handed: the vector from one place before [a]
    on, and one argument less than it holds. *)
Lemma main_filters_window (BUFSIZ : nat) (pre filters : list cstring)
    (x : cstring) (optind : nat) (t t' : list counter) :
  filters <> [] ->
  select_counters (pre ++ x :: filters) optind t
    = Some (S (length pre), t') ->
  main_filters BUFSIZ (pre ++ x :: filters) optind t =
    Some (t',
          str "profiler.setNone();"
            :: map (filter_query BUFSIZ) (x :: removelast filters)
            ++ [str "profiler.start();"]).
Proof.
  intros Hne Hsel. unfold main_filters. rewrite Hsel.
  unfold walk_args.
  rewrite bool_decide_eq_true_2 by (rewrite length_app; simpl; lia).
  rewrite drop_app_length.
  replace (length (pre ++ x :: filters) - S (length pre))%nat
    with (length filters)
    by (rewrite length_app; simpl; lia).
  unfold filter_queries.
  rewrite bool_decide_eq_false_2
    by (destruct filters; [congruence|simpl; lia]).
  rewrite set_filters_eq by (simpl; lia).
  assert (Htake : take (length filters) (x :: filters)
                  = x :: removelast filters).
  { destruct (exists_last Hne) as (l & y & ->).
    rewrite removelast_last, length_app. simpl.
    replace (length l + 1)%nat with (S (length l)) by lia.
    cbn [take]. rewrite take_app_length. reflexivity. }
  rewrite Htake. reflexivity.
Qed.

(** X23.  The arguments [main] hands over start one place early.  For a
    command line [options +selection filters], with [optind] at the
    selection: the counters are set from the selection, [walk->argv] is
    [&argv[a - 1]] and [walk->argc] is [argc - a], so the first filter
    query is made of the selection itself, [+] included, and the last
    filter argument is never read. *)
Theorem main_filters_shifted (BUFSIZ : nat) (pre filters : list cstring)
    (sel : cstring) (t t' : list counter) :
  filters <> [] ->
  setCounter sel t = Some t' ->
  main_filters BUFSIZ (pre ++ (PLUS :: sel) :: filters) (length pre) t =
    Some (t',
          str "profiler.setNone();"
            :: map (filter_query BUFSIZ) ((PLUS :: sel) :: removelast filters)
            ++ [str "profiler.start();"]).
Proof.
  intros Hne Hset. apply main_filters_window; [exact Hne|].
  unfold select_counters.
  rewrite list_lookup_middle by reflexivity.
  rewrite bool_decide_eq_true_2
    by (rewrite length_app; destruct filters; [congruence|simpl; lia]).
  unfold PLUS at 1. rewrite Ascii.eqb_refl. cbn [andb].
  rewrite Hset. reflexivity.
Qed.

Lemma main_filters_shifted_witness :
  let pre := [str "stethoscope"; str "-umonetdb"; str "-Pmonetdb"] in
  let filters := [str "algebra.*"; str "bat.*"] in
  let t' := default profileCounter (setCounter "tis" profileCounter) in
  filters <> [] /\
  setCounter "tis" profileCounter = Some t' /\
  main_filters 512 (pre ++ (PLUS :: "tis") :: filters) (length pre)
               profileCounter =
    Some (t',
          str "profiler.setNone();"
            :: map (filter_query 512) ((PLUS :: "tis") :: removelast filters)
            ++ [str "profiler.start();"]).
Proof.
  intros pre filters t'.
  assert (Hne : filters <> []) by discriminate.
  assert (Hset : setCounter "tis" profileCounter = Some t')
    by (vm_compute; reflexivity).
  split; [exact Hne|]. split; [exact Hset|].
  exact (main_filters_shifted 512 pre filters (str "tis") profileCounter t'
           Hne Hset).
Defined.

(** X24.  Without a selection.  Where the argument at [optind] does not
    start with [+], the counters are those of [TtiesS], and the vector
    handed over starts at the argument before [optind]: with at least
    one filter argument, the first filter query is made of the last
    option, and the last filter argument is never read; with none, all
    is profiled. *)
Theorem main_filters_default (BUFSIZ : nat) (pre fs : list cstring)
    (x f : cstring) (t t' : list counter) :
  head f <> Some PLUS ->
  setCounter "TtiesS" t = Some t' ->
  main_filters BUFSIZ (pre ++ x :: f :: fs) (S (length pre)) t =
    Some (t',
          str "profiler.setNone();"
            :: map (filter_query BUFSIZ) (x :: removelast (f :: fs))
            ++ [str "profiler.start();"]) /\
  main_filters BUFSIZ (pre ++ [x]) (S (length pre)) t =
    Some (t', [str "profiler.setNone();"; str "profiler.setAll();";
               str "profiler.start();"]).
Proof.
  intros Hplus Hset. split.
  - apply main_filters_window; [discriminate|].
    unfold select_counters.
    replace (S (length pre)) with (length (pre ++ [x]))
      by (rewrite length_app; simpl; lia).
    replace (pre ++ x :: f :: fs) with ((pre ++ [x]) ++ f :: fs)
      by (rewrite <- app_assoc; reflexivity).
    rewrite list_lookup_middle by reflexivity.
    destruct f as [|c f]; [rewrite Hset; reflexivity|].
    cbn in Hplus.
    assert (Hc : Ascii.eqb c PLUS = false)
      by (apply Ascii.eqb_neq; congruence).
    rewrite Hc, andb_false_r, Hset. reflexivity.
  - unfold main_filters, select_counters.
    rewrite lookup_ge_None_2 by (rewrite length_app; simpl; lia).
    rewrite Hset. cbn [fmap option_fmap option_map]. unfold walk_args.
    rewrite bool_decide_eq_true_2 by (rewrite length_app; simpl; lia).
    replace (length (pre ++ [x]) - S (length pre))%nat with 0%nat
      by (rewrite length_app; simpl; lia).
    reflexivity.
Qed.

Lemma main_filters_default_witness :
  let pre := [str "stethoscope"; str "-umonetdb"] in
  let x := str "-Pmonetdb" in
  let f := str "algebra.*" in
  let fs := [str "bat.*"] in
  let t' := default profileCounter (setCounter "TtiesS" profileCounter) in
  head f <> Some PLUS /\
  setCounter "TtiesS" profileCounter = Some t' /\
  main_filters 512 (pre ++ x :: f :: fs) (S (length pre)) profileCounter =
    Some (t',
          str "profiler.setNone();"
            :: map (filter_query 512) (x :: removelast (f :: fs))
            ++ [str "profiler.start();"]) /\
  main_filters 512 (pre ++ [x]) (S (length pre)) profileCounter =
    Some (t', [str "profiler.setNone();"; str "profiler.setAll();";
               str "profiler.start();"]).
Proof.
  intros pre x f fs t'.
  assert (Hplus : head f <> Some PLUS) by discriminate.
  assert (Hset : setCounter "TtiesS" profileCounter = Some t')
    by (vm_compute; reflexivity).
  split; [exact Hplus|]. split; [exact Hset|].
  exact (main_filters_default 512 pre fs x f profileCounter t' Hplus Hset).
Defined.
